(** * Stop sequencing and proximity matching of the route viewer (app.py)

    A shallow embedding of the functions of [app.py] that reconcile stop
    sequences ([get_route_stops]) and match stops against events
    ([calculate_distance], [find_nearby_gigs_for_stops], [show_gigs_ahead]),
    with the properties stated about them, and of what surrounds them: the
    other pages ([show_stops], [show_nearby_gigs], [home]), the log buffer,
    request signing and the files of the cache directory.

    Conventions of the model.
    - A JSON object of scalars (a stop, a direction, a departure, a venue) is
      a Python dict: a finite map from member names to scalar values.  The
      scalars (null, integers, floats and strings; booleans, which Python
      treats as the integers 0 and 1, are left out) are dynamically typed,
      and operations on them raise the exceptions Python raises
      ([KeyError], [TypeError], [ValueError]).
    - The containers of an upstream response follow the upstream schema:
      ['directions'], ['departures'] and ['stops'] hold arrays of objects,
      ['stop'], ['route'] and ['venue'] hold objects, and every response is
      a non-empty object, so that [if cached_data] tests presence.
    - Python floats are idealised as real numbers: no rounding, no overflow,
      no NaN and no infinity.
    - The upstream services are a record of functions ([world]); [None]
      stands for a [requests.exceptions.RequestException].  URL building
      and request signing are not part of it; they are modelled apart
      ([generate_signature]).
    - The pickle files of the cache directory are finite maps from the cache
      key (the file stem) to the stored data, one map per kind of key;
      expiry is not modelled (an expired entry is an absent one), and reads
      and writes of the files do not fail.  The files with their
      timestamps, their expiry and the failures of reads and writes are
      modelled apart ([get_cached_data], [save_to_cache]), for the home
      page.
    - Log output is not modelled, except that the evaluation of a log
      message can raise.  The log buffer is modelled apart ([store_log]). *)

From Stdlib Require Import Reals Lra ZArith String List Sorted.
From stdpp Require Import base option list sorting gmap strings pretty.

(** ** Scalars and exceptions *)

Inductive value : Type :=
  | VNone
  | VInt (n : Z)
  | VFloat (x : R)
  | VStr (s : string).

Inductive exn : Type := KeyError | TypeError | ValueError.

Inductive outcome (A : Type) : Type :=
  | Ok (a : A)
  | Raise (e : exn).
Arguments Ok {A} a.
Arguments Raise {A} e.

#[global] Instance outcome_ret : MRet outcome := fun A a => Ok a.
#[global] Instance outcome_bind : MBind outcome := fun A B f m =>
  match m with
  | Ok a => f a
  | Raise e => Raise e
  end.

Fixpoint mapM_outcome {A B : Type} (f : A -> outcome B) (l : list A)
  : outcome (list B) :=
  match l with
  | [] => Ok []
  | a :: l' => b ← f a; bs ← mapM_outcome f l'; Ok (b :: bs)
  end.

#[global] Instance Rlt_decision (x y : R) : Decision (x < y)%R := Rlt_dec x y.
#[global] Instance Rle_decision (x y : R) : Decision (x <= y)%R := Rle_dec x y.
#[global] Instance Req_decision : EqDecision R := Req_dec_T.

Abbreviation dict := (gmap string value).

Definition is_none (v : value) : bool :=
  match v with VNone => true | _ => false end.

(** [a == b] *)
Definition py_eqb (a b : value) : bool :=
  match a, b with
  | VNone, VNone => true
  | VInt m, VInt n => bool_decide (m = n)
  | VInt m, VFloat y => bool_decide (IZR m = y)
  | VFloat x, VInt n => bool_decide (x = IZR n)
  | VFloat x, VFloat y => bool_decide (x = y)
  | VStr s, VStr t => bool_decide (s = t)
  | _, _ => false
  end.

(** [a < b]: numbers with numbers, strings with strings. *)
Definition py_lt (a b : value) : outcome bool :=
  match a, b with
  | VInt m, VInt n => Ok (bool_decide (m < n)%Z)
  | VInt m, VFloat y => Ok (bool_decide (IZR m < y)%R)
  | VFloat x, VInt n => Ok (bool_decide (x < IZR n)%R)
  | VFloat x, VFloat y => Ok (bool_decide (x < y)%R)
  | VStr s, VStr t => Ok (String.ltb s t)
  | _, _ => Raise TypeError
  end.

(** [a > b] *)
Definition py_gt (a b : value) : outcome bool := py_lt b a.

(** [d[k]] *)
Definition getitem (d : dict) (k : string) : outcome value :=
  match d !! k with
  | Some v => Ok v
  | None => Raise KeyError
  end.

(** [d.get(k)] and [d.get(k, v)] *)
Definition dict_get (d : dict) (k : string) : value := default VNone (d !! k).
Definition dict_get_default (d : dict) (k : string) (v : value) : value :=
  default v (d !! k).

(** [d.update(e)] *)
Definition dict_update (d e : dict) : dict := e ∪ d.

(** A dict whose keys are scalars (insertion ordered, keys compared with
    [==]). *)
Definition pymap (V : Type) : Type := list (value * V).

Fixpoint pymap_lookup {V : Type} (m : pymap V) (k : value) : option V :=
  match m with
  | [] => None
  | (k', v) :: m' => if py_eqb k' k then Some v else pymap_lookup m' k
  end.

(** [m.get(k)] for a dict of scalars *)
Definition pymap_get (m : pymap value) (k : value) : value :=
  default VNone (pymap_lookup m k).

Fixpoint pymap_set {V : Type} (m : pymap V) (k : value) (v : V) : pymap V :=
  match m with
  | [] => [(k, v)]
  | (k', v') :: m' =>
      if py_eqb k' k then (k', v) :: m' else (k', v') :: pymap_set m' k v
  end.

(** ** Stable sorting

    [list.sort(key=...)] and [sorted(..., key=...)] are stable and compare
    keys with [<] only. *)

Section StableSort.
Context {A : Type} (ltb : A -> A -> bool).

Fixpoint insert_sorted (x : A) (l : list A) : list A :=
  match l with
  | [] => [x]
  | y :: l' => if ltb y x then y :: insert_sorted x l' else x :: y :: l'
  end.

Fixpoint stable_sort (l : list A) : list A :=
  match l with
  | [] => []
  | x :: l' => insert_sorted x (stable_sort l')
  end.

(** [not_after x y]: [y] is not less than [x]. *)
Definition not_after (x y : A) : Prop := ltb y x = false.
End StableSort.

Definition is_num (v : value) : bool :=
  match v with VInt _ | VFloat _ => true | _ => false end.
Definition is_str (v : value) : bool :=
  match v with VStr _ => true | _ => false end.

Definition py_ltb (a b : value) : bool :=
  match py_lt a b with Ok b => b | Raise _ => false end.

(** Sorting decorated items [(key, item)] by key: with two items or more,
    keys that cannot all be compared with each other raise [TypeError]. *)
Definition sort_by_key {A : Type} (l : list (value * A))
  : outcome (list (value * A)) :=
  if bool_decide (length l <= 1)%nat
     || forallb (fun p => is_num (fst p)) l
     || forallb (fun p => is_str (fst p)) l
  then Ok (stable_sort (fun p q => py_ltb (fst p) (fst q)) l)
  else Raise TypeError.

(** ** Geo distance calculator *)

Definition radians (x : R) : R := (x * (PI / 180))%R.

Definition atan2 (y x : R) : R :=
  if decide (0 < x)%R then atan (y / x)
  else if decide (x < 0)%R then
    if decide (y < 0)%R then (atan (y / x) - PI)%R else (atan (y / x) + PI)%R
  else if decide (0 < y)%R then (PI / 2)%R
  else if decide (y < 0)%R then (- (PI / 2))%R
  else 0%R.

Definition calculate_distance (lat1 lon1 lat2 lon2 : R) : R :=
  let R := 6371000%R in
  let lat1 := radians lat1 in
  let lon1 := radians lon1 in
  let lat2 := radians lat2 in
  let lon2 := radians lon2 in
  let dlat := (lat2 - lat1)%R in
  let dlon := (lon2 - lon1)%R in
  let a := ((sin (dlat / 2)) ^ 2
            + cos lat1 * cos lat2 * (sin (dlon / 2)) ^ 2)%R in
  let c := (2 * atan2 (sqrt a) (sqrt (1 - a)))%R in
  let distance := (R * c)%R in
  distance.

(** ** Upstream responses, the upstream services and the cache *)

Record route_response := { rr_route : option dict }.
Record directions_response := { dr_directions : option (list dict) }.
Record pattern_response := { pr_departures : option (list dict) }.
Record stops_response := { sr_stops : option (list dict) }.
Record stop_details_response := { sd_stop : option dict }.

(** An event: its scalar members and its ['venue'] object. *)
Record gig := { gig_fields : dict; gig_venue : dict }.

(** The result of [get_route_stops]: the dict with the members
    ['stops_by_direction'], ['directions'] and ['route_name']. *)
Record stops_data := {
  stops_by_direction : pymap (list dict);
  directions : list dict;
  route_name : value }.

Record world := {
  http_route : Z -> option route_response;
  http_directions : Z -> option directions_response;
  http_pattern : Z -> Z -> value -> option pattern_response;
  http_stops : Z -> Z -> value -> option stops_response;
  http_stop_details : value -> Z -> option stop_details_response;
  http_gigs : option (list gig) }.

Record cache := {
  directions_cache : gmap string directions_response;
  stop_details_cache : gmap string stop_details_response;
  stops_route_cache : gmap string stops_data }.

(** Computations that read and write the cache and may raise. *)
Definition M (A : Type) : Type := cache -> outcome A * cache.

#[global] Instance M_ret : MRet M := fun A a c => (Ok a, c).
#[global] Instance M_bind : MBind M := fun A B f m c =>
  match m c with
  | (Ok a, c') => f a c'
  | (Raise e, c') => (Raise e, c')
  end.
Definition lift {A : Type} (o : outcome A) : M A := fun c => (o, c).

Fixpoint mapM_M {A B : Type} (f : A -> M B) (l : list A) : M (list B) :=
  match l with
  | [] => mret []
  | a :: l' => b ← f a; bs ← mapM_M f l'; mret (b :: bs)
  end.

(** ** Conversions of the Python runtime *)

Section Runtime.

(** [float(s)] for a string [s] ([None]: [ValueError]) and [str(x)] for a
    float [x]. *)
Variable float_of_string : string -> option R.
Variable str_of_float : R -> string.

(** [float(v)] *)
Definition py_float (v : value) : outcome R :=
  match v with
  | VNone => Raise TypeError
  | VInt n => Ok (IZR n)
  | VFloat x => Ok x
  | VStr s =>
      match float_of_string s with
      | Some x => Ok x
      | None => Raise ValueError
      end
  end.

(** [str(v)], as an f-string formats [v] *)
Definition py_str (v : value) : string :=
  match v with
  | VNone => "None"
  | VInt n => pretty n
  | VFloat x => str_of_float x
  | VStr s => s
  end.

Definition directions_route_key (route_id : Z) : string :=
  "directions_route_" +:+ pretty route_id.
Definition stop_details_key (stop_id : value) (route_type : Z) : string :=
  "stop_details_" +:+ py_str stop_id +:+ "_" +:+ pretty route_type.
Definition stops_route_key (route_id route_type : Z) : string :=
  "stops_route_" +:+ pretty route_id +:+ "_" +:+ pretty route_type.

Definition get_route_directions (w : world) (route_id : Z)
  : M (option directions_response) := fun c =>
  let cache_key := directions_route_key route_id in
  match directions_cache c !! cache_key with
  | Some cached_data => (Ok (Some cached_data), c)
  | None =>
      match http_directions w route_id with
      | Some data =>
          (Ok (Some data),
           {| directions_cache := <[cache_key := data]> (directions_cache c);
              stop_details_cache := stop_details_cache c;
              stops_route_cache := stops_route_cache c |})
      | None => (Ok None, c)
      end
  end.

Definition get_stop_details (w : world) (stop_id : value) (route_type : Z)
  : M (option stop_details_response) := fun c =>
  let cache_key := stop_details_key stop_id route_type in
  match stop_details_cache c !! cache_key with
  | Some cached_data => (Ok (Some cached_data), c)
  | None =>
      match http_stop_details w stop_id route_type with
      | Some data =>
          (Ok (Some data),
           {| directions_cache := directions_cache c;
              stop_details_cache := <[cache_key := data]> (stop_details_cache c);
              stops_route_cache := stops_route_cache c |})
      | None => (Ok None, c)
      end
  end.

Definition save_stops_route (cache_key : string) (data : stops_data)
  : M unit := fun c =>
  (Ok tt,
   {| directions_cache := directions_cache c;
      stop_details_cache := stop_details_cache c;
      stops_route_cache := <[cache_key := data]> (stops_route_cache c) |}).

(** ** Stop aggregator: [get_route_stops] *)

Definition SENTINEL : value := VInt 999999.

(** Lines 250-257 and 262-264: the mapping of stop_id to sequence number,
    empty when the pattern request fails. *)
Definition sequence_map_of (departures : list dict) : pymap value :=
  fold_left
    (fun sequence_map departure =>
       let stop_id := dict_get departure "stop_id" in
       let sequence := dict_get departure "stop_sequence" in
       if negb (is_none stop_id) && negb (is_none sequence)
       then pymap_set sequence_map stop_id sequence
       else sequence_map)
    departures [].

Definition get_sequence_map (w : world) (route_id route_type : Z)
    (direction_id : value) : pymap value :=
  match http_pattern w route_id route_type direction_id with
  | Some pattern_data =>
      match pr_departures pattern_data with
      | Some departures => sequence_map_of departures
      | None => []
      end
  | None => []
  end.

(** Lines 290-291. *)
Definition enrich (stop : dict) (stop_details : option stop_details_response)
  : dict :=
  match stop_details with
  | Some details =>
      match sd_stop details with
      | Some d => dict_update stop d
      | None => stop
      end
  | None => stop
  end.

(** Lines 294-306. *)
Definition assign_sequence (sequence_map : pymap value) (stop : dict)
  : outcome dict :=
  stop_id ← getitem stop "stop_id";
  let pattern_sequence := pymap_get sequence_map stop_id in
  let orig_sequence := dict_get stop "stop_sequence" in
  if negb (is_none pattern_sequence) then
    Ok (<["absolute_sequence" := pattern_sequence]> stop)
  else
    positive ← (if negb (is_none orig_sequence)
                then py_gt orig_sequence (VInt 0) else Ok false);
    if (positive : bool) then Ok (<["absolute_sequence" := orig_sequence]> stop)
    else Ok (<["absolute_sequence" := SENTINEL]> stop).

(** The body of the loop of lines 284-313. *)
Definition process_stop (w : world) (route_type : Z) (direction : dict)
    (direction_id : value) (sequence_map : pymap value) (stop : dict)
  : M dict :=
  direction_name ← lift (getitem direction "direction_name");
  let stop := <["direction_name" := direction_name]>
                (<["direction_id" := direction_id]> stop) in
  stop_id ← lift (getitem stop "stop_id");
  stop_details ← get_stop_details w stop_id route_type;
  let stop := enrich stop stop_details in
  stop ← lift (assign_sequence sequence_map stop);
  _ ← lift (getitem stop "stop_name");
  mret stop.

(** [f"{v:<50}"]: [None] does not accept a format specification. *)
Definition format_left (v : value) : outcome unit :=
  if is_none v then Raise TypeError else Ok tt.

Definition is_valid (stop : dict) : outcome bool :=
  a ← getitem stop "absolute_sequence"; Ok (negb (py_eqb a SENTINEL)).

Fixpoint filterM_outcome {A : Type} (f : A -> outcome bool) (l : list A)
  : outcome (list A) :=
  match l with
  | [] => Ok []
  | a :: l' =>
      b ← f a; r ← filterM_outcome f l'; Ok (if (b : bool) then a :: r else r)
  end.

(** Lines 315-335: sort by absolute sequence, drop the unordered stops.
    The log messages of lines 327-333 read nothing that was not read
    before. *)
Definition sort_and_filter (stops : list dict) : outcome (list dict) :=
  keyed ← mapM_outcome
            (fun s => k ← getitem s "absolute_sequence"; Ok (k, s)) stops;
  sorted ← sort_by_key keyed;
  let stops := map snd sorted in
  _ ← mapM_outcome
        (fun s => n ← getitem s "stop_name"; format_left n) stops;
  filterM_outcome is_valid stops.

(** The body of the loop of lines 233-344; [None] is the [return None] of
    line 344. *)
Definition process_direction (w : world) (route_id route_type : Z)
    (stops_by_dir : pymap (list dict)) (direction : dict)
  : M (option (pymap (list dict))) :=
  direction_id ← lift (getitem direction "direction_id");
  _ ← lift (getitem direction "direction_name");
  let sequence_map := get_sequence_map w route_id route_type direction_id in
  match http_stops w route_id route_type direction_id with
  | Some stops_response =>
      match sr_stops stops_response with
      | Some stops =>
          stops ← mapM_M
                     (process_stop w route_type direction direction_id
                        sequence_map) stops;
          valid_stops ← lift (sort_and_filter stops);
          mret (Some (pymap_set stops_by_dir direction_id valid_stops))
      | None => mret (Some stops_by_dir)
      end
  | None => mret None
  end.

Fixpoint directions_loop (w : world) (route_id route_type : Z)
    (dirs : list dict) (stops_by_dir : pymap (list dict))
  : M (option (pymap (list dict))) :=
  match dirs with
  | [] => mret (Some stops_by_dir)
  | direction :: dirs' =>
      r ← process_direction w route_id route_type stops_by_dir direction;
      match r with
      | Some stops_by_dir' =>
          directions_loop w route_id route_type dirs' stops_by_dir'
      | None => mret None
      end
  end.

(** Lines 206-214. *)
Definition get_route_name (w : world) (route_id : Z) : outcome value :=
  match http_route w route_id with
  | Some route_data =>
      match rr_route route_data with
      | Some route => getitem route "route_name"
      | None => Ok (VStr (pretty route_id))
      end
  | None => Ok (VStr (pretty route_id))
  end.

Definition get_route_stops (w : world) (route_id route_type : Z)
  : M (option stops_data) := fun c =>
  let cache_key := stops_route_key route_id route_type in
  match stops_route_cache c !! cache_key with
  | Some cached_data => (Ok (Some cached_data), c)
  | None =>
      (route_name ← lift (get_route_name w route_id);
       directions_data ← get_route_directions w route_id;
       match directions_data ≫= dr_directions with
       | None => mret None
       | Some dirs =>
           _ ← lift (mapM_outcome
                        (fun direction =>
                           _ ← getitem direction "direction_name";
                           getitem direction "direction_id") dirs);
           r ← directions_loop w route_id route_type dirs [];
           match r with
           | None => mret None
           | Some stops_by_dir =>
               let data := {| stops_by_direction := stops_by_dir;
                              directions := dirs;
                              route_name := route_name |} in
               _ ← save_stops_route cache_key data;
               mret (Some data)
           end
       end) c
  end.

(** ** Proximity matcher: [find_nearby_gigs_for_stops] *)

(** A copy of an event with its ['distance_meters'] member
    ([gig_copy], lines 458-459). *)
Record nearby_gig := { ng_gig : gig; distance_meters : R }.

(** A stop with its ['nearby_gigs'] member (lines 464-465). *)
Record stop_with_gigs := { swg_stop : dict; nearby_gigs : list nearby_gig }.

Fixpoint foldM_outcome {A B : Type} (f : B -> A -> outcome B) (l : list A)
    (b : B) : outcome B :=
  match l with
  | [] => Ok b
  | a :: l' => b' ← f b a; foldM_outcome f l' b'
  end.

(** The body of the loop over the events (lines 448-460): the venue needs
    both coordinates, and the event is kept within 500 meters. *)
Definition gig_step (stop_lat stop_lon : R) (nearby : list nearby_gig)
    (g : gig) : outcome (list nearby_gig) :=
  let venue := gig_venue g in
  match venue !! "latitude", venue !! "longitude" with
  | Some latitude, Some longitude =>
      lat ← py_float latitude;
      lon ← py_float longitude;
      let distance := calculate_distance stop_lat stop_lon lat lon in
      if bool_decide (distance <= 500)%R
      then Ok (nearby ++ [{| ng_gig := g; distance_meters := distance |}])
      else Ok nearby
  | _, _ => Ok nearby
  end.

(** Lines 444-460 (and again 539-555 and 565-581): the events retained for
    one stop, in the order of the events. *)
Definition nearby_gigs_of (stop : dict) (gigs : list gig)
  : outcome (list nearby_gig) :=
  stop_lat ← getitem stop "stop_latitude" ≫= py_float;
  stop_lon ← getitem stop "stop_longitude" ≫= py_float;
  foldM_outcome (gig_step stop_lat stop_lon) gigs [].

(** [sorted(nearby_gigs, key=lambda x: x['distance_meters'])] *)
Definition sort_by_distance (l : list nearby_gig) : list nearby_gig :=
  stable_sort
    (fun a b => bool_decide (distance_meters a < distance_meters b)%R) l.

Definition is_empty {A : Type} (l : list A) : bool :=
  match l with [] => true | _ => false end.

(** Lines 462-465 (and 557-560, 583-586). *)
Definition attach (stop : dict) (nearby : list nearby_gig)
    (acc : list stop_with_gigs * bool) : list stop_with_gigs * bool :=
  if is_empty nearby then acc
  else (fst acc ++ [{| swg_stop := stop;
                       nearby_gigs := sort_by_distance nearby |}], true).

Fixpoint find_nearby_loop (stops : list dict) (gigs : list gig)
    (acc : list stop_with_gigs * bool)
  : outcome (list stop_with_gigs * bool) :=
  match stops with
  | [] => Ok acc
  | stop :: stops' =>
      nearby ← nearby_gigs_of stop gigs;
      find_nearby_loop stops' gigs (attach stop nearby acc)
  end.

Definition find_nearby_gigs_for_stops (stops : list dict) (gigs : list gig)
  : outcome (list stop_with_gigs * bool) :=
  find_nearby_loop stops gigs ([], false).

(** ** The directional variant: [show_gigs_ahead] *)

Inductive error_message : Type :=
  | CouldNotFindStops
  | CouldNotFetchGigs
  | CouldNotFindStop (stop_id : Z).

(** What is handed to the template. *)
Inductive view : Type :=
  | ErrorView (error : error_message)
  | GigsAheadView (current_stop : dict)
      (stops_with_gigs : list stop_with_gigs) (any_gigs_found : bool).

(** Lines 520-526. *)
Fixpoint find_current_stop (stops : list dict) (stop_id : Z)
  : outcome (option dict) :=
  match stops with
  | [] => Ok None
  | stop :: stops' =>
      sid ← getitem stop "stop_id";
      if py_eqb sid (VInt stop_id) then Ok (Some stop)
      else find_current_stop stops' stop_id
  end.

(** Lines 562-586. *)
Fixpoint ahead_loop (current_sequence : value) (stops : list dict)
    (gigs : list gig) (acc : list stop_with_gigs * bool)
  : outcome (list stop_with_gigs * bool) :=
  match stops with
  | [] => Ok acc
  | stop :: stops' =>
      ahead ← py_gt (dict_get_default stop "stop_sequence" (VInt 0))
                current_sequence;
      if (ahead : bool) then
        nearby ← nearby_gigs_of stop gigs;
        ahead_loop current_sequence stops' gigs (attach stop nearby acc)
      else ahead_loop current_sequence stops' gigs acc
  end.

(** Lines 519-593, once the stops of the direction and the events are
    known. *)
Definition gigs_ahead (stops_in_direction : list dict) (gigs : list gig)
    (stop_id : Z) : outcome view :=
  current ← find_current_stop stops_in_direction stop_id;
  match current with
  | None => Ok (ErrorView (CouldNotFindStop stop_id))
  | Some current_stop =>
      let current_sequence := dict_get current_stop "stop_sequence" in
      if is_none current_sequence
      then Ok (ErrorView (CouldNotFindStop stop_id))
      else
        nearby ← nearby_gigs_of current_stop gigs;
        r ← ahead_loop current_sequence stops_in_direction gigs
              (attach current_stop nearby ([], false));
        Ok (GigsAheadView current_stop (fst r) (snd r))
  end.

Definition show_gigs_ahead (w : world)
    (route_id route_type stop_id direction_id : Z) : M view :=
  stops_data ← get_route_stops w route_id route_type;
  match stops_data with
  | None => mret (ErrorView CouldNotFindStops)
  | Some stops_data =>
      match http_gigs w with
      | None => mret (ErrorView CouldNotFetchGigs)
      | Some gigs =>
          let stops_in_direction :=
            default [] (pymap_lookup (stops_by_direction stops_data)
                          (VInt direction_id)) in
          lift (gigs_ahead stops_in_direction gigs stop_id)
      end
  end.

(** ** Vocabulary of the statements *)

(** The member [k] of the ['stop'] object of a details response. *)
Definition details_member (details : option stop_details_response)
    (k : string) : option value :=
  match details with
  | Some r => match sd_stop r with Some d => d !! k | None => None end
  | None => None
  end.

Definition num_val (v : value) : R :=
  match v with
  | VInt n => IZR n
  | VFloat x => x
  | _ => 0%R
  end.

(** [key_le a b]: the comparison [b < a] is defined and false. *)
Definition key_le (a b : value) : Prop := py_lt b a = Ok false.

Definition preserves_stops_route {A : Type} (m : M A) : Prop :=
  forall c r c', m c = (r, c') -> stops_route_cache c' = stops_route_cache c.

(** [stop_le s1 s2]: the absolute sequence of [s2] is not less than the
    one of [s1]. *)
Definition stop_le (s1 s2 : dict) : Prop :=
  key_le (dict_get s1 "absolute_sequence") (dict_get s2 "absolute_sequence").

(** The stop has an absolute sequence, and it is not the sentinel. *)
Definition has_order (s : dict) : Prop :=
  exists a, s !! "absolute_sequence" = Some a /\ py_eqb a SENTINEL = false.

Definition ordered_stops (l : list dict) : Prop :=
  StronglySorted stop_le l /\ Forall has_order l.

Definition ordered_result (d : stops_data) : Prop :=
  forall direction_id stops,
    (direction_id, stops) ∈ stops_by_direction d -> ordered_stops stops.

Definition all_ordered (m : pymap (list dict)) : Prop :=
  forall direction_id stops, (direction_id, stops) ∈ m -> ordered_stops stops.

(** The stop-list request of the direction succeeded. *)
Definition stops_fetched (w : world) (route_id route_type : Z)
    (direction : dict) : Prop :=
  exists direction_id,
    direction !! "direction_id" = Some direction_id
    /\ is_Some (http_stops w route_id route_type direction_id).

(** The world in which a failed pattern request is answered by a response
    without departures. *)
Definition pattern_failures_as_empty (w : world) : world :=
  {| http_route := http_route w;
     http_directions := http_directions w;
     http_pattern := fun route_id route_type direction_id =>
       Some (default {| pr_departures := None |}
               (http_pattern w route_id route_type direction_id));
     http_stops := http_stops w;
     http_stop_details := http_stop_details w;
     http_gigs := http_gigs w |}.

(** [attached_within stop n]: the venue of [n] has both coordinates, and
    the distance annotated on [n] is the distance computed from the stop to
    the venue, at most 500 meters. *)
Definition attached_within (stop : dict) (n : nearby_gig) : Prop :=
  exists stop_lat stop_lon latitude longitude lat lon,
    getitem stop "stop_latitude" ≫= py_float = Ok stop_lat
    /\ getitem stop "stop_longitude" ≫= py_float = Ok stop_lon
    /\ gig_venue (ng_gig n) !! "latitude" = Some latitude
    /\ gig_venue (ng_gig n) !! "longitude" = Some longitude
    /\ py_float latitude = Ok lat
    /\ py_float longitude = Ok lon
    /\ distance_meters n = calculate_distance stop_lat stop_lon lat lon
    /\ (distance_meters n <= 500)%R.

(** The events retained for a stop (none when the computation raises). *)
Definition retained (stop : dict) (gigs : list gig) : list nearby_gig :=
  match nearby_gigs_of stop gigs with
  | Ok l => l
  | Raise _ => []
  end.

Definition has_nearby (gigs : list gig) (stop : dict) : bool :=
  negb (is_empty (retained stop gigs)).

(** The stop with its sorted nearby events. *)
Definition with_nearby (gigs : list gig) (stop : dict) : stop_with_gigs :=
  {| swg_stop := stop;
     nearby_gigs := sort_by_distance (retained stop gigs) |}.

Definition by_distance (a b : nearby_gig) : Prop :=
  (distance_meters a <= distance_meters b)%R.

(** The raw sequence of a stop, 0 when the stop has no such member. *)
Definition raw_sequence_or_0 (stop : dict) : value :=
  match stop !! "stop_sequence" with
  | Some v => v
  | None => VInt 0
  end.

(** The stops of the direction whose raw sequence exceeds [target]. *)
Definition stops_ahead (target : value) (stops : list dict) : list dict :=
  List.filter (fun s => py_ltb target (raw_sequence_or_0 s)) stops.

(** The candidate stops: the target stop first, then the stops ahead. *)
Definition candidate_stops (current_stop : dict) (stops : list dict)
  : list dict :=
  current_stop :: stops_ahead (dict_get current_stop "stop_sequence") stops.

(** *** Upstream data that follow the schema

    Sequence numbers are integers or null, every direction has its
    identifier and its name, every stop has its identifier and a name, and
    a route object has its name. *)

Definition int_or_none (v : value) : Prop :=
  v = VNone \/ exists n, v = VInt n.

Definition named (s : dict) : Prop :=
  exists n, s !! "stop_name" = Some n /\ n <> VNone.

Definition well_formed_direction (d : dict) : Prop :=
  is_Some (d !! "direction_id") /\ is_Some (d !! "direction_name").

Definition well_formed_departure (d : dict) : Prop :=
  int_or_none (dict_get d "stop_sequence").

Definition well_formed_stop (s : dict) : Prop :=
  is_Some (s !! "stop_id") /\ named s
  /\ int_or_none (dict_get s "stop_sequence").

Definition well_formed_details (r : stop_details_response) : Prop :=
  forall d, sd_stop r = Some d ->
    (forall n, d !! "stop_name" = Some n -> n <> VNone)
    /\ (forall v, d !! "stop_sequence" = Some v -> int_or_none v).

Definition well_formed_directions (r : directions_response) : Prop :=
  forall dirs, dr_directions r = Some dirs ->
    Forall well_formed_direction dirs.

Definition well_formed_world (w : world) : Prop :=
  (forall route_id r route,
      http_route w route_id = Some r -> rr_route r = Some route ->
      is_Some (route !! "route_name"))
  /\ (forall route_id r,
         http_directions w route_id = Some r -> well_formed_directions r)
  /\ (forall route_id route_type direction_id r departures,
         http_pattern w route_id route_type direction_id = Some r ->
         pr_departures r = Some departures ->
         Forall well_formed_departure departures)
  /\ (forall route_id route_type direction_id r stops,
         http_stops w route_id route_type direction_id = Some r ->
         sr_stops r = Some stops -> Forall well_formed_stop stops)
  /\ (forall stop_id route_type r,
         http_stop_details w stop_id route_type = Some r ->
         well_formed_details r).

Definition well_formed_cache (c : cache) : Prop :=
  (forall key r, directions_cache c !! key = Some r ->
                 well_formed_directions r)
  /\ (forall key r, stop_details_cache c !! key = Some r ->
                    well_formed_details r).

(** A stop after processing: it has a name and an integer absolute
    sequence. *)
Definition processed (s : dict) : Prop :=
  named s /\ exists n, s !! "absolute_sequence" = Some (VInt n).

(** The coordinates of the stop are numbers, and so are those of the
    venue when it has both. *)
Definition has_coordinates (s : dict) : Prop :=
  exists latitude longitude,
    s !! "stop_latitude" = Some latitude
    /\ s !! "stop_longitude" = Some longitude
    /\ is_num latitude = true /\ is_num longitude = true.

Definition numeric_venue (g : gig) : Prop :=
  forall latitude longitude,
    gig_venue g !! "latitude" = Some latitude ->
    gig_venue g !! "longitude" = Some longitude ->
    is_num latitude = true /\ is_num longitude = true.

(** ** A sample route and sample events *)

Definition sample_direction (id : Z) (name : string) : dict :=
  {[ "direction_id" := VInt id; "direction_name" := VStr name ]}.

Definition sample_stop (id : Z) (name : string) (sequence : Z) : dict :=
  {[ "stop_id" := VInt id; "stop_name" := VStr name;
     "stop_sequence" := VInt sequence ]}.

(** Route 7: direction 1 has a pattern for the stops 101 and 102 and
    details for the stop 101; direction 2 has no pattern, and its stop
    list is available when [down_ok]. *)
Definition sample_world (down_ok : bool) : world :=
  {| http_route := fun route_id =>
       Some {| rr_route := Some {[ "route_name" := VStr "Seven" ]} |};
     http_directions := fun route_id =>
       Some {| dr_directions :=
                 Some [sample_direction 1 "Up"; sample_direction 2 "Down"] |};
     http_pattern := fun route_id route_type direction_id =>
       match direction_id with
       | VInt 1 =>
           Some {| pr_departures :=
                     Some [ {[ "stop_id" := VInt 101;
                               "stop_sequence" := VInt 20 ]};
                            {[ "stop_id" := VInt 102;
                               "stop_sequence" := VInt 10 ]} ] |}
       | _ => None
       end;
     http_stops := fun route_id route_type direction_id =>
       match direction_id with
       | VInt 1 =>
           Some {| sr_stops :=
                     Some [ sample_stop 101 "A" 1; sample_stop 102 "B" 2;
                            sample_stop 103 "C" 0; sample_stop 104 "D" 15 ] |}
       | VInt 2 =>
           if down_ok
           then Some {| sr_stops :=
                          Some [ sample_stop 201 "E" 2;
                                 sample_stop 202 "F" 1 ] |}
           else None
       | _ => None
       end;
     http_stop_details := fun stop_id route_type =>
       match stop_id with
       | VInt 101 =>
           Some {| sd_stop := Some {[ "stop_id" := VInt 101;
                                      "stop_suburb" := VStr "North" ]} |}
       | _ => None
       end;
     http_gigs := Some [] |}.

Definition empty_cache : cache :=
  {| directions_cache := ∅; stop_details_cache := ∅;
     stops_route_cache := ∅ |}.

Definition sample_sequence_map : pymap value :=
  [(VInt 101, VInt 20); (VInt 102, VInt 10)].

(** A stop and two venues on the equator, and a venue without
    coordinates. *)
Definition located_stop (id sequence : Z) : dict :=
  {[ "stop_id" := VInt id; "stop_sequence" := VInt sequence;
     "stop_latitude" := VInt 0; "stop_longitude" := VInt 0 ]}.

Definition gig_here : gig :=
  {| gig_fields := {[ "name" := VStr "Band" ]};
     gig_venue := {[ "latitude" := VInt 0; "longitude" := VInt 0 ]} |}.

Definition gig_nowhere : gig :=
  {| gig_fields := {[ "name" := VStr "Choir" ]};
     gig_venue := {[ "name" := VStr "Hall" ]} |}.

(** The stop 101 of direction 1 after processing, and the cache then. *)
Definition sample_processed_stop : dict :=
  {[ "stop_id" := VInt 101; "stop_name" := VStr "A";
     "stop_sequence" := VInt 1; "direction_id" := VInt 1;
     "direction_name" := VStr "Up"; "stop_suburb" := VStr "North";
     "absolute_sequence" := VInt 20 ]}.

Definition sample_cache_after_stop : cache :=
  {| directions_cache := ∅;
     stop_details_cache :=
       {[ "stop_details_101_1" :=
            {| sd_stop := Some {[ "stop_id" := VInt 101;
                                  "stop_suburb" := VStr "North" ]} |} ]};
     stops_route_cache := ∅ |}.

(** The identifier and the absolute sequence of the stops of a result,
    per direction. *)
Definition summary (r : outcome (option stops_data))
  : list (value * list (option value * option value)) :=
  match r with
  | Ok (Some d) =>
      map (fun p => (fst p,
                     map (fun s : dict =>
                            (s !! "stop_id", s !! "absolute_sequence"))
                       (snd p)))
        (stops_by_direction d)
  | _ => []
  end.

(** The stops of a direction and the events of the day, for the
    matcher. *)
Definition sample_located_stops : list dict :=
  [located_stop 1 5; located_stop 2 7; located_stop 3 2].
Definition sample_gigs : list gig := [gig_nowhere; gig_here].

Definition nearby_here : nearby_gig :=
  {| ng_gig := gig_here; distance_meters := 0 |}.

(** Stand-ins for the conversions of the runtime, for inputs without
    floats and without numbers written as strings. *)
Definition sample_float_of_string : string -> option R := fun _ => None.
Definition sample_str_of_float : R -> string := fun _ => "float".

(** Details that carry another identifier than the stop they are merged
    into. *)
Definition foreign_details : stop_details_response :=
  {| sd_stop := Some {[ "stop_id" := VInt 2; "stop_suburb" := VStr "South" ]} |}.

(** ** The stops page and the route-wide matcher: [show_stops],
    [show_nearby_gigs] *)

(** What [show_stops] hands to the template: the error of line 382, or
    the members of the result (lines 374-379). *)
Inductive stops_view : Type :=
  | StopsErrorView (route_id route_type : Z)
  | StopsView (stops_by_dir : pymap (list dict)) (dirs : list dict)
      (name : value).

(** Lines 369-383.  The result always has its three members, so that the
    tests of line 373 and the default of line 379 only see whether there
    is a result. *)
Definition show_stops (w : world) (route_id route_type : Z) : M stops_view :=
  stops_data ← get_route_stops w route_id route_type;
  match stops_data with
  | Some stops_data =>
      mret (StopsView (stops_by_direction stops_data) (directions stops_data)
              (route_name stops_data))
  | None => mret (StopsErrorView route_id route_type)
  end.

(** What [show_nearby_gigs] hands to the template. *)
Inductive nearby_view : Type :=
  | NearbyErrorView (error : error_message)
  | NearbyGigsView (stops_with_gigs : list stop_with_gigs)
      (any_gigs_found : bool).

(** Lines 486-488: the stop lists of the directions, one after the other
    in the order of the dict. *)
Definition all_stops_of (stops_by_dir : pymap (list dict)) : list dict :=
  fold_left (fun all_stops direction_stops => all_stops ++ direction_stops)
    (map snd stops_by_dir) [].

(** Lines 469-496. *)
Definition show_nearby_gigs (w : world) (route_id route_type : Z)
  : M nearby_view :=
  stops_data ← get_route_stops w route_id route_type;
  match stops_data with
  | None => mret (NearbyErrorView CouldNotFindStops)
  | Some stops_data =>
      match http_gigs w with
      | None => mret (NearbyErrorView CouldNotFetchGigs)
      | Some gigs =>
          let all_stops := all_stops_of (stops_by_direction stops_data) in
          r ← lift (find_nearby_gigs_for_stops all_stops gigs);
          mret (NearbyGigsView (fst r) (snd r))
      end
  end.

(** ** The log buffer: [store_log], [LogHandler], [get_logs]

    The buffer is a [deque(maxlen=1000)], oldest entry first.  The lock
    that guards it is not modelled: the calls are taken one after the
    other. *)

(** An entry: the dict with the members ['timestamp'] and ['message']. *)
Record log_entry := { le_timestamp : string; le_message : string }.

Definition LOG_MAXLEN : nat := 1000.

(** [d.append(x)] on a deque bounded by [maxlen]: the element is added at
    the right, and when the deque is longer than [maxlen] then, the
    leftmost element is discarded. *)
Definition deque_append {A : Type} (maxlen : nat) (d : list A) (x : A)
  : list A :=
  let d := d ++ [x] in
  if bool_decide (maxlen < length d)%nat then drop 1 d else d.

(** Lines 30-35; [now] is [datetime.now().isoformat()]. *)
Definition store_log (now message : string) (log_buffer : list log_entry)
  : list log_entry :=
  deque_append LOG_MAXLEN log_buffer
    {| le_timestamp := now; le_message := message |}.

(** The methods of [LogHandler] (lines 38-49), without what they print. *)
Inductive log_level : Type := info | error | warning.

Definition LogHandler (method : log_level) (now msg : string)
    (log_buffer : list log_entry) : list log_entry :=
  match method with
  | info => store_log now msg log_buffer
  | error => store_log now ("ERROR: " +:+ msg) log_buffer
  | warning => store_log now ("WARNING: " +:+ msg) log_buffer
  end.

(** Lines 595-598: the entries, oldest first. *)
Definition get_logs (log_buffer : list log_entry) : list log_entry :=
  log_buffer.

(** A call of the logger: the method, the time and the message. *)
Definition log_call : Type := log_level * string * string.

Definition run_log_calls (calls : list log_call)
    (log_buffer : list log_entry) : list log_entry :=
  fold_left (fun b '(method, now, msg) => LogHandler method now msg b)
    calls log_buffer.

(** The entry that a call stores. *)
Definition entry_of (call : log_call) : log_entry :=
  let '(method, now, msg) := call in
  {| le_timestamp := now;
     le_message := match method with
                   | info => msg
                   | error => "ERROR: " +:+ msg
                   | warning => "WARNING: " +:+ msg
                   end |}.

(** ** Request signing: [generate_signature] and the request URLs *)

(** The credentials of the environment (both are set) and the HMAC of the
    runtime: [hmac_sha1_hexdigest key msg] is
    [hmac.new(key, msg, hashlib.sha1).hexdigest()], and [upper] is
    [str.upper]. *)
Record signer := {
  DEV_ID : string;
  API_KEY : string;
  hmac_sha1_hexdigest : string -> string -> string;
  upper : string -> string }.

(** [sub in s], for strings *)
Fixpoint str_contains (sub s : string) : bool :=
  if String.prefix sub s then true
  else match s with
       | EmptyString => false
       | String _ s' => str_contains sub s'
       end.

(** Lines 82-86. *)
Definition generate_signature (e : signer) (request : string) : string :=
  let key := API_KEY e in
  let raw := request +:+ (if str_contains "?" request then "&" else "?")
             +:+ "devid=" +:+ DEV_ID e in
  let signature := upper e (hmac_sha1_hexdigest e key raw) in
  signature.

Definition base_url : string := "https://timetableapi.ptv.vic.gov.au".

(** The URL requested by [get_route_types] (lines 94-98). *)
Definition route_types_url (e : signer) : string :=
  let request_path := "/v3/route_types" in
  let signature := generate_signature e request_path in
  base_url +:+ request_path +:+ "?devid=" +:+ DEV_ID e
  +:+ "&signature=" +:+ signature.

(** The URL requested by [get_routes_by_type] (lines 118-124). *)
Definition routes_by_type_url (e : signer) (route_type : value) : string :=
  let request_path := "/v3/routes" in
  let request_path :=
    if negb (is_none route_type)
    then request_path +:+ "?route_types=" +:+ py_str route_type
    else request_path in
  let signature := generate_signature e request_path in
  base_url +:+ request_path +:+ "&devid=" +:+ DEV_ID e
  +:+ "&signature=" +:+ signature.

(** The URL requested by [get_route_directions] (lines 144-148). *)
Definition route_directions_url (e : signer) (route_id : Z) : string :=
  let request_path := "/v3/directions/route/" +:+ pretty route_id in
  let signature := generate_signature e request_path in
  base_url +:+ request_path +:+ "?devid=" +:+ DEV_ID e
  +:+ "&signature=" +:+ signature.

(** The URL requested by [get_stop_details] (lines 168-172). *)
Definition stop_details_url (e : signer) (stop_id : value) (route_type : Z)
  : string :=
  let request_path := "/v3/stops/" +:+ py_str stop_id +:+ "/route_type/"
                      +:+ pretty route_type in
  let signature := generate_signature e request_path in
  base_url +:+ request_path +:+ "?devid=" +:+ DEV_ID e
  +:+ "&signature=" +:+ signature.

(** The URLs requested by [get_route_stops]: for the name of the route
    (lines 202-204), for the pattern (lines 237-239) and for the stops
    (lines 267-269) of a direction. *)
Definition route_url (e : signer) (route_id : Z) : string :=
  let request_path := "/v3/routes/" +:+ pretty route_id in
  let signature := generate_signature e request_path in
  base_url +:+ request_path +:+ "?devid=" +:+ DEV_ID e
  +:+ "&signature=" +:+ signature.

Definition pattern_url (e : signer) (route_id route_type : Z)
    (direction_id : value) : string :=
  let pattern_path := "/v3/pattern/run/" +:+ pretty route_id
                      +:+ "/route_type/" +:+ pretty route_type
                      +:+ "?direction_id=" +:+ py_str direction_id in
  let signature := generate_signature e pattern_path in
  base_url +:+ pattern_path +:+ "&devid=" +:+ DEV_ID e
  +:+ "&signature=" +:+ signature.

Definition stops_url (e : signer) (route_id route_type : Z)
    (direction_id : value) : string :=
  let stops_path := "/v3/stops/route/" +:+ pretty route_id
                    +:+ "/route_type/" +:+ pretty route_type
                    +:+ "?direction_id=" +:+ py_str direction_id in
  let signature := generate_signature e stops_path in
  base_url +:+ stops_path +:+ "&devid=" +:+ DEV_ID e
  +:+ "&signature=" +:+ signature.

(** The URL that carries the signature of the request [request], the path
    and the query up to the developer id: what the timetable service
    accepts. *)
Definition signed_request (e : signer) (request : string) : string :=
  base_url +:+ request +:+ "&signature="
  +:+ upper e (hmac_sha1_hexdigest e (API_KEY e) request).

(** ** The cache directory with its timestamps: [get_cached_data],
    [save_to_cache]

    Here the files carry their timestamp and expire.  Times are counted
    in microseconds, the resolution of [datetime]. *)

(** A file of the cache directory: the pickled dict with the members
    ['timestamp'] and ['data'], or content that cannot be read as such. *)
Inductive cache_file (D : Type) : Type :=
  | Pickled (timestamp : Z) (data : D)
  | Unreadable.
Arguments Pickled {D} timestamp data.
Arguments Unreadable {D}.

(** The files of the cache directory, by name. *)
Abbreviation cache_dir D := (gmap string (cache_file D)).

(** Lines 53-55: the name of the file in the cache directory. *)
Definition get_cache_path (key : string) : string := key +:+ ".pickle".

(** [timedelta(hours=h)] *)
Definition timedelta_hours (h : Z) : Z := (h * 3600000000)%Z.

(** Lines 57-68; [now] is the [datetime.now()] of line 64. *)
Definition get_cached_data {D : Type} (key : string) (expiry_hours : Z)
    (now : Z) (dir : cache_dir D) : option D :=
  let cache_path := get_cache_path key in
  match dir !! cache_path with
  | Some (Pickled timestamp data) =>
      if bool_decide (now - timestamp < timedelta_hours expiry_hours)%Z
      then Some data
      else None
  | Some Unreadable => None
  | None => None
  end.

(** How the writing of a file ends: the file is written; or it cannot be
    opened, and stays as it was; or it is opened, which empties it, and
    the writing fails. *)
Inductive write_result : Type := Written | NotOpened | Truncated.

(** Lines 70-80; [now] is the [datetime.now()] of line 76. *)
Definition save_to_cache {D : Type} (key : string) (data : D) (now : Z)
    (io : write_result) (dir : cache_dir D) : cache_dir D :=
  let cache_path := get_cache_path key in
  match io with
  | Written => <[cache_path := Pickled now data]> dir
  | NotOpened => dir
  | Truncated => <[cache_path := Unreadable]> dir
  end.

(** ** The home page: [get_route_types], [get_routes_by_type], [home] *)

(** The responses: the member that the code reads, and whether the object
    has other members (an object without members counts as false). *)
Record route_types_response := {
  rt_route_types : option (list dict);
  rt_other_members : bool }.
Record routes_response := {
  rs_routes : option (list dict);
  rs_other_members : bool }.

(** [bool(data)] for a response. *)
Definition route_types_truthy (data : route_types_response) : bool :=
  match rt_route_types data with
  | Some _ => true
  | None => rt_other_members data
  end.
Definition routes_truthy (data : routes_response) : bool :=
  match rs_routes data with
  | Some _ => true
  | None => rs_other_members data
  end.

(** The surroundings of the home page: the credentials, the answers of
    the timetable service by URL ([None]: a [RequestException]), and, for
    every access of the cache directory in turn, the time on the clock and
    how a writing ends. *)
Record surroundings := {
  credentials : signer;
  requests_get_route_types : string -> option route_types_response;
  requests_get_routes : string -> option routes_response;
  clock : nat -> Z;
  writing : nat -> write_result }.

(** The two kinds of files of the cache directory that the home page
    uses, and the number of accesses so far. *)
Record shelf := {
  route_types_dir : cache_dir route_types_response;
  routes_dir : cache_dir routes_response;
  accesses : nat }.

(** Lines 88-109. *)
Definition get_route_types (env : surroundings) (s : shelf)
  : option route_types_response * shelf :=
  let cached_data :=
    get_cached_data "route_types" 24 (clock env (accesses s))
      (route_types_dir s) in
  let s := {| route_types_dir := route_types_dir s;
              routes_dir := routes_dir s;
              accesses := S (accesses s) |} in
  let fetch :=
    let url := route_types_url (credentials env) in
    match requests_get_route_types env url with
    | Some data =>
        (Some data,
         {| route_types_dir :=
              save_to_cache "route_types" data (clock env (accesses s))
                (writing env (accesses s)) (route_types_dir s);
            routes_dir := routes_dir s;
            accesses := S (accesses s) |})
    | None => (None, s)
    end in
  match cached_data with
  | Some cached_data =>
      if route_types_truthy cached_data then (Some cached_data, s) else fetch
  | None => fetch
  end.

Definition routes_type_key (route_type : value) : string :=
  "routes_type_" +:+ py_str route_type.

(** Lines 111-135. *)
Definition get_routes_by_type (env : surroundings) (route_type : value)
    (s : shelf) : option routes_response * shelf :=
  let cache_key := routes_type_key route_type in
  let cached_data :=
    get_cached_data cache_key 24 (clock env (accesses s)) (routes_dir s) in
  let s := {| route_types_dir := route_types_dir s;
              routes_dir := routes_dir s;
              accesses := S (accesses s) |} in
  let fetch :=
    let url := routes_by_type_url (credentials env) route_type in
    match requests_get_routes env url with
    | Some data =>
        (Some data,
         {| route_types_dir := route_types_dir s;
            routes_dir :=
              save_to_cache cache_key data (clock env (accesses s))
                (writing env (accesses s)) (routes_dir s);
            accesses := S (accesses s) |})
    | None => (None, s)
    end in
  match cached_data with
  | Some cached_data =>
      if routes_truthy cached_data then (Some cached_data, s) else fetch
  | None => fetch
  end.

(** Lines 362-365: the ['routes'] member that a route type is given. *)
Definition routes_of (routes_data : option routes_response) : list dict :=
  match routes_data with
  | Some routes_data =>
      if routes_truthy routes_data
      then match rs_routes routes_data with
           | Some routes => routes
           | None => []
           end
      else []
  | None => []
  end.

(** Lines 360-365: a route type of the page is the route type with its
    ['routes'] member. *)
Fixpoint home_loop (env : surroundings) (route_types : list dict) (s : shelf)
  : outcome (list (dict * list dict)) * shelf :=
  match route_types with
  | [] => (Ok [], s)
  | route_type :: route_types' =>
      match getitem route_type "route_type" with
      | Raise e => (Raise e, s)
      | Ok type_id =>
          let (routes_data, s) := get_routes_by_type env type_id s in
          let routes := routes_of routes_data in
          match home_loop env route_types' s with
          | (Ok shown, s) => (Ok ((route_type, routes) :: shown), s)
          | (Raise e, s) => (Raise e, s)
          end
      end
  end.

(** Lines 350-367: the route types handed to the template. *)
Definition home (env : surroundings) (s : shelf)
  : outcome (list (dict * list dict)) * shelf :=
  let (route_types_data, s) := get_route_types env s in
  match route_types_data with
  | Some route_types_data =>
      if route_types_truthy route_types_data
      then match rt_route_types route_types_data with
           | Some route_types => home_loop env route_types s
           | None => (Ok [], s)
           end
      else (Ok [], s)
  | None => (Ok [], s)
  end.

(** ** Further vocabulary *)

(** Every stop list of the mapping satisfies [P]. *)
Definition all_lists (P : list dict -> Prop) (m : pymap (list dict)) : Prop :=
  forall direction_id stops, (direction_id, stops) ∈ m -> P stops.

(** The members that the aggregator sets or reads on every stop. *)
Definition complete_stop (s : dict) : Prop :=
  is_Some (s !! "stop_id") /\ is_Some (s !! "stop_name")
  /\ is_Some (s !! "direction_id") /\ is_Some (s !! "direction_name")
  /\ is_Some (s !! "absolute_sequence").

(** The absolute sequence of the stop is its raw sequence, which is
    greater than 0. *)
Definition ordered_by_raw_sequence (s : dict) : Prop :=
  exists v, s !! "absolute_sequence" = Some v
            /\ s !! "stop_sequence" = Some v
            /\ py_gt v (VInt 0) = Ok true.

(** [s['absolute_sequence'] != 999999], for a stop that has the member. *)
Definition has_real_sequence (s : dict) : bool :=
  negb (py_eqb (dict_get s "absolute_sequence") SENTINEL).

(** The stops of a direction that have an event nearby, each with its
    sorted nearby events. *)
Definition matches_of (gigs : list gig) (stops : list dict)
  : list stop_with_gigs :=
  map (with_nearby gigs) (List.filter (has_nearby gigs) stops).

(** The directions that [get_route_stops] gets for the route. *)
Definition route_directions (w : world) (route_id : Z) (c : cache)
  : option (list dict) :=
  match fst (get_route_directions w route_id c) with
  | Ok (Some directions_data) => dr_directions directions_data
  | _ => None
  end.

(** The routes that the timetable service returns for a route type, none
    when the request fails or the response has no routes. *)
Definition upstream_routes (env : surroundings) (route_type : value)
  : list dict :=
  routes_of (requests_get_routes env
               (routes_by_type_url (credentials env) route_type)).

(** The files of the shelf hold only what the timetable service answers
    to the request that they were saved for. *)
Definition mirrors (env : surroundings) (s : shelf) : Prop :=
  (forall timestamp data,
      route_types_dir s !! get_cache_path "route_types"
      = Some (Pickled timestamp data) ->
      requests_get_route_types env (route_types_url (credentials env))
      = Some data)
  /\ (forall route_type timestamp data,
         route_type <> VNone ->
         routes_dir s !! get_cache_path (routes_type_key route_type)
         = Some (Pickled timestamp data) ->
         requests_get_routes env
           (routes_by_type_url (credentials env) route_type)
         = Some data).

(** The route type has its identifier, and it is not null. *)
Definition typed (route_type : dict) : Prop :=
  exists type_id, route_type !! "route_type" = Some type_id
                  /\ type_id <> VNone.

(** The route types that the timetable service returns, none when the
    request fails or the response has no route types. *)
Definition upstream_route_types (env : surroundings) : list dict :=
  match requests_get_route_types env (route_types_url (credentials env)) with
  | Some data => default [] (rt_route_types data)
  | None => []
  end.

(** ** More samples *)

(** A route with one direction and one stop, without a pattern and
    without details, and what [get_route_stops] returns for it. *)
Definition single_stop : dict :=
  <["stop_name" := VStr "A"]> (located_stop 101 1).

Definition single_stop_world : world :=
  {| http_route := fun route_id => None;
     http_directions := fun route_id =>
       Some {| dr_directions := Some [sample_direction 1 "Up"] |};
     http_pattern := fun route_id route_type direction_id => None;
     http_stops := fun route_id route_type direction_id =>
       Some {| sr_stops := Some [single_stop] |};
     http_stop_details := fun stop_id route_type => None;
     http_gigs := Some sample_gigs |}.

Definition single_stop_processed : dict :=
  <["absolute_sequence" := VInt 1]>
    (<["direction_name" := VStr "Up"]>
       (<["direction_id" := VInt 1]> single_stop)).

Definition single_stop_result : stops_data :=
  {| stops_by_direction := [(VInt 1, [single_stop_processed])];
     directions := [sample_direction 1 "Up"];
     route_name := VStr "7" |}.

(** Two departures of the same stop. *)
Definition sample_departure (sequence : Z) : dict :=
  {[ "stop_id" := VInt 101; "stop_sequence" := VInt sequence ]}.

(** A direction in which a stop has a null raw sequence number. *)
Definition sample_stops_with_null : list dict :=
  [ located_stop 1 5;
    {[ "stop_id" := VInt 9; "stop_sequence" := VNone;
       "stop_latitude" := VInt 0; "stop_longitude" := VInt 0 ]} ].

(** Stand-ins for the credentials and the HMAC. *)
Definition sample_signer : signer :=
  {| DEV_ID := "1234";
     API_KEY := "secret";
     hmac_sha1_hexdigest := fun key msg => key +:+ ":" +:+ msg;
     upper := fun s => s |}.

(** A timetable service with one route type and one route, a clock that
    advances by one hour with every access of the cache directory, and
    writings that succeed. *)
Definition sample_route_type : dict :=
  {[ "route_type" := VInt 0; "route_type_name" := VStr "Train" ]}.

Definition sample_route_types : route_types_response :=
  {| rt_route_types := Some [sample_route_type];
     rt_other_members := false |}.

Definition sample_routes : routes_response :=
  {| rs_routes := Some [ {[ "route_id" := VInt 7 ]} ];
     rs_other_members := false |}.

Definition sample_surroundings : surroundings :=
  {| credentials := sample_signer;
     requests_get_route_types := fun url => Some sample_route_types;
     requests_get_routes := fun url => Some sample_routes;
     clock := fun n => (Z.of_nat n * 3600000000)%Z;
     writing := fun n => Written |}.

Definition empty_shelf : shelf :=
  {| route_types_dir := ∅; routes_dir := ∅; accesses := 0 |}.

(** Three calls of the logger. *)
Definition sample_log_calls : list log_call :=
  [ (info, "2024-01-01T10:00:00", "Route name: Seven");
    (error, "2024-01-01T10:00:01", "Request failed");
    (warning, "2024-01-01T10:00:02", "No stops found in response!") ].

(** ** Properties of the distance calculator *)

Lemma calculate_distance_same (lat lon : R) :
  calculate_distance lat lon lat lon = 0%R.
Proof.
  unfold calculate_distance.
  replace (radians lat - radians lat)%R with 0%R by lra.
  replace (radians lon - radians lon)%R with 0%R by lra.
  replace (0 / 2)%R with 0%R by lra.
  rewrite sin_0.
  replace (0 ^ 2 + cos (radians lat) * cos (radians lat) * 0 ^ 2)%R
    with 0%R by (simpl; lra).
  replace (1 - 0)%R with 1%R by lra.
  rewrite sqrt_0, sqrt_1.
  unfold atan2.
  destruct (decide (0 < 1)%R) as [_|Hn]; [|exfalso; lra].
  replace (0 / 1)%R with 0%R by lra.
  rewrite atan_0. lra.
Qed.

Lemma calculate_distance_sym (lat1 lon1 lat2 lon2 : R) :
  calculate_distance lat1 lon1 lat2 lon2
  = calculate_distance lat2 lon2 lat1 lon1.
Proof.
  unfold calculate_distance.
  assert (Hs : forall u v : R,
             (sin ((u - v) / 2) ^ 2 = sin ((v - u) / 2) ^ 2)%R).
  { intros u v.
    replace ((u - v) / 2)%R with (- ((v - u) / 2))%R by lra.
    rewrite sin_neg. simpl. lra. }
  rewrite (Hs (radians lat2) (radians lat1)).
  rewrite (Hs (radians lon2) (radians lon1)).
  rewrite (Rmult_comm (cos (radians lat1)) (cos (radians lat2))).
  reflexivity.
Qed.

(** C7. The great-circle distance from a point to itself is 0, and the
    distance from A to B equals the distance from B to A. *)
Theorem C7_distance_zero_and_symmetric :
  (forall lat lon : R, calculate_distance lat lon lat lon = 0%R)
  /\ (forall lat1 lon1 lat2 lon2 : R,
        calculate_distance lat1 lon1 lat2 lon2
        = calculate_distance lat2 lon2 lat1 lon1).
Proof.
  split.
  - exact calculate_distance_same.
  - exact calculate_distance_sym.
Qed.

(** ** Inversion of the monadic binds *)

Lemma bind_Ok {A B : Type} (m : outcome A) (f : A -> outcome B) (b : B) :
  m ≫= f = Ok b -> exists a, m = Ok a /\ f a = Ok b.
Proof.
  destruct m as [a|e]; simpl; intros H; [eauto | discriminate].
Qed.

Lemma M_bind_inv {A B : Type} (m : M A) (f : A -> M B) (c c' : cache)
    (r : outcome B) :
  (m ≫= f) c = (r, c') ->
  (exists a c1, m c = (Ok a, c1) /\ f a c1 = (r, c'))
  \/ (exists e, m c = (Raise e, c') /\ r = Raise e).
Proof.
  unfold mbind, M_bind. destruct (m c) as [[a|e] c1]; intros H.
  - left. eauto.
  - right. inversion H; subst. eauto.
Qed.

Lemma M_bind_Ok {A B : Type} (m : M A) (f : A -> M B) (c c' : cache) (b : B) :
  (m ≫= f) c = (Ok b, c') ->
  exists a c1, m c = (Ok a, c1) /\ f a c1 = (Ok b, c').
Proof.
  intros H. apply M_bind_inv in H as [H|(e & _ & H)]; [exact H | discriminate].
Qed.

Lemma lift_inv {A : Type} (o r : outcome A) (c c' : cache) :
  lift o c = (r, c') -> r = o /\ c' = c.
Proof. unfold lift. intros H. inversion H; subst. split; reflexivity. Qed.

Lemma mret_inv {A : Type} (a : A) (r : outcome A) (c c' : cache) :
  mret (M := M) a c = (r, c') -> r = Ok a /\ c' = c.
Proof. unfold mret, M_ret. intros H. inversion H; subst. split; reflexivity. Qed.

Lemma getitem_Ok (d : dict) (k : string) (v : value) :
  getitem d k = Ok v <-> d !! k = Some v.
Proof.
  unfold getitem. destruct (d !! k); split; intros H; inversion H; reflexivity.
Qed.

(** ** The keys of the cache

    The keys of the three kinds never coincide, which is why the model
    keeps one map per kind. *)

Lemma stops_route_key_not_stop_details (route_id route_type : Z)
    (stop_id : value) (route_type' : Z) :
  stops_route_key route_id route_type <> stop_details_key stop_id route_type'.
Proof.
  unfold stops_route_key, stop_details_key. intros H.
  cbn in H. injection H as H. discriminate H.
Qed.

Lemma stops_route_key_not_directions (route_id route_type route_id' : Z) :
  stops_route_key route_id route_type <> directions_route_key route_id'.
Proof.
  unfold stops_route_key, directions_route_key. intros H.
  cbn in H. discriminate H.
Qed.

Lemma stop_details_key_not_directions (stop_id : value)
    (route_type route_id : Z) :
  stop_details_key stop_id route_type <> directions_route_key route_id.
Proof.
  unfold stop_details_key, directions_route_key. intros H.
  cbn in H. discriminate H.
Qed.

(** ** The pattern sequence map *)

Lemma pymap_lookup_set {V : Type} (m : pymap V) (k : value) (v : V)
    (k' : value) (v' : V) :
  pymap_lookup (pymap_set m k v) k' = Some v' ->
  v' = v \/ pymap_lookup m k' = Some v'.
Proof.
  induction m as [|[k0 v0] m IH]; simpl.
  - destruct (py_eqb k k'); [|discriminate].
    intros H. inversion H. left; reflexivity.
  - destruct (py_eqb k0 k) eqn:Hk; simpl.
    + destruct (py_eqb k0 k'); [|auto].
      intros H. inversion H. left; reflexivity.
    + destruct (py_eqb k0 k'); [auto | exact IH].
Qed.

(** The map built from the departures holds no [None]: a sequence number
    exists for a stop exactly when [sequence_map.get] is not [None]. *)
Lemma sequence_map_of_not_none (departures : list dict) (k v : value) :
  pymap_lookup (sequence_map_of departures) k = Some v -> v <> VNone.
Proof.
  unfold sequence_map_of.
  assert (Hgen : forall acc : pymap value,
             (forall v', pymap_lookup acc k = Some v' -> v' <> VNone) ->
             pymap_lookup
               (fold_left
                  (fun sequence_map departure =>
                     let stop_id := dict_get departure "stop_id" in
                     let sequence := dict_get departure "stop_sequence" in
                     if negb (is_none stop_id) && negb (is_none sequence)
                     then pymap_set sequence_map stop_id sequence
                     else sequence_map) departures acc) k = Some v ->
             v <> VNone).
  { induction departures as [|d departures IH]; simpl; intros acc Hacc H.
    - apply Hacc, H.
    - eapply IH; [|exact H]. intros v' Hv'.
      destruct (negb (is_none (dict_get d "stop_id"))
                && negb (is_none (dict_get d "stop_sequence"))) eqn:Hc;
        [|apply Hacc, Hv'].
      apply andb_prop in Hc as [_ Hseq].
      apply pymap_lookup_set in Hv' as [->|Hv']; [|apply Hacc, Hv'].
      destruct (dict_get d "stop_sequence"); simpl in Hseq;
        [discriminate | discriminate | discriminate | discriminate]. }
  apply Hgen. simpl. discriminate.
Qed.

(** ** Sequence reconciliation *)

Lemma assign_sequence_spec (sequence_map : pymap value) (stop stop' : dict) :
  assign_sequence sequence_map stop = Ok stop' ->
  exists stop_id absolute,
    stop !! "stop_id" = Some stop_id
    /\ stop' = <["absolute_sequence" := absolute]> stop
    /\ let pattern_sequence :=
         pymap_get sequence_map stop_id in
       let orig_sequence := dict_get stop "stop_sequence" in
       (pattern_sequence <> VNone -> absolute = pattern_sequence)
       /\ (pattern_sequence = VNone -> orig_sequence <> VNone ->
           py_gt orig_sequence (VInt 0) = Ok true ->
           absolute = orig_sequence)
       /\ (pattern_sequence = VNone ->
           orig_sequence = VNone \/ py_gt orig_sequence (VInt 0) = Ok false ->
           absolute = SENTINEL).
Proof.
  unfold assign_sequence. intros H.
  apply bind_Ok in H as (stop_id & Hid & H).
  apply getitem_Ok in Hid. exists stop_id.
  destruct (pymap_get sequence_map stop_id) as [| n | x | s]
    eqn:Hpat; simpl in H.
  2-4: inversion H; subst; eexists; split; [exact Hid|];
       (split; [reflexivity|]); simpl;
       (split; [reflexivity|]); split; intros; discriminate.
  apply bind_Ok in H as (positive & Hpos & H).
  exists (if positive then dict_get stop "stop_sequence" else SENTINEL).
  split; [exact Hid|].
  split; [destruct positive; inversion H; reflexivity|].
  simpl. split; [congruence|].
  destruct (is_none (dict_get stop "stop_sequence")) eqn:Hnone;
    simpl in Hpos.
  - inversion Hpos; subst.
    split; [|reflexivity].
    intros _ Hn. destruct (dict_get stop "stop_sequence"); simpl in Hnone;
      congruence.
  - split.
    + intros _ _ Hgt. rewrite Hgt in Hpos. inversion Hpos; reflexivity.
    + intros _ [Hn|Hf].
      * rewrite Hn in Hnone. discriminate.
      * rewrite Hf in Hpos. inversion Hpos; reflexivity.
Qed.

(** C1. For every stop processed by the aggregation: when the pattern map
    has a sequence number for the stop's identifier, the absolute sequence
    is that number, whatever the raw sequence; otherwise, when the raw
    sequence is present and greater than 0, it is the raw sequence;
    otherwise it is the sentinel. *)
Theorem C1_absolute_sequence_policy (w : world) (route_type : Z)
    (direction : dict) (direction_id : value) (sequence_map : pymap value)
    (stop stop' : dict) (c c' : cache) :
  process_stop w route_type direction direction_id sequence_map stop c
  = (Ok stop', c') ->
  exists stop_id,
    stop' !! "stop_id" = Some stop_id
    /\ let pattern_sequence := pymap_get sequence_map stop_id in
       let raw_sequence := dict_get stop' "stop_sequence" in
       let absolute := stop' !! "absolute_sequence" in
       (pattern_sequence <> VNone -> absolute = Some pattern_sequence)
       /\ (pattern_sequence = VNone -> raw_sequence <> VNone ->
           py_gt raw_sequence (VInt 0) = Ok true ->
           absolute = Some raw_sequence)
       /\ (pattern_sequence = VNone ->
           raw_sequence = VNone \/ py_gt raw_sequence (VInt 0) = Ok false ->
           absolute = Some SENTINEL).
Proof.
  unfold process_stop. intros H.
  apply M_bind_Ok in H as (direction_name & c1 & Hn & H).
  apply M_bind_Ok in H as (sid & c2 & Hsid & H).
  apply M_bind_Ok in H as (stop_details & c3 & Hdet & H).
  apply M_bind_Ok in H as (assigned & c4 & Hassign & H).
  apply M_bind_Ok in H as (name & c5 & Hname & H).
  apply mret_inv in H as [H _]. inversion H; subst stop'. clear H.
  apply lift_inv in Hassign as [Hassign _]. symmetry in Hassign.
  apply assign_sequence_spec in Hassign
    as (stop_id & absolute & Hid & -> & Hpat & Hraw & Hsent).
  exists stop_id.
  split; [rewrite lookup_insert_ne by discriminate; exact Hid|].
  unfold dict_get in *. simpl.
  rewrite lookup_insert_eq, lookup_insert_ne by discriminate.
  split; [|split].
  - intros Hp. f_equal. apply Hpat, Hp.
  - intros Hp Hr Hgt. f_equal. apply Hraw; assumption.
  - intros Hp Hr. f_equal. apply Hsent; assumption.
Qed.

(** ** Enrichment with the stop details *)

Lemma enrich_stop_id (stop : dict) (details : option stop_details_response) :
  enrich stop details !! "stop_id"
  = match details_member details "stop_id" with
    | Some v => Some v
    | None => stop !! "stop_id"
    end.
Proof.
  unfold enrich, dict_update, details_member.
  destruct details as [[[d|]]|]; simpl; try reflexivity.
  rewrite lookup_union.
  destruct (d !! "stop_id") as [v|]; simpl.
  - destruct (stop !! "stop_id"); reflexivity.
  - destruct (stop !! "stop_id"); reflexivity.
Qed.

(** C9, as amended.  Enrichment overlays every member of the details
    record, the identifier included: the identifier of the stop is
    unchanged whenever the details record has no stop_id or has the stop's
    own stop_id. *)
Theorem C9_enrich_keeps_matching_identifier (stop : dict)
    (details : option stop_details_response) :
  (forall v : value,
      details_member details "stop_id" = Some v ->
      stop !! "stop_id" = Some v) ->
  enrich stop details !! "stop_id" = stop !! "stop_id".
Proof.
  intros Hsame. rewrite enrich_stop_id.
  destruct (details_member details "stop_id") as [v|] eqn:Hv; [|reflexivity].
  symmetry. apply Hsame. reflexivity.
Qed.

(** ** Facts about the stable sort *)

Section StableSortFacts.
Context {A : Type} (ltb : A -> A -> bool) (ok : A -> Prop).

Hypothesis ltb_asym :
  forall x y, ok x -> ok y -> ltb x y = true -> ltb y x = false.
Hypothesis not_after_trans :
  forall x y z, ok x -> ok y -> ok z ->
                not_after ltb x y -> not_after ltb y z -> not_after ltb x z.

Lemma insert_sorted_perm (x : A) (l : list A) :
  insert_sorted ltb x l ≡ₚ x :: l.
Proof.
  induction l as [|y l IH]; simpl; [reflexivity|].
  destruct (ltb y x); [|reflexivity].
  rewrite IH. apply Permutation_swap.
Qed.

Lemma stable_sort_perm (l : list A) : stable_sort ltb l ≡ₚ l.
Proof.
  induction l as [|x l IH]; simpl; [reflexivity|].
  rewrite insert_sorted_perm, IH. reflexivity.
Qed.

Lemma insert_sorted_strongly (x : A) (l : list A) :
  ok x -> Forall ok l ->
  StronglySorted (not_after ltb) l ->
  StronglySorted (not_after ltb) (insert_sorted ltb x l).
Proof.
  intros Hx Hok Hs.
  induction Hs as [|y l Hs IH Hy]; simpl.
  - repeat constructor.
  - apply Forall_cons in Hok as [Hoky Hok].
    destruct (ltb y x) eqn:Hyx.
    + constructor; [apply IH, Hok|].
      rewrite insert_sorted_perm. constructor; [|exact Hy].
      unfold not_after. apply ltb_asym; assumption.
    + constructor; [constructor; assumption|].
      constructor; [exact Hyx|].
      rewrite Forall_forall in Hy, Hok |- *.
      intros z Hz. apply (not_after_trans x y z); auto.
Qed.

Lemma stable_sort_strongly (l : list A) :
  Forall ok l -> StronglySorted (not_after ltb) (stable_sort ltb l).
Proof.
  induction l as [|x l IH]; simpl; intros Hok; [constructor|].
  apply Forall_cons in Hok as [Hx Hok].
  apply insert_sorted_strongly; [exact Hx| |apply IH, Hok].
  rewrite stable_sort_perm. exact Hok.
Qed.
End StableSortFacts.

Lemma StronglySorted_impl_on {A : Type} (R1 R2 : A -> A -> Prop)
    (P : A -> Prop) (l : list A) :
  (forall x y, P x -> P y -> R1 x y -> R2 x y) ->
  Forall P l -> StronglySorted R1 l -> StronglySorted R2 l.
Proof.
  intros Himpl HP Hs. induction Hs as [|x l Hs IH Hx]; [constructor|].
  apply Forall_cons in HP as [HPx HP].
  constructor; [apply IH, HP|].
  rewrite Forall_forall in Hx, HP |- *. intros y Hy. auto.
Qed.

Lemma StronglySorted_short {A : Type} (R : A -> A -> Prop) (l : list A) :
  (length l <= 1)%nat -> StronglySorted R l.
Proof.
  destruct l as [|x [|y l]]; simpl; intros Hlen.
  - constructor.
  - repeat constructor.
  - lia.
Qed.

(** *** The order of the strings *)

Lemma ascii_compare_trans_not_gt (a b c : Ascii.ascii) :
  Ascii.compare a b <> Gt -> Ascii.compare b c <> Gt ->
  Ascii.compare a c <> Gt.
Proof.
  unfold Ascii.compare. rewrite !N.compare_gt_iff. lia.
Qed.

Lemma string_compare_refl (s : string) : String.compare s s = Eq.
Proof.
  induction s as [|a s IH]; simpl; [reflexivity|].
  unfold Ascii.compare. rewrite N.compare_refl. exact IH.
Qed.

Lemma string_compare_trans_not_gt (s t u : string) :
  String.compare s t <> Gt -> String.compare t u <> Gt ->
  String.compare s u <> Gt.
Proof.
  revert t u. induction s as [|a s IH]; intros [|b t] [|c u]; simpl;
    try congruence.
  destruct (Ascii.compare a b) eqn:Hab; try congruence;
    destruct (Ascii.compare b c) eqn:Hbc; try congruence; intros Hst Htu.
  - apply Ascii.compare_eq_iff in Hab, Hbc. subst b c.
    unfold Ascii.compare. rewrite N.compare_refl. eauto.
  - apply Ascii.compare_eq_iff in Hab. subst b. rewrite Hbc. congruence.
  - apply Ascii.compare_eq_iff in Hbc. subst c. rewrite Hab. congruence.
  - assert (Hac : Ascii.compare a c = Lt).
    { unfold Ascii.compare in *. rewrite N.compare_lt_iff in *. lia. }
    rewrite Hac. congruence.
Qed.

Lemma string_ltb_asym (s t : string) :
  String.ltb s t = true -> String.ltb t s = false.
Proof.
  unfold String.ltb. rewrite (String.compare_antisym t s).
  destruct (String.compare s t); simpl; congruence.
Qed.

Lemma string_not_after_trans (s t u : string) :
  String.ltb t s = false -> String.ltb u t = false -> String.ltb u s = false.
Proof.
  unfold String.ltb. intros Hst Htu.
  assert (H1 : String.compare s t <> Gt).
  { rewrite String.compare_antisym.
    destruct (String.compare t s); simpl; congruence. }
  assert (H2 : String.compare t u <> Gt).
  { rewrite String.compare_antisym.
    destruct (String.compare u t); simpl; congruence. }
  pose proof (string_compare_trans_not_gt s t u H1 H2) as H3.
  rewrite String.compare_antisym in H3.
  destruct (String.compare u s); simpl in *; congruence.
Qed.

(** *** The order of the numbers *)

Lemma py_lt_num (a b : value) :
  is_num a = true -> is_num b = true ->
  py_lt a b = Ok (bool_decide (num_val a < num_val b)%R).
Proof.
  destruct a, b; simpl; try discriminate; intros _ _; try reflexivity.
  f_equal. apply bool_decide_ext. split; [apply IZR_lt | apply lt_IZR].
Qed.

Lemma py_lt_str (a b : value) :
  is_str a = true -> is_str b = true ->
  exists s t, a = VStr s /\ b = VStr t /\ py_lt a b = Ok (String.ltb s t).
Proof.
  destruct a, b; simpl; try discriminate; intros _ _. eauto.
Qed.

Lemma sort_by_key_sorted {A : Type} (l l' : list (value * A)) :
  sort_by_key l = Ok l' ->
  l' ≡ₚ l /\ StronglySorted (fun p q => key_le (fst p) (fst q)) l'.
Proof.
  unfold sort_by_key. intros H.
  set (ltb := fun p q : value * A => py_ltb (fst p) (fst q)) in *.
  destruct (bool_decide (length l <= 1)%nat) eqn:Hlen; simpl in H.
  { inversion H; subst l'. split; [apply stable_sort_perm|].
    apply bool_decide_eq_true_1 in Hlen.
    apply StronglySorted_short.
    rewrite (Permutation_length (stable_sort_perm ltb l)). exact Hlen. }
  destruct (forallb (fun p => is_num (fst p)) l) eqn:Hnum; simpl in H.
  { inversion H; subst l'. split; [apply stable_sort_perm|].
    pose proof (proj1 (forallb_forall _ _) Hnum) as Hnum'.
    apply List.Forall_forall in Hnum'. clear Hnum. rename Hnum' into Hnum.
    apply (StronglySorted_impl_on (not_after ltb) _
             (fun p => is_num (fst p) = true)).
    - intros p q Hp Hq. unfold not_after, ltb, py_ltb, key_le.
      rewrite (py_lt_num _ _ Hq Hp). congruence.
    - rewrite stable_sort_perm. exact Hnum.
    - apply (stable_sort_strongly ltb (fun p => is_num (fst p) = true));
        [| |exact Hnum].
      + intros p q Hp Hq. unfold ltb, py_ltb.
        rewrite (py_lt_num _ _ Hp Hq), (py_lt_num _ _ Hq Hp).
        intros Hlt. apply bool_decide_eq_true_1 in Hlt.
        apply bool_decide_eq_false_2. lra.
      + intros p q r Hp Hq Hr. unfold not_after, ltb, py_ltb.
        rewrite (py_lt_num _ _ Hq Hp), (py_lt_num _ _ Hr Hq),
          (py_lt_num _ _ Hr Hp).
        intros H1 H2. apply bool_decide_eq_false_1 in H1, H2.
        apply bool_decide_eq_false_2. lra. }
  destruct (forallb (fun p => is_str (fst p)) l) eqn:Hstr; simpl in H;
    [|discriminate].
  inversion H; subst l'. split; [apply stable_sort_perm|].
  pose proof (proj1 (forallb_forall _ _) Hstr) as Hstr'.
  apply List.Forall_forall in Hstr'. clear Hstr. rename Hstr' into Hstr.
  apply (StronglySorted_impl_on (not_after ltb) _
           (fun p => is_str (fst p) = true)).
  - intros p q Hp Hq. unfold not_after, ltb, py_ltb, key_le.
    destruct (py_lt_str _ _ Hq Hp) as (s & t & _ & _ & ->). congruence.
  - rewrite stable_sort_perm. exact Hstr.
  - apply (stable_sort_strongly ltb (fun p => is_str (fst p) = true));
      [| |exact Hstr].
    + intros p q Hp Hq. unfold ltb, py_ltb.
      destruct (py_lt_str _ _ Hp Hq) as (s & t & Es & Et & ->).
      destruct (py_lt_str _ _ Hq Hp) as (t' & s' & Et' & Es' & ->).
      rewrite Es in Es'. rewrite Et in Et'. inversion Es'; inversion Et'.
      subst. apply string_ltb_asym.
    + intros p q r Hp Hq Hr. unfold not_after, ltb, py_ltb.
      destruct (py_lt_str _ _ Hq Hp) as (t & s & Et & Es & ->).
      destruct (py_lt_str _ _ Hr Hq) as (u & t' & Eu & Et' & ->).
      destruct (py_lt_str _ _ Hr Hp) as (u' & s' & Eu' & Es' & ->).
      rewrite Es in Es'. rewrite Et in Et'. rewrite Eu in Eu'.
      inversion Es'; inversion Et'; inversion Eu'. subst.
      apply string_not_after_trans.
Qed.

(** ** The cache of route stops is written by [get_route_stops] only *)

Lemma preserves_lift {A : Type} (o : outcome A) :
  preserves_stops_route (lift o).
Proof. intros c r c' H. apply lift_inv in H as [_ ->]. reflexivity. Qed.

Lemma preserves_mret {A : Type} (a : A) :
  preserves_stops_route (mret (M := M) a).
Proof. intros c r c' H. apply mret_inv in H as [_ ->]. reflexivity. Qed.

Lemma preserves_bind {A B : Type} (m : M A) (f : A -> M B) :
  preserves_stops_route m -> (forall a, preserves_stops_route (f a)) ->
  preserves_stops_route (m ≫= f).
Proof.
  intros Hm Hf c r c' H.
  apply M_bind_inv in H as [(a & c1 & H1 & H2)|(e & H1 & _)].
  - rewrite (Hf a _ _ _ H2). apply (Hm _ _ _ H1).
  - apply (Hm _ _ _ H1).
Qed.

Lemma preserves_mapM {A B : Type} (f : A -> M B) (l : list A) :
  (forall a, preserves_stops_route (f a)) ->
  preserves_stops_route (mapM_M f l).
Proof.
  intros Hf. induction l as [|a l IH]; simpl.
  - apply preserves_mret.
  - apply preserves_bind; [apply Hf|]. intros b.
    apply preserves_bind; [apply IH|]. intros bs. apply preserves_mret.
Qed.

Lemma preserves_get_route_directions (w : world) (route_id : Z) :
  preserves_stops_route (get_route_directions w route_id).
Proof.
  intros c r c'. unfold get_route_directions.
  destruct (directions_cache c !! directions_route_key route_id).
  - intros H. inversion H; reflexivity.
  - destruct (http_directions w route_id); intros H; inversion H; reflexivity.
Qed.

Lemma preserves_get_stop_details (w : world) (stop_id : value)
    (route_type : Z) :
  preserves_stops_route (get_stop_details w stop_id route_type).
Proof.
  intros c r c'. unfold get_stop_details.
  destruct (stop_details_cache c !! stop_details_key stop_id route_type).
  - intros H. inversion H; reflexivity.
  - destruct (http_stop_details w stop_id route_type); intros H;
      inversion H; reflexivity.
Qed.

Lemma preserves_process_stop (w : world) (route_type : Z) (direction : dict)
    (direction_id : value) (sequence_map : pymap value) (stop : dict) :
  preserves_stops_route
    (process_stop w route_type direction direction_id sequence_map stop).
Proof.
  unfold process_stop.
  apply preserves_bind; [apply preserves_lift|]. intros direction_name.
  apply preserves_bind; [apply preserves_lift|]. intros stop_id.
  apply preserves_bind; [apply preserves_get_stop_details|]. intros details.
  apply preserves_bind; [apply preserves_lift|]. intros assigned.
  apply preserves_bind; [apply preserves_lift|]. intros name.
  apply preserves_mret.
Qed.

Lemma preserves_process_direction (w : world) (route_id route_type : Z)
    (stops_by_dir : pymap (list dict)) (direction : dict) :
  preserves_stops_route
    (process_direction w route_id route_type stops_by_dir direction).
Proof.
  unfold process_direction.
  apply preserves_bind; [apply preserves_lift|]. intros direction_id.
  apply preserves_bind; [apply preserves_lift|]. intros name.
  destruct (http_stops w route_id route_type direction_id) as [resp|];
    [|apply preserves_mret].
  destruct (sr_stops resp) as [stops|]; [|apply preserves_mret].
  apply preserves_bind.
  { apply preserves_mapM. intros stop. apply preserves_process_stop. }
  intros processed.
  apply preserves_bind; [apply preserves_lift|]. intros valid.
  apply preserves_mret.
Qed.

Lemma preserves_directions_loop (w : world) (route_id route_type : Z)
    (dirs : list dict) (stops_by_dir : pymap (list dict)) :
  preserves_stops_route
    (directions_loop w route_id route_type dirs stops_by_dir).
Proof.
  revert stops_by_dir. induction dirs as [|direction dirs IH];
    intros stops_by_dir; simpl.
  - apply preserves_mret.
  - apply preserves_bind; [apply preserves_process_direction|].
    intros [stops_by_dir'|]; [apply IH | apply preserves_mret].
Qed.

(** ** The stop lists of a result are ordered *)

Lemma mapM_outcome_Forall2 {A B : Type} (f : A -> outcome B) (l : list A)
    (l' : list B) :
  mapM_outcome f l = Ok l' -> Forall2 (fun a b => f a = Ok b) l l'.
Proof.
  revert l'. induction l as [|a l IH]; simpl; intros l' H.
  - inversion H. constructor.
  - apply bind_Ok in H as (b & Hb & H).
    apply bind_Ok in H as (bs & Hbs & H). inversion H; subst.
    constructor; [exact Hb | apply IH, Hbs].
Qed.

Lemma filterM_outcome_spec {A : Type} (f : A -> outcome bool)
    (R : A -> A -> Prop) (l r : list A) :
  filterM_outcome f l = Ok r ->
  Forall (fun a => f a = Ok true) r
  /\ (forall a, a ∈ r -> a ∈ l)
  /\ (StronglySorted R l -> StronglySorted R r).
Proof.
  revert r. induction l as [|a l IH]; simpl; intros r H.
  - inversion H. split; [constructor|]. split; [auto|]. auto.
  - apply bind_Ok in H as (b & Hb & H).
    apply bind_Ok in H as (r' & Hr' & H). inversion H; subst. clear H.
    destruct (IH r' Hr') as (Hall & Hsub & Hsorted).
    destruct b.
    + split; [constructor; assumption|]. split.
      * intros x Hx. apply elem_of_cons in Hx as [->|Hx];
          [left | right; apply Hsub, Hx].
      * intros Hs. apply StronglySorted_inv in Hs as [Hs Ha].
        constructor; [apply Hsorted, Hs|].
        rewrite Forall_forall in Ha |- *. intros x Hx. apply Ha, Hsub, Hx.
    + split; [assumption|]. split.
      * intros x Hx. right. apply Hsub, Hx.
      * intros Hs. apply StronglySorted_inv in Hs as [Hs _].
        apply Hsorted, Hs.
Qed.

Lemma sort_and_filter_ordered (stops valid : list dict) :
  sort_and_filter stops = Ok valid -> ordered_stops valid.
Proof.
  unfold sort_and_filter. intros H.
  apply bind_Ok in H as (keyed & Hkeyed & H).
  apply bind_Ok in H as (sorted & Hsorted & H).
  apply bind_Ok in H as (names & _ & H).
  apply sort_by_key_sorted in Hsorted as [Hperm Hs].
  assert (Hkeys : Forall (fun p : value * dict =>
                            snd p !! "absolute_sequence" = Some (fst p))
                    sorted).
  { rewrite Hperm. apply mapM_outcome_Forall2 in Hkeyed.
    clear -Hkeyed. induction Hkeyed as [|s p l l' Hp _ IH]; constructor;
      [|exact IH].
    apply bind_Ok in Hp as (k & Hk & Hp). inversion Hp; subst. simpl.
    apply getitem_Ok, Hk. }
  destruct (filterM_outcome_spec is_valid stop_le _ _ H)
    as (Hvalid & _ & Hkeep).
  split.
  - apply Hkeep.
    apply (StronglySorted_fmap snd
             (fun p q : value * dict => stop_le (snd p) (snd q)) stop_le);
      [auto|].
    eapply StronglySorted_impl_on; [|exact Hkeys|exact Hs].
    intros p q Hp Hq. simpl in Hp, Hq. unfold stop_le, dict_get.
    rewrite Hp, Hq. simpl. auto.
  - eapply Forall_impl; [exact Hvalid|].
    intros s Hs'. unfold is_valid in Hs'.
    apply bind_Ok in Hs' as (a & Ha & Hs'). apply getitem_Ok in Ha.
    inversion Hs' as [Hneg]. exists a. split; [exact Ha|].
    destruct (py_eqb a SENTINEL); [discriminate | reflexivity].
Qed.

Lemma elem_of_pymap_set {V : Type} (m : pymap V) (k : value) (v : V)
    (k' : value) (v' : V) :
  (k', v') ∈ pymap_set m k v -> (k', v') ∈ m \/ v' = v.
Proof.
  induction m as [|[k0 v0] m IH]; simpl; intros H.
  - apply list_elem_of_singleton in H. inversion H; subst. right; reflexivity.
  - destruct (py_eqb k0 k).
    + apply elem_of_cons in H as [H|H].
      * inversion H; subst. right; reflexivity.
      * left. right. exact H.
    + apply elem_of_cons in H as [H|H].
      * inversion H; subst. left. left.
      * destruct (IH H) as [H'|H']; [left; right; exact H' | right; exact H'].
Qed.

Lemma process_direction_ordered (w : world) (route_id route_type : Z)
    (stops_by_dir stops_by_dir' : pymap (list dict)) (direction : dict)
    (c c' : cache) :
  all_ordered stops_by_dir ->
  process_direction w route_id route_type stops_by_dir direction c
  = (Ok (Some stops_by_dir'), c') ->
  all_ordered stops_by_dir'.
Proof.
  unfold process_direction. intros Hord H.
  apply M_bind_Ok in H as (direction_id & c1 & _ & H).
  apply M_bind_Ok in H as (name & c2 & _ & H).
  destruct (http_stops w route_id route_type direction_id) as [resp|].
  2: { apply mret_inv in H as [H _]. discriminate. }
  destruct (sr_stops resp) as [stops|].
  2: { apply mret_inv in H as [H _]. inversion H; subst. exact Hord. }
  apply M_bind_Ok in H as (processed & c3 & _ & H).
  apply M_bind_Ok in H as (valid & c4 & Hvalid & H).
  apply mret_inv in H as [H _]. inversion H; subst. clear H.
  apply lift_inv in Hvalid as [Hvalid _]. symmetry in Hvalid.
  apply sort_and_filter_ordered in Hvalid.
  intros k l Hkl. apply elem_of_pymap_set in Hkl as [Hkl| ->];
    [eapply Hord, Hkl | exact Hvalid].
Qed.

Lemma directions_loop_ordered (w : world) (route_id route_type : Z)
    (dirs : list dict) (stops_by_dir stops_by_dir' : pymap (list dict))
    (c c' : cache) :
  all_ordered stops_by_dir ->
  directions_loop w route_id route_type dirs stops_by_dir c
  = (Ok (Some stops_by_dir'), c') ->
  all_ordered stops_by_dir'.
Proof.
  revert stops_by_dir c. induction dirs as [|direction dirs IH];
    intros stops_by_dir c Hord H; simpl in H.
  - apply mret_inv in H as [H _]. inversion H; subst. exact Hord.
  - apply M_bind_Ok in H as ([next|] & c1 & Hdir & H).
    + eapply IH; [|exact H]. eapply process_direction_ordered; eassumption.
    + apply mret_inv in H as [H _]. discriminate.
Qed.

(** What a call of [get_route_stops] does when the key is not cached. *)
Lemma get_route_stops_fresh (w : world) (route_id route_type : Z)
    (c c' : cache) (r : outcome (option stops_data)) :
  stops_route_cache c !! stops_route_key route_id route_type = None ->
  get_route_stops w route_id route_type c = (r, c') ->
  (stops_route_cache c' = stops_route_cache c
   /\ forall d, r <> Ok (Some d))
  \/ (exists route_name directions_data dirs stops_by_dir c0 c1 c2,
        get_route_name w route_id = Ok route_name
        /\ get_route_directions w route_id c = (Ok (Some directions_data), c0)
        /\ dr_directions directions_data = Some dirs
        /\ mapM_outcome
             (fun direction =>
                _ ← getitem direction "direction_name";
                getitem direction "direction_id") dirs = Ok c1
        /\ directions_loop w route_id route_type dirs [] c0
           = (Ok (Some stops_by_dir), c2)
        /\ r = Ok (Some {| stops_by_direction := stops_by_dir;
                           directions := dirs;
                           route_name := route_name |})
        /\ stops_route_cache c'
           = <[stops_route_key route_id route_type :=
                 {| stops_by_direction := stops_by_dir;
                    directions := dirs;
                    route_name := route_name |}]> (stops_route_cache c)).
Proof.
  unfold get_route_stops. intros Hmiss. rewrite Hmiss. intros H.
  apply M_bind_inv in H as [(route_name & c0 & Hname & H)|(e & Hname & ->)].
  2: { left. apply lift_inv in Hname as [_ ->]. split; [reflexivity|].
       intros d; discriminate. }
  apply lift_inv in Hname as [Hname ->].
  apply M_bind_inv in H as [(dd & c1 & Hdd & H)|(e & Hdd & ->)].
  2: { left. split; [|intros d; discriminate].
       apply (preserves_get_route_directions _ _ _ _ _ Hdd). }
  pose proof (preserves_get_route_directions _ _ _ _ _ Hdd) as Hc1.
  destruct dd as [directions_data|]; simpl in H.
  2: { left. apply mret_inv in H as [-> ->].
       split; [exact Hc1 | intros d; discriminate]. }
  destruct (dr_directions directions_data) as [dirs|] eqn:Hdirs; simpl in H.
  2: { left. apply mret_inv in H as [-> ->].
       split; [exact Hc1 | intros d; discriminate]. }
  apply M_bind_inv in H as [(checked & c2 & Hchk & H)|(e & Hchk & ->)].
  2: { left. apply lift_inv in Hchk as [_ ->].
       split; [exact Hc1 | intros d; discriminate]. }
  apply lift_inv in Hchk as [Hchk ->].
  apply M_bind_inv in H as [(res & c3 & Hloop & H)|(e & Hloop & ->)].
  2: { left. split; [|intros d; discriminate].
       rewrite (preserves_directions_loop _ _ _ _ _ _ _ _ Hloop).
       exact Hc1. }
  pose proof (preserves_directions_loop _ _ _ _ _ _ _ _ Hloop) as Hc3.
  destruct res as [stops_by_dir|].
  2: { left. apply mret_inv in H as [-> ->].
       split; [congruence | intros d; discriminate]. }
  right.
  apply M_bind_inv in H as [(u & c4 & Hsave & H)|(e & Hsave & ->)].
  2: { unfold save_stops_route in Hsave. discriminate. }
  apply mret_inv in H as [-> ->].
  unfold save_stops_route in Hsave. inversion Hsave; subst c4. simpl.
  exists route_name, directions_data, dirs, stops_by_dir, c1, checked, c3.
  rewrite Hc3, Hc1. repeat split; auto.
Qed.

(** C2. In every successful route-stops result, the stop list of each
    direction is sorted ascending by absolute sequence and holds no stop
    whose absolute sequence is the sentinel; the results kept in the cache
    have the same property. *)
Theorem C2_result_sorted_without_sentinel (w : world)
    (route_id route_type : Z) (c c' : cache) (d : stops_data) :
  (forall key d0, stops_route_cache c !! key = Some d0 -> ordered_result d0) ->
  get_route_stops w route_id route_type c = (Ok (Some d), c') ->
  ordered_result d
  /\ (forall key d0,
         stops_route_cache c' !! key = Some d0 -> ordered_result d0).
Proof.
  intros Hinv H.
  destruct (stops_route_cache c !! stops_route_key route_id route_type)
    as [cached|] eqn:Hc.
  - unfold get_route_stops in H. rewrite Hc in H. inversion H; subst.
    split; [eapply Hinv, Hc | exact Hinv].
  - apply (get_route_stops_fresh _ _ _ _ _ _ Hc) in H
      as [[_ Hno]|(rn & dd & dirs & sbd & c0 & c1 & c2 & _ & _ & _ & _
                   & Hloop & Hr & Hc')].
    + exfalso. apply (Hno d). reflexivity.
    + inversion Hr; subst d. clear Hr.
      assert (Hord : ordered_result
                       {| stops_by_direction := sbd; directions := dirs;
                          route_name := rn |}).
      { unfold ordered_result. simpl.
        eapply directions_loop_ordered; [|exact Hloop].
        intros k l Hkl. apply elem_of_nil in Hkl. destruct Hkl. }
      split; [exact Hord|].
      intros key d0. rewrite Hc'.
      destruct (decide (stops_route_key route_id route_type = key))
        as [<-|Hne].
      * rewrite lookup_insert_eq. intros Heq. inversion Heq; subst.
        exact Hord.
      * rewrite lookup_insert_ne by exact Hne. apply Hinv.
Qed.

(** ** No exception on upstream data that follow the schema *)

Lemma mapM_outcome_total {A B : Type} (f : A -> outcome B) (l : list A) :
  Forall (fun a => exists b, f a = Ok b) l ->
  exists l', mapM_outcome f l = Ok l'.
Proof.
  induction 1 as [|a l [b Hb] _ [l' IH]]; simpl; [eauto|].
  rewrite Hb. simpl. rewrite IH. simpl. eauto.
Qed.

Lemma filterM_outcome_total {A : Type} (f : A -> outcome bool) (l : list A) :
  Forall (fun a => exists b, f a = Ok b) l ->
  exists l', filterM_outcome f l = Ok l'.
Proof.
  induction 1 as [|a l [b Hb] _ [l' IH]]; simpl; [eauto|].
  rewrite Hb. simpl. rewrite IH. simpl. eauto.
Qed.

Lemma sequence_map_of_int (departures : list dict) (k v : value) :
  Forall well_formed_departure departures ->
  pymap_lookup (sequence_map_of departures) k = Some v ->
  exists n, v = VInt n.
Proof.
  unfold sequence_map_of. intros Hwf.
  assert (Hgen : forall acc : pymap value,
             (forall v', pymap_lookup acc k = Some v' -> exists n, v' = VInt n) ->
             pymap_lookup
               (fold_left
                  (fun sequence_map departure =>
                     let stop_id := dict_get departure "stop_id" in
                     let sequence := dict_get departure "stop_sequence" in
                     if negb (is_none stop_id) && negb (is_none sequence)
                     then pymap_set sequence_map stop_id sequence
                     else sequence_map) departures acc) k = Some v ->
             exists n, v = VInt n).
  { induction Hwf as [|d departures Hd _ IH]; simpl; intros acc Hacc H.
    - apply Hacc, H.
    - eapply IH; [|exact H]. intros v' Hv'.
      destruct (negb (is_none (dict_get d "stop_id"))
                && negb (is_none (dict_get d "stop_sequence"))) eqn:Hc;
        [|apply Hacc, Hv'].
      apply andb_prop in Hc as [_ Hseq].
      apply pymap_lookup_set in Hv' as [->|Hv']; [|apply Hacc, Hv'].
      destruct Hd as [Hd|Hd]; [|exact Hd].
      rewrite Hd in Hseq. discriminate. }
  apply Hgen. simpl. discriminate.
Qed.

Lemma get_sequence_map_int (w : world) (route_id route_type : Z)
    (direction_id k v : value) :
  well_formed_world w ->
  pymap_lookup (get_sequence_map w route_id route_type direction_id) k
  = Some v ->
  exists n, v = VInt n.
Proof.
  intros (_ & _ & Hpat & _). unfold get_sequence_map.
  destruct (http_pattern w route_id route_type direction_id) as [r|] eqn:Hr;
    [|discriminate].
  destruct (pr_departures r) as [departures|] eqn:Hd; [|discriminate].
  apply sequence_map_of_int. eapply Hpat; eassumption.
Qed.

Lemma assign_sequence_total (sequence_map : pymap value) (stop : dict) :
  (forall k v, pymap_lookup sequence_map k = Some v -> exists n, v = VInt n) ->
  is_Some (stop !! "stop_id") ->
  int_or_none (dict_get stop "stop_sequence") ->
  exists n,
    assign_sequence sequence_map stop
    = Ok (<["absolute_sequence" := VInt n]> stop).
Proof.
  intros Hmap [stop_id Hid] Hseq. unfold assign_sequence, getitem.
  rewrite Hid. simpl. unfold pymap_get.
  destruct (pymap_lookup sequence_map stop_id) as [v|] eqn:Hv; simpl.
  - destruct (Hmap _ _ Hv) as [n ->]. simpl. eauto.
  - destruct Hseq as [->|[n ->]]; simpl; [eauto|].
    destruct (bool_decide (0 < n)%Z); eauto.
Qed.

Lemma get_stop_details_well_formed (w : world) (stop_id : value)
    (route_type : Z) (c : cache) :
  well_formed_world w -> well_formed_cache c ->
  exists details c',
    get_stop_details w stop_id route_type c = (Ok details, c')
    /\ well_formed_cache c'
    /\ forall r, details = Some r -> well_formed_details r.
Proof.
  intros (_ & _ & _ & _ & Hdet) [Hcd Hcs]. unfold get_stop_details.
  destruct (stop_details_cache c !! stop_details_key stop_id route_type)
    as [cached|] eqn:Hc.
  - eexists _, _. split; [reflexivity|]. split; [split; assumption|].
    intros r Hr. inversion Hr; subst. eapply Hcs, Hc.
  - destruct (http_stop_details w stop_id route_type) as [data|] eqn:Hd.
    + eexists _, _. split; [reflexivity|]. split.
      * split; [exact Hcd|]. simpl. intros key r.
        destruct (decide (stop_details_key stop_id route_type = key))
          as [<-|Hne].
        -- rewrite lookup_insert_eq. intros Hr. inversion Hr; subst.
           eapply Hdet, Hd.
        -- rewrite lookup_insert_ne by exact Hne. apply Hcs.
      * intros r Hr. inversion Hr; subst. eapply Hdet, Hd.
    + eexists _, _. split; [reflexivity|]. split; [split; assumption|].
      discriminate.
Qed.

Lemma enrich_well_formed (stop : dict)
    (details : option stop_details_response) :
  well_formed_stop stop ->
  (forall r, details = Some r -> well_formed_details r) ->
  well_formed_stop (enrich stop details).
Proof.
  intros Hstop Hdet. unfold enrich.
  destruct details as [r|]; [|exact Hstop].
  destruct (sd_stop r) as [d|] eqn:Hd; [|exact Hstop].
  destruct (Hdet r eq_refl d Hd) as [Hname Hseq].
  destruct Hstop as ([sid Hsid] & (n & Hn & Hnn) & Hs).
  unfold dict_update, well_formed_stop, named, dict_get.
  rewrite !lookup_union. split; [|split].
  - rewrite Hsid. destruct (d !! "stop_id"); simpl; eauto.
  - rewrite Hn. destruct (d !! "stop_name") as [n'|] eqn:Hn'; simpl.
    + exists n'. split; [reflexivity|]. apply Hname. reflexivity.
    + exists n. split; [reflexivity | exact Hnn].
  - unfold dict_get in Hs.
    destruct (d !! "stop_sequence") as [v|] eqn:Hv; simpl.
    + destruct (stop !! "stop_sequence"); simpl; apply Hseq; reflexivity.
    + destruct (stop !! "stop_sequence"); exact Hs.
Qed.

Lemma process_stop_total (w : world) (route_type : Z) (direction : dict)
    (direction_id : value) (sequence_map : pymap value) (stop : dict)
    (c : cache) :
  well_formed_world w -> well_formed_cache c ->
  well_formed_direction direction ->
  (forall k v, pymap_lookup sequence_map k = Some v -> exists n, v = VInt n) ->
  well_formed_stop stop ->
  exists stop' c',
    process_stop w route_type direction direction_id sequence_map stop c
    = (Ok stop', c')
    /\ well_formed_cache c' /\ processed stop'.
Proof.
  intros Hw Hc [_ [name Hname]] Hmap Hstop.
  set (stop1 := <["direction_name" := name]>
                  (<["direction_id" := direction_id]> stop)).
  assert (Hstop1 : well_formed_stop stop1).
  { destruct Hstop as (Hsid & (n & Hn & Hnn) & Hs).
    unfold well_formed_stop, named, dict_get, stop1.
    rewrite !lookup_insert_ne by discriminate.
    split; [exact Hsid|]. split; [eauto | exact Hs]. }
  destruct Hstop1 as ([sid Hsid] & Hnamed & Hs) eqn:Hkeep. clear Hkeep.
  destruct (get_stop_details_well_formed w sid route_type c Hw Hc)
    as (details & c' & Hdet & Hc' & Hwfd).
  assert (Hen : well_formed_stop (enrich stop1 details)).
  { apply enrich_well_formed; [|exact Hwfd].
    split; [eauto|]. split; assumption. }
  destruct Hen as (Hid & (n & Hn & Hnn) & Hseq).
  destruct (assign_sequence_total sequence_map _ Hmap Hid Hseq) as [a Ha].
  exists (<["absolute_sequence" := VInt a]> (enrich stop1 details)), c'.
  split; [|split; [exact Hc'|]].
  - unfold process_stop, mbind at 1 2 3 4 5, M_bind, lift, getitem.
    rewrite Hname. fold stop1. rewrite Hsid, Hdet, Ha.
    rewrite lookup_insert_ne by discriminate. rewrite Hn. reflexivity.
  - split.
    + exists n. rewrite lookup_insert_ne by discriminate. auto.
    + exists a. apply lookup_insert_eq.
Qed.

Lemma mapM_process_stop_total (w : world) (route_type : Z) (direction : dict)
    (direction_id : value) (sequence_map : pymap value) (stops : list dict)
    (c : cache) :
  well_formed_world w -> well_formed_cache c ->
  well_formed_direction direction ->
  (forall k v, pymap_lookup sequence_map k = Some v -> exists n, v = VInt n) ->
  Forall well_formed_stop stops ->
  exists stops' c',
    mapM_M (process_stop w route_type direction direction_id sequence_map)
      stops c = (Ok stops', c')
    /\ well_formed_cache c' /\ Forall processed stops'.
Proof.
  intros Hw Hc Hdir Hmap Hstops. revert c Hc.
  induction Hstops as [|stop stops Hstop _ IH]; intros c Hc; simpl.
  - exists [], c. split; [reflexivity|]. split; [exact Hc | constructor].
  - destruct (process_stop_total w route_type direction direction_id
                sequence_map stop c Hw Hc Hdir Hmap Hstop)
      as (stop' & c1 & H1 & Hc1 & Hp).
    destruct (IH c1 Hc1) as (stops' & c2 & H2 & Hc2 & Hps).
    exists (stop' :: stops'), c2.
    split; [|split; [exact Hc2 | constructor; assumption]].
    unfold mbind at 1, M_bind. rewrite H1.
    unfold mbind at 1, M_bind. rewrite H2. reflexivity.
Qed.

Lemma sort_and_filter_total (stops : list dict) :
  Forall processed stops -> exists valid, sort_and_filter stops = Ok valid.
Proof.
  intros Hp. unfold sort_and_filter.
  destruct (mapM_outcome_total
              (fun s => k ← getitem s "absolute_sequence"; Ok (k, s)) stops)
    as [keyed Hkeyed].
  { eapply Forall_impl; [exact Hp|]. intros s [_ [n Hn]].
    unfold getitem. rewrite Hn. simpl. eauto. }
  rewrite Hkeyed. simpl.
  assert (Hk : Forall (fun p : value * dict =>
                         is_num (fst p) = true /\ processed (snd p)) keyed).
  { apply mapM_outcome_Forall2 in Hkeyed. revert Hp.
    induction Hkeyed as [|s p l l' Hs _ IH]; intros Hp; [constructor|].
    apply Forall_cons in Hp as [Hps Hp].
    constructor; [|apply IH, Hp].
    destruct Hps as [Hnamed [n Hn]]. unfold getitem in Hs.
    rewrite Hn in Hs. simpl in Hs. inversion Hs; subst. simpl.
    split; [reflexivity|]. split; [exact Hnamed | eauto]. }
  unfold sort_by_key.
  assert (Hnum : forallb (fun p : value * dict => is_num (fst p)) keyed
                 = true).
  { apply forallb_forall. intros p Hin. apply list_elem_of_In in Hin.
    rewrite Forall_forall in Hk. apply (Hk p Hin). }
  rewrite Hnum, orb_true_r. simpl.
  set (sorted := stable_sort _ keyed).
  assert (Hs : Forall processed (map snd sorted)).
  { apply Forall_fmap. unfold sorted. rewrite stable_sort_perm.
    eapply Forall_impl; [exact Hk|]. intros p [_ H]. exact H. }
  destruct (mapM_outcome_total
              (fun s => n ← getitem s "stop_name"; format_left n)
              (map snd sorted)) as [names Hnames].
  { eapply Forall_impl; [exact Hs|]. intros s [(n & Hn & Hnn) _].
    unfold getitem. rewrite Hn. simpl. unfold format_left.
    destruct n; [congruence | eauto | eauto | eauto]. }
  rewrite Hnames. simpl.
  apply filterM_outcome_total.
  eapply Forall_impl; [exact Hs|]. intros s [_ [n Hn]].
  unfold is_valid, getitem. rewrite Hn. simpl. eauto.
Qed.

Lemma process_direction_total (w : world) (route_id route_type : Z)
    (stops_by_dir : pymap (list dict)) (direction : dict) (c : cache) :
  well_formed_world w -> well_formed_cache c ->
  well_formed_direction direction ->
  exists r c',
    process_direction w route_id route_type stops_by_dir direction c
    = (Ok r, c')
    /\ well_formed_cache c'.
Proof.
  intros Hw Hc Hdir.
  destruct Hdir as [[direction_id Hid] [name Hname]] eqn:Hkeep. clear Hkeep.
  unfold process_direction, mbind at 1 2, M_bind, lift, getitem.
  rewrite Hid, Hname.
  destruct (http_stops w route_id route_type direction_id) as [resp|] eqn:Hr.
  2: { eexists _, _. split; [reflexivity | exact Hc]. }
  destruct (sr_stops resp) as [stops|] eqn:Hstops.
  2: { eexists _, _. split; [reflexivity | exact Hc]. }
  assert (Hwf : Forall well_formed_stop stops).
  { destruct Hw as (_ & _ & _ & Hst & _). eapply Hst; eassumption. }
  destruct (mapM_process_stop_total w route_type direction direction_id
              (get_sequence_map w route_id route_type direction_id) stops c
              Hw Hc Hdir
              (fun k v => get_sequence_map_int w _ _ _ k v Hw) Hwf)
    as (stops' & c' & Hmap & Hc' & Hp).
  destruct (sort_and_filter_total stops' Hp) as [valid Hvalid].
  eexists _, c'. split; [|exact Hc'].
  unfold mbind at 1, M_bind. rewrite Hmap.
  unfold mbind, M_bind, lift. rewrite Hvalid. reflexivity.
Qed.

Lemma directions_loop_total (w : world) (route_id route_type : Z)
    (dirs : list dict) (stops_by_dir : pymap (list dict)) (c : cache) :
  well_formed_world w -> well_formed_cache c ->
  Forall well_formed_direction dirs ->
  exists r c',
    directions_loop w route_id route_type dirs stops_by_dir c = (Ok r, c').
Proof.
  intros Hw Hc Hdirs. revert stops_by_dir c Hc.
  induction Hdirs as [|direction dirs Hdir _ IH]; intros stops_by_dir c Hc;
    simpl.
  - eexists _, _. reflexivity.
  - destruct (process_direction_total w route_id route_type stops_by_dir
                direction c Hw Hc Hdir) as (r & c1 & H1 & Hc1).
    unfold mbind, M_bind. rewrite H1.
    destruct r as [next|]; [apply IH, Hc1|].
    eexists _, _. reflexivity.
Qed.

(** On upstream data that follow the schema, [get_route_stops] raises no
    exception. *)
Lemma get_route_stops_total (w : world) (route_id route_type : Z)
    (c : cache) :
  well_formed_world w -> well_formed_cache c ->
  exists r c', get_route_stops w route_id route_type c = (Ok r, c').
Proof.
  intros Hw Hc. unfold get_route_stops.
  destruct (stops_route_cache c !! stops_route_key route_id route_type);
    [eexists _, _; reflexivity|].
  assert (Hname : exists n, get_route_name w route_id = Ok n).
  { unfold get_route_name.
    destruct (http_route w route_id) as [rd|] eqn:Hrd; [|eauto].
    destruct (rr_route rd) as [route|] eqn:Hroute; [|eauto].
    destruct Hw as (Hroute_wf & _).
    destruct (Hroute_wf _ _ _ Hrd Hroute) as [n Hn].
    unfold getitem. rewrite Hn. eauto. }
  destruct Hname as [n Hn].
  unfold mbind at 1, M_bind, lift. rewrite Hn.
  assert (Hdirs : exists dd c1,
             get_route_directions w route_id c = (Ok dd, c1)
             /\ well_formed_cache c1
             /\ forall r, dd = Some r -> well_formed_directions r).
  { unfold get_route_directions. destruct Hc as [Hcd Hcs].
    destruct Hw as (_ & Hwd & _).
    destruct (directions_cache c !! directions_route_key route_id)
      as [cached|] eqn:Hcached.
    - eexists _, _. split; [reflexivity|]. split; [split; assumption|].
      intros r Hr. inversion Hr; subst. eapply Hcd, Hcached.
    - destruct (http_directions w route_id) as [data|] eqn:Hdata.
      + eexists _, _. split; [reflexivity|]. split.
        * split; [|exact Hcs]. simpl. intros key r.
          destruct (decide (directions_route_key route_id = key))
            as [<-|Hne].
          -- rewrite lookup_insert_eq. intros Hr. inversion Hr; subst.
             eapply Hwd, Hdata.
          -- rewrite lookup_insert_ne by exact Hne. apply Hcd.
        * intros r Hr. inversion Hr; subst. eapply Hwd, Hdata.
      + eexists _, _. split; [reflexivity|]. split; [split; assumption|].
        discriminate. }
  destruct Hdirs as (dd & c1 & Hdd & Hc1 & Hwfd).
  unfold mbind at 1, M_bind. rewrite Hdd.
  destruct dd as [directions_data|]; simpl; [|eexists _, _; reflexivity].
  destruct (dr_directions directions_data) as [dirs|] eqn:Hd; simpl;
    [|eexists _, _; reflexivity].
  pose proof (Hwfd _ eq_refl dirs Hd) as Hwf.
  destruct (mapM_outcome_total
              (fun direction =>
                 _ ← getitem direction "direction_name";
                 getitem direction "direction_id") dirs) as [checked Hchk].
  { eapply Forall_impl; [exact Hwf|]. intros d [[i Hi] [m Hm]].
    unfold getitem. rewrite Hm, Hi. simpl. eauto. }
  unfold mbind at 1, M_bind, lift. rewrite Hchk.
  destruct (directions_loop_total w route_id route_type dirs [] c1 Hw Hc1 Hwf)
    as (r & c2 & Hloop).
  unfold mbind at 1, M_bind. rewrite Hloop.
  destruct r as [stops_by_dir|]; eexists _, _; reflexivity.
Qed.

(** ** Failure of a stop-list request *)

Lemma process_direction_fetched (w : world) (route_id route_type : Z)
    (stops_by_dir stops_by_dir' : pymap (list dict)) (direction : dict)
    (c c' : cache) :
  process_direction w route_id route_type stops_by_dir direction c
  = (Ok (Some stops_by_dir'), c') ->
  stops_fetched w route_id route_type direction.
Proof.
  unfold process_direction. intros H.
  apply M_bind_Ok in H as (direction_id & c1 & Hid & H).
  apply lift_inv in Hid as [Hid _]. symmetry in Hid. apply getitem_Ok in Hid.
  apply M_bind_Ok in H as (name & c2 & _ & H).
  exists direction_id. split; [exact Hid|].
  destruct (http_stops w route_id route_type direction_id) as [resp|];
    [eauto|].
  apply mret_inv in H as [H _]. discriminate.
Qed.

Lemma directions_loop_fetched (w : world) (route_id route_type : Z)
    (dirs : list dict) (stops_by_dir stops_by_dir' : pymap (list dict))
    (c c' : cache) :
  directions_loop w route_id route_type dirs stops_by_dir c
  = (Ok (Some stops_by_dir'), c') ->
  Forall (stops_fetched w route_id route_type) dirs.
Proof.
  revert stops_by_dir c. induction dirs as [|direction dirs IH];
    intros stops_by_dir c H; simpl in H; [constructor|].
  apply M_bind_Ok in H as ([next|] & c1 & Hdir & H).
  - constructor; [eapply process_direction_fetched, Hdir | eapply IH, H].
  - apply mret_inv in H as [H _]. discriminate.
Qed.

Lemma outcome_option_cases {A : Type} (r : outcome (option A)) :
  (forall a, r <> Ok (Some a)) -> r = Ok None \/ exists e, r = Raise e.
Proof.
  destruct r as [[a|]|e]; intros H; [destruct (H a); reflexivity | auto | eauto].
Qed.

(** C5. When the stop-list request of one direction of the route fails, a
    call that computes the route stops (the key is not cached) yields no
    result, not even for the directions that succeeded: it returns [None],
    unless an uncaught exception ended it before; and on upstream data that
    follow the schema no exception is raised, so that it returns [None]. *)
Theorem C5_failed_stop_list_aborts (w : world) (route_id route_type : Z)
    (c c0 c' : cache) (directions_data : directions_response)
    (dirs : list dict) (direction : dict) (direction_id : value)
    (r : outcome (option stops_data)) :
  stops_route_cache c !! stops_route_key route_id route_type = None ->
  get_route_directions w route_id c = (Ok (Some directions_data), c0) ->
  dr_directions directions_data = Some dirs ->
  direction ∈ dirs ->
  direction !! "direction_id" = Some direction_id ->
  http_stops w route_id route_type direction_id = None ->
  get_route_stops w route_id route_type c = (r, c') ->
  (r = Ok None \/ exists e, r = Raise e)
  /\ (well_formed_world w -> well_formed_cache c -> r = Ok None).
Proof.
  intros Hmiss Hdd Hdirs Hin Hid Hfail H.
  assert (Hno : forall d, r <> Ok (Some d)).
  { intros d Hr.
    apply (get_route_stops_fresh _ _ _ _ _ _ Hmiss) in H
      as [[_ Hno]|(rn & dd & dirs' & sbd & c1 & c2 & c3 & _ & Hdd' & Hdirs'
                   & _ & Hloop & _ & _)].
    - apply (Hno d), Hr.
    - rewrite Hdd in Hdd'. inversion Hdd'; subst dd c1.
      rewrite Hdirs in Hdirs'. inversion Hdirs'; subst dirs'.
      apply directions_loop_fetched in Hloop.
      rewrite Forall_forall in Hloop.
      destruct (Hloop direction Hin) as (did & Hdid & Hsome).
      rewrite Hid in Hdid. inversion Hdid; subst did.
      rewrite Hfail in Hsome. destruct Hsome as [x Hx]. discriminate. }
  split; [apply outcome_option_cases, Hno|].
  intros Hw Hc.
  destruct (get_route_stops_total w route_id route_type c Hw Hc)
    as (r' & c'' & Hr').
  rewrite Hr' in H. inversion H; subst.
  destruct r' as [d|]; [destruct (Hno d); reflexivity | reflexivity].
Qed.

(** C10. The cache entry of a route is written only by a call that
    succeeds for every direction: a call that returns the failure signal
    leaves the cached route stops as they were, and a call that changes
    them returns the result it stored, computed from a stop list fetched
    for each direction. *)
Theorem C10_cache_written_on_success_only (w : world)
    (route_id route_type : Z) (c c' : cache)
    (r : outcome (option stops_data)) :
  get_route_stops w route_id route_type c = (r, c') ->
  (r = Ok None -> stops_route_cache c' = stops_route_cache c)
  /\ (stops_route_cache c' <> stops_route_cache c ->
      exists d,
        r = Ok (Some d)
        /\ stops_route_cache c !! stops_route_key route_id route_type = None
        /\ stops_route_cache c'
           = <[stops_route_key route_id route_type := d]>
               (stops_route_cache c)
        /\ Forall (stops_fetched w route_id route_type) (directions d)).
Proof.
  intros H.
  destruct (stops_route_cache c !! stops_route_key route_id route_type)
    as [cached|] eqn:Hc.
  - unfold get_route_stops in H. rewrite Hc in H. inversion H; subst.
    split; [reflexivity|]. intros Hne. destruct Hne. reflexivity.
  - apply (get_route_stops_fresh _ _ _ _ _ _ Hc) in H
      as [[Hsame _]|(rn & dd & dirs & sbd & c0 & c1 & c2 & _ & _ & _ & _
                     & Hloop & Hr & Hc')].
    + split; [intros _; exact Hsame|]. intros Hne. destruct (Hne Hsame).
    + subst r. split; [discriminate|]. intros _.
      eexists. split; [reflexivity|]. split; [reflexivity|].
      split; [exact Hc'|]. simpl.
      eapply directions_loop_fetched, Hloop.
Qed.

(** ** Failures that are not fatal *)

Lemma get_sequence_map_failed (w : world) (route_id route_type : Z)
    (direction_id : value) :
  http_pattern w route_id route_type direction_id = None ->
  get_sequence_map w route_id route_type direction_id = [].
Proof. unfold get_sequence_map. intros ->. reflexivity. Qed.

Lemma get_sequence_map_fallback (w : world) (route_id route_type : Z)
    (direction_id : value) :
  get_sequence_map (pattern_failures_as_empty w) route_id route_type
    direction_id
  = get_sequence_map w route_id route_type direction_id.
Proof.
  unfold get_sequence_map. simpl.
  destruct (http_pattern w route_id route_type direction_id); reflexivity.
Qed.

Lemma process_direction_fallback (w : world) (route_id route_type : Z)
    (stops_by_dir : pymap (list dict)) (direction : dict) (c : cache) :
  process_direction (pattern_failures_as_empty w) route_id route_type
    stops_by_dir direction c
  = process_direction w route_id route_type stops_by_dir direction c.
Proof.
  unfold process_direction, mbind, M_bind, lift.
  destruct (getitem direction "direction_id") as [direction_id|];
    [|reflexivity].
  destruct (getitem direction "direction_name"); [|reflexivity].
  rewrite get_sequence_map_fallback. reflexivity.
Qed.

Lemma directions_loop_fallback (w : world) (route_id route_type : Z)
    (dirs : list dict) (stops_by_dir : pymap (list dict)) (c : cache) :
  directions_loop (pattern_failures_as_empty w) route_id route_type dirs
    stops_by_dir c
  = directions_loop w route_id route_type dirs stops_by_dir c.
Proof.
  revert stops_by_dir c. induction dirs as [|direction dirs IH];
    intros stops_by_dir c; simpl; [reflexivity|].
  unfold mbind, M_bind. rewrite process_direction_fallback.
  destruct (process_direction w route_id route_type stops_by_dir direction c)
    as [[[next|]|e] c1]; [apply IH | reflexivity | reflexivity].
Qed.

Lemma get_route_stops_fallback (w : world) (route_id route_type : Z)
    (c : cache) :
  get_route_stops (pattern_failures_as_empty w) route_id route_type c
  = get_route_stops w route_id route_type c.
Proof.
  unfold get_route_stops.
  destruct (stops_route_cache c !! stops_route_key route_id route_type);
    [reflexivity|].
  unfold mbind, M_bind, lift.
  change (get_route_name (pattern_failures_as_empty w) route_id)
    with (get_route_name w route_id).
  destruct (get_route_name w route_id) as [route_name|]; [|reflexivity].
  change (get_route_directions (pattern_failures_as_empty w) route_id c)
    with (get_route_directions w route_id c).
  destruct (get_route_directions w route_id c) as [[[dd|]|e] c0];
    simpl; try reflexivity.
  destruct (dr_directions dd) as [dirs|]; simpl; [|reflexivity].
  destruct (mapM_outcome _ dirs); [|reflexivity].
  rewrite directions_loop_fallback. reflexivity.
Qed.

Lemma process_stop_details_failed (w : world) (route_type : Z)
    (direction : dict) (direction_id : value) (sequence_map : pymap value)
    (stop : dict) (direction_name stop_id : value) (c : cache) :
  direction !! "direction_name" = Some direction_name ->
  stop !! "stop_id" = Some stop_id ->
  stop_details_cache c !! stop_details_key stop_id route_type = None ->
  http_stop_details w stop_id route_type = None ->
  get_stop_details w stop_id route_type c = (Ok None, c)
  /\ process_stop w route_type direction direction_id sequence_map stop c
     = (stop' ← assign_sequence sequence_map
                  (<["direction_name" := direction_name]>
                     (<["direction_id" := direction_id]> stop));
        _ ← getitem stop' "stop_name";
        Ok stop', c).
Proof.
  intros Hname Hid Hmiss Hfail.
  assert (Hdet : get_stop_details w stop_id route_type c = (Ok None, c)).
  { unfold get_stop_details. rewrite Hmiss, Hfail. reflexivity. }
  split; [exact Hdet|].
  unfold process_stop, mbind at 1 2 3 4 5, M_bind, lift, getitem.
  rewrite Hname.
  rewrite !lookup_insert_ne by discriminate. rewrite Hid, Hdet. simpl.
  destruct (assign_sequence _ _) as [stop'|e]; simpl; [|reflexivity].
  destruct (stop' !! "stop_name"); reflexivity.
Qed.

(** C8. A failed pattern request is not fatal: the direction is processed
    with an empty sequence map, as if the response had no departures.  A
    failed request of the details of a stop is not fatal: the stop is
    processed as it is, without enrichment, and the cache is left as it
    was. *)
Theorem C8_pattern_and_details_failures_not_fatal (w : world) :
  (forall route_id route_type direction_id,
      http_pattern w route_id route_type direction_id = None ->
      get_sequence_map w route_id route_type direction_id = [])
  /\ (forall route_id route_type c,
         get_route_stops (pattern_failures_as_empty w) route_id route_type c
         = get_route_stops w route_id route_type c)
  /\ (forall route_type direction direction_id sequence_map stop
             direction_name stop_id c,
         direction !! "direction_name" = Some direction_name ->
         stop !! "stop_id" = Some stop_id ->
         stop_details_cache c !! stop_details_key stop_id route_type = None ->
         http_stop_details w stop_id route_type = None ->
         process_stop w route_type direction direction_id sequence_map stop c
         = (stop' ← assign_sequence sequence_map
                      (<["direction_name" := direction_name]>
                         (<["direction_id" := direction_id]> stop));
            _ ← getitem stop' "stop_name";
            Ok stop', c)).
Proof.
  split; [|split].
  - apply get_sequence_map_failed.
  - apply get_route_stops_fallback.
  - intros. eapply process_stop_details_failed; eassumption.
Qed.

(** ** Proximity matching *)

Lemma gig_step_spec (stop_lat stop_lon : R) (acc l : list nearby_gig)
    (g : gig) :
  gig_step stop_lat stop_lon acc g = Ok l ->
  l = acc
  \/ exists latitude longitude lat lon,
       gig_venue g !! "latitude" = Some latitude
       /\ gig_venue g !! "longitude" = Some longitude
       /\ py_float latitude = Ok lat
       /\ py_float longitude = Ok lon
       /\ (calculate_distance stop_lat stop_lon lat lon <= 500)%R
       /\ l = acc ++ [{| ng_gig := g;
                         distance_meters :=
                           calculate_distance stop_lat stop_lon lat lon |}].
Proof.
  unfold gig_step. intros H.
  destruct (gig_venue g !! "latitude") as [latitude|];
    [|inversion H; left; reflexivity].
  destruct (gig_venue g !! "longitude") as [longitude|];
    [|inversion H; left; reflexivity].
  apply bind_Ok in H as (lat & Hlat & H).
  apply bind_Ok in H as (lon & Hlon & H).
  destruct (bool_decide (calculate_distance stop_lat stop_lon lat lon <= 500)%R)
    eqn:Hd; inversion H; subst; [|left; reflexivity].
  right. apply bool_decide_eq_true_1 in Hd.
  exists latitude, longitude, lat, lon. repeat split; auto.
Qed.

Lemma foldM_gig_step_spec (stop_lat stop_lon : R) (gigs : list gig)
    (acc l : list nearby_gig) :
  foldM_outcome (gig_step stop_lat stop_lon) gigs acc = Ok l ->
  forall n, n ∈ l ->
    n ∈ acc
    \/ (ng_gig n ∈ gigs
        /\ exists latitude longitude lat lon,
             gig_venue (ng_gig n) !! "latitude" = Some latitude
             /\ gig_venue (ng_gig n) !! "longitude" = Some longitude
             /\ py_float latitude = Ok lat
             /\ py_float longitude = Ok lon
             /\ distance_meters n
                = calculate_distance stop_lat stop_lon lat lon
             /\ (distance_meters n <= 500)%R).
Proof.
  revert acc. induction gigs as [|g gigs IH]; simpl; intros acc H n Hn.
  - inversion H; subst. left. exact Hn.
  - apply bind_Ok in H as (acc' & Hstep & H).
    destruct (IH _ H n Hn) as [Hacc|[Hin Hrest]].
    + apply gig_step_spec in Hstep
        as [->|(la & lo & lat & lon & H1 & H2 & H3 & H4 & H5 & ->)].
      * left. exact Hacc.
      * apply elem_of_app in Hacc as [Hacc|Hnew]; [left; exact Hacc|].
        apply list_elem_of_singleton in Hnew. subst n. simpl. right.
        split; [left|]. exists la, lo, lat, lon. repeat split; auto.
    + right. split; [right; exact Hin | exact Hrest].
Qed.

Lemma nearby_gigs_of_spec (stop : dict) (gigs : list gig)
    (l : list nearby_gig) :
  nearby_gigs_of stop gigs = Ok l ->
  forall n, n ∈ l -> ng_gig n ∈ gigs /\ attached_within stop n.
Proof.
  unfold nearby_gigs_of. intros H n Hn.
  apply bind_Ok in H as (stop_lat & Hlat & H).
  apply bind_Ok in H as (stop_lon & Hlon & H).
  destruct (foldM_gig_step_spec _ _ _ _ _ H n Hn)
    as [Hnil|[Hin (la & lo & lat & lon & H1 & H2 & H3 & H4 & H5 & H6)]].
  - apply elem_of_nil in Hnil. destruct Hnil.
  - split; [exact Hin|].
    exists stop_lat, stop_lon, la, lo, lat, lon. repeat split; auto.
Qed.

Lemma sort_by_distance_perm (l : list nearby_gig) : sort_by_distance l ≡ₚ l.
Proof. apply stable_sort_perm. Qed.

Lemma sort_by_distance_sorted (l : list nearby_gig) :
  StronglySorted by_distance (sort_by_distance l).
Proof.
  unfold sort_by_distance.
  set (ltb := fun a b : nearby_gig =>
                bool_decide (distance_meters a < distance_meters b)%R).
  apply (StronglySorted_impl_on (not_after ltb) _ (fun _ => True)).
  - intros a b _ _. unfold not_after, ltb, by_distance. intros H.
    apply bool_decide_eq_false_1 in H. lra.
  - apply Forall_forall. auto.
  - apply (stable_sort_strongly ltb (fun _ => True)).
    + intros a b _ _. unfold ltb. intros H.
      apply bool_decide_eq_true_1 in H. apply bool_decide_eq_false_2. lra.
    + intros a b d _ _ _. unfold not_after, ltb. intros H1 H2.
      apply bool_decide_eq_false_1 in H1, H2.
      apply bool_decide_eq_false_2. lra.
    + apply Forall_forall. auto.
Qed.

Lemma find_nearby_loop_spec (stops : list dict) (gigs : list gig)
    (acc res : list stop_with_gigs * bool) :
  find_nearby_loop stops gigs acc = Ok res ->
  Forall (fun s => exists l, nearby_gigs_of s gigs = Ok l) stops
  /\ res = (fst acc
            ++ map (with_nearby gigs) (List.filter (has_nearby gigs) stops),
            snd acc || existsb (has_nearby gigs) stops).
Proof.
  revert acc res. induction stops as [|stop stops IH]; simpl;
    intros acc res H.
  - inversion H; subst. split; [constructor|].
    rewrite app_nil_r, orb_false_r. destruct res; reflexivity.
  - apply bind_Ok in H as (nearby & Hnear & H).
    destruct (IH _ _ H) as [Hall ->].
    split; [constructor; [eauto | exact Hall]|].
    assert (Hret : retained stop gigs = nearby).
    { unfold retained. rewrite Hnear. reflexivity. }
    replace (has_nearby gigs stop) with (negb (is_empty nearby))
      by (unfold has_nearby; rewrite Hret; reflexivity).
    unfold attach.
    destruct nearby as [|n nearby]; simpl; [reflexivity|].
    rewrite <- app_assoc. simpl. unfold with_nearby at 2.
    rewrite Hret, orb_true_r. reflexivity.
Qed.

Lemma has_nearby_retained (gigs : list gig) (stop : dict) :
  has_nearby gigs stop = true <-> retained stop gigs <> [].
Proof.
  unfold has_nearby. destruct (retained stop gigs); simpl; split; congruence.
Qed.

Lemma py_float_num (v : value) :
  is_num v = true -> exists x, py_float v = Ok x.
Proof. destruct v; simpl; try discriminate; eauto. Qed.

(** With numeric coordinates the matcher raises no exception. *)
Lemma find_nearby_gigs_for_stops_total (stops : list dict)
    (gigs : list gig) :
  Forall has_coordinates stops -> Forall numeric_venue gigs ->
  exists out any, find_nearby_gigs_for_stops stops gigs = Ok (out, any).
Proof.
  intros Hstops Hgigs.
  assert (Hfold : forall stop_lat stop_lon acc,
             exists l, foldM_outcome (gig_step stop_lat stop_lon) gigs acc
                       = Ok l).
  { intros stop_lat stop_lon.
    induction Hgigs as [|g gigs Hg _ IH]; intros acc; simpl; [eauto|].
    assert (Hstep : exists acc', gig_step stop_lat stop_lon acc g = Ok acc').
    { unfold gig_step. cbv zeta. unfold numeric_venue in Hg.
      destruct (gig_venue g !! "latitude") as [la|]; [|eauto].
      destruct (gig_venue g !! "longitude") as [lo|]; [|eauto].
      destruct (Hg la lo eq_refl eq_refl) as [Hla Hlo].
      destruct (py_float_num la Hla) as [x ->].
      destruct (py_float_num lo Hlo) as [y ->]. simpl.
      destruct (bool_decide _); eauto. }
    destruct Hstep as [acc' ->]. simpl. apply IH. }
  unfold find_nearby_gigs_for_stops.
  generalize (@nil stop_with_gigs, false).
  induction Hstops as [|stop stops Hstop _ IH]; intros acc; simpl.
  - destruct acc. eauto.
  - destruct Hstop as (la & lo & Hla & Hlo & Hnla & Hnlo).
    unfold nearby_gigs_of, getitem. rewrite Hla, Hlo.
    destruct (py_float_num la Hnla) as [x Hx].
    destruct (py_float_num lo Hnlo) as [y Hy].
    cbn [mbind outcome_bind]. rewrite Hx. cbn [mbind outcome_bind].
    rewrite Hy. cbn [mbind outcome_bind].
    destruct (Hfold x y []) as [l ->]. cbn [mbind outcome_bind].
    apply IH.
Qed.

(** C3. In proximity matching an event whose venue lacks a latitude or a
    longitude is attached to no stop, and every event attached to a stop is
    one of the given events, annotated with the distance computed from
    that stop to its venue, which is at most 500 meters. *)
Theorem C3_attached_events_have_coordinates_within_500
    (stops : list dict) (gigs : list gig) (out : list stop_with_gigs)
    (any : bool) :
  find_nearby_gigs_for_stops stops gigs = Ok (out, any) ->
  (forall swg n, swg ∈ out -> n ∈ nearby_gigs swg ->
      ng_gig n ∈ gigs /\ attached_within (swg_stop swg) n)
  /\ (forall g,
         gig_venue g !! "latitude" = None
         \/ gig_venue g !! "longitude" = None ->
         forall swg n, swg ∈ out -> n ∈ nearby_gigs swg -> ng_gig n <> g).
Proof.
  intros H.
  assert (Hatt : forall swg n, swg ∈ out -> n ∈ nearby_gigs swg ->
                   ng_gig n ∈ gigs /\ attached_within (swg_stop swg) n).
  { unfold find_nearby_gigs_for_stops in H.
    apply find_nearby_loop_spec in H as [Hall H]. inversion H; subst.
    clear H. simpl. intros swg n Hswg Hn.
    apply list_elem_of_fmap in Hswg as (stop & -> & Hstop).
    apply list_elem_of_In, filter_In in Hstop as [Hstop _].
    apply list_elem_of_In in Hstop.
    rewrite Forall_forall in Hall. destruct (Hall stop Hstop) as [l Hl].
    simpl in Hn |- *. rewrite sort_by_distance_perm in Hn.
    unfold retained in Hn. rewrite Hl in Hn.
    eapply nearby_gigs_of_spec; eassumption. }
  split; [exact Hatt|].
  intros g Hlacks swg n Hswg Hn Heq.
  destruct (Hatt swg n Hswg Hn)
    as [_ (sla & slo & la & lo & lat & lon & _ & _ & H1 & H2 & _)].
  rewrite Heq in H1, H2. destruct Hlacks; congruence.
Qed.

(** C4. The nearby events of each output stop are sorted ascending by the
    annotated distance; the output holds exactly the stops that have a
    non-empty list of retained events, in the order of the input; and the
    boolean is true if and only if some stop has a non-empty list. *)
Theorem C4_matches_sorted_and_flagged
    (stops : list dict) (gigs : list gig) (out : list stop_with_gigs)
    (any : bool) :
  find_nearby_gigs_for_stops stops gigs = Ok (out, any) ->
  Forall (fun swg => StronglySorted by_distance (nearby_gigs swg)) out
  /\ Forall (fun s => exists l, nearby_gigs_of s gigs = Ok l) stops
  /\ out = map (with_nearby gigs) (List.filter (has_nearby gigs) stops)
  /\ (any = true <-> exists s, s ∈ stops /\ retained s gigs <> [])
  /\ (any = true <-> exists swg, swg ∈ out /\ nearby_gigs swg <> []).
Proof.
  intros H. unfold find_nearby_gigs_for_stops in H.
  apply find_nearby_loop_spec in H as [Hall H]. inversion H; subst. clear H.
  simpl.
  assert (Hany : existsb (has_nearby gigs) stops = true
                 <-> exists s, s ∈ stops /\ retained s gigs <> []).
  { rewrite existsb_exists. split; intros (s & Hs & Hn); exists s.
    - split; [apply list_elem_of_In, Hs | apply has_nearby_retained, Hn].
    - split; [apply list_elem_of_In, Hs | apply has_nearby_retained, Hn]. }
  split; [|split; [exact Hall|split; [reflexivity|split; [exact Hany|]]]].
  - apply Forall_forall. intros swg Hswg.
    apply list_elem_of_fmap in Hswg as (stop & -> & _). simpl.
    apply sort_by_distance_sorted.
  - rewrite Hany. split.
    + intros (s & Hs & Hn). exists (with_nearby gigs s). split.
      * apply list_elem_of_fmap. exists s. split; [reflexivity|].
        apply list_elem_of_In, filter_In.
        split; [apply list_elem_of_In, Hs | apply has_nearby_retained, Hn].
      * simpl. intros Hnil. apply Hn.
        apply Permutation_nil_r. rewrite <- Hnil.
        symmetry. apply sort_by_distance_perm.
    + intros (swg & Hswg & Hn).
      apply list_elem_of_fmap in Hswg as (s & -> & Hs).
      apply list_elem_of_In, filter_In in Hs as [Hs Hnear].
      exists s. split; [apply list_elem_of_In, Hs|].
      apply has_nearby_retained, Hnear.
Qed.

(** ** The stops ahead *)

Lemma find_current_stop_Some (stops : list dict) (stop_id : Z)
    (current_stop : dict) :
  find_current_stop stops stop_id = Ok (Some current_stop) ->
  exists before after sid,
    stops = before ++ current_stop :: after
    /\ current_stop !! "stop_id" = Some sid
    /\ py_eqb sid (VInt stop_id) = true
    /\ Forall (fun s => exists id, s !! "stop_id" = Some id
                                   /\ py_eqb id (VInt stop_id) = false)
         before.
Proof.
  induction stops as [|stop stops IH]; simpl; intros H; [discriminate|].
  apply bind_Ok in H as (sid & Hsid & H). apply getitem_Ok in Hsid.
  destruct (py_eqb sid (VInt stop_id)) eqn:Heq.
  - inversion H; subst. exists [], stops, sid. simpl. auto.
  - destruct (IH H) as (before & after & sid' & -> & H1 & H2 & H3).
    exists (stop :: before), after, sid'. simpl.
    repeat split; auto. constructor; [eauto | exact H3].
Qed.

Lemma find_current_stop_None (stops : list dict) (stop_id : Z) :
  find_current_stop stops stop_id = Ok None ->
  Forall (fun s => exists id, s !! "stop_id" = Some id
                              /\ py_eqb id (VInt stop_id) = false) stops.
Proof.
  induction stops as [|stop stops IH]; simpl; intros H; [constructor|].
  apply bind_Ok in H as (sid & Hsid & H). apply getitem_Ok in Hsid.
  destruct (py_eqb sid (VInt stop_id)) eqn:Heq; [discriminate|].
  constructor; [eauto | apply IH, H].
Qed.

Lemma ahead_loop_spec (target : value) (stops : list dict) (gigs : list gig)
    (acc : list stop_with_gigs * bool) :
  Forall (fun s => exists b, py_gt (raw_sequence_or_0 s) target = Ok b)
    stops ->
  ahead_loop target stops gigs acc
  = find_nearby_loop (stops_ahead target stops) gigs acc.
Proof.
  revert acc. induction stops as [|stop stops IH]; simpl; intros acc Hcmp;
    [reflexivity|].
  apply Forall_cons in Hcmp as [[b Hb] Hcmp].
  change (dict_get_default stop "stop_sequence" (VInt 0))
    with (raw_sequence_or_0 stop).
  rewrite Hb. simpl. unfold py_ltb. unfold py_gt in Hb. rewrite Hb.
  destruct b; simpl.
  - destruct (nearby_gigs_of stop gigs); simpl; [apply IH, Hcmp|reflexivity].
  - apply IH, Hcmp.
Qed.

(** The handler runs [gigs_ahead] on the stops that the route result has
    for the direction, once the route stops and the events are there. *)
Lemma show_gigs_ahead_run (w : world)
    (route_id route_type stop_id direction_id : Z) (c c' : cache)
    (d : stops_data) (gigs : list gig) :
  get_route_stops w route_id route_type c = (Ok (Some d), c') ->
  http_gigs w = Some gigs ->
  show_gigs_ahead w route_id route_type stop_id direction_id c
  = (gigs_ahead
       (default [] (pymap_lookup (stops_by_direction d) (VInt direction_id)))
       gigs stop_id, c').
Proof.
  intros Hstops Hgigs. unfold show_gigs_ahead, mbind, M_bind.
  rewrite Hstops, Hgigs. reflexivity.
Qed.

(** C6. In the directional variant the target stop is the first stop of the
    direction with the given identifier.  Without such a stop, or when the
    target has no raw sequence number, the outcome is the not-found error.
    Otherwise the stops matched against the events are exactly the target
    stop, first, and the stops of the direction whose raw sequence number
    exceeds the target's, a stop without a raw sequence number counting
    as 0. *)
Theorem C6_gigs_ahead_candidates (stops : list dict) (gigs : list gig)
    (stop_id : Z) (current : option dict) :
  find_current_stop stops stop_id = Ok current ->
  match current with
  | None =>
      Forall (fun s => exists id, s !! "stop_id" = Some id
                                  /\ py_eqb id (VInt stop_id) = false) stops
      /\ gigs_ahead stops gigs stop_id
         = Ok (ErrorView (CouldNotFindStop stop_id))
  | Some current_stop =>
      let target := dict_get current_stop "stop_sequence" in
      (exists before after sid,
          stops = before ++ current_stop :: after
          /\ current_stop !! "stop_id" = Some sid
          /\ py_eqb sid (VInt stop_id) = true
          /\ Forall (fun s => exists id, s !! "stop_id" = Some id
                                         /\ py_eqb id (VInt stop_id) = false)
               before)
      /\ (target = VNone ->
          gigs_ahead stops gigs stop_id
          = Ok (ErrorView (CouldNotFindStop stop_id)))
      /\ (target <> VNone ->
          Forall (fun s => exists b,
                      py_gt (raw_sequence_or_0 s) target = Ok b) stops ->
          gigs_ahead stops gigs stop_id
          = (r ← find_nearby_gigs_for_stops
                   (candidate_stops current_stop stops) gigs;
             Ok (GigsAheadView current_stop (fst r) (snd r)))
          /\ forall s, s ∈ candidate_stops current_stop stops <->
               s = current_stop
               \/ (s ∈ stops
                   /\ py_gt (raw_sequence_or_0 s) target = Ok true))
  end.
Proof.
  intros Hfind. destruct current as [current_stop|].
  - split; [apply find_current_stop_Some, Hfind|].
    unfold gigs_ahead. rewrite Hfind. simpl. split.
    + intros ->. reflexivity.
    + intros Htarget Hcmp.
      assert (Hnone : is_none (dict_get current_stop "stop_sequence") = false).
      { destruct (dict_get current_stop "stop_sequence");
          [congruence | reflexivity | reflexivity | reflexivity]. }
      rewrite Hnone. split.
      * unfold find_nearby_gigs_for_stops, candidate_stops.
        cbn [find_nearby_loop].
        destruct (nearby_gigs_of current_stop gigs) as [nearby|e];
          [|reflexivity].
        cbn [mbind outcome_bind].
        rewrite (ahead_loop_spec _ _ _ _ Hcmp). reflexivity.
      * intros s0. unfold candidate_stops, stops_ahead.
        rewrite elem_of_cons, list_elem_of_In, filter_In,
          <- list_elem_of_In.
        rewrite Forall_forall in Hcmp.
        split; (intros [Hs|[Hs Hgt]]; [left; exact Hs | right]);
          (split; [exact Hs|]); destruct (Hcmp s0 Hs) as [b Hb];
          unfold py_ltb; unfold py_ltb in Hgt; unfold py_gt in *;
          rewrite Hb in Hgt |- *; congruence.
  - split; [apply find_current_stop_None, Hfind|].
    unfold gigs_ahead. rewrite Hfind. reflexivity.
Qed.

(** ** More about the distance calculator *)

(** The haversine term [a] of [calculate_distance]. *)
Lemma haversine_term_bounds (lat1 lat2 dlon : R) :
  (0 <= sin ((lat2 - lat1) / 2) ^ 2
        + cos lat1 * cos lat2 * sin (dlon / 2) ^ 2 <= 1)%R.
Proof.
  pose proof (cos_2a_sin ((lat2 - lat1) / 2)) as Hd.
  replace (2 * ((lat2 - lat1) / 2))%R with (lat2 - lat1)%R in Hd by lra.
  pose proof (cos_minus lat2 lat1) as Hm.
  pose proof (cos_plus lat2 lat1) as Hp.
  pose proof (COS_bound (lat2 - lat1)) as [HA1 HA2].
  pose proof (COS_bound (lat2 + lat1)) as [HB1 HB2].
  pose proof (SIN_bound (dlon / 2)) as [HS1 HS2].
  set (A := cos (lat2 - lat1)) in *. set (B := cos (lat2 + lat1)) in *.
  set (s := sin (dlon / 2)) in *.
  set (h := sin ((lat2 - lat1) / 2)) in *.
  assert (Hs : (0 <= s ^ 2 <= 1)%R) by (simpl; nra).
  assert (Hh : (h ^ 2 = (1 - A) / 2)%R) by (simpl; lra).
  assert (Hc : (cos lat1 * cos lat2 = (A + B) / 2)%R) by lra.
  rewrite Hh, Hc. set (t := (s ^ 2)%R) in *.
  split; nra.
Qed.

Lemma atan2_first_quadrant (y x : R) :
  (0 <= y)%R -> (0 <= x)%R -> (0 <= atan2 y x <= PI / 2)%R.
Proof.
  intros Hy Hx. unfold atan2. pose proof PI_RGT_0 as Hpi.
  destruct (decide (0 < x)%R) as [Hpos|Hnpos].
  - pose proof (atan_bound (y / x)) as [_ Hub].
    split; [|lra].
    destruct (Rle_lt_or_eq_dec 0 y Hy) as [Hlt|<-].
    + left. rewrite <- atan_0. apply atan_increasing.
      apply Rdiv_lt_0_compat; assumption.
    + replace (0 / x)%R with 0%R by (unfold Rdiv; lra).
      rewrite atan_0. lra.
  - destruct (decide (x < 0)%R) as [Hneg|_]; [lra|].
    destruct (decide (0 < y)%R) as [_|_]; [lra|].
    destruct (decide (y < 0)%R) as [Hy'|_]; lra.
Qed.

(** X1. The two square roots in the formula are taken of numbers between
    0 and 1, and the distance is never negative and never more than half
    the circumference of the sphere. *)
Theorem X1_distance_range (lat1 lon1 lat2 lon2 : R) :
  let a := (sin ((radians lat2 - radians lat1) / 2) ^ 2
            + cos (radians lat1) * cos (radians lat2)
              * sin ((radians lon2 - radians lon1) / 2) ^ 2)%R in
  (0 <= a <= 1)%R
  /\ (0 <= calculate_distance lat1 lon1 lat2 lon2 <= 6371000 * PI)%R.
Proof.
  intros a. split; [apply haversine_term_bounds|].
  unfold calculate_distance. fold a.
  destruct (atan2_first_quadrant (sqrt a) (sqrt (1 - a)))
    as [Hlo Hhi]; [apply sqrt_pos | apply sqrt_pos |].
  pose proof PI_RGT_0 as Hpi. split; nra.
Qed.

(** X2. The distance depends on the difference of the longitudes only: it
    is unchanged when both longitudes are shifted by the same amount, when
    a longitude is given a full turn more, and when both points are
    mirrored at the equator. *)
Theorem X2_distance_invariances (lat1 lon1 lat2 lon2 t : R) :
  calculate_distance lat1 (lon1 + t) lat2 (lon2 + t)
  = calculate_distance lat1 lon1 lat2 lon2
  /\ calculate_distance lat1 lon1 lat2 (lon2 + 360)
     = calculate_distance lat1 lon1 lat2 lon2
  /\ calculate_distance (- lat1) lon1 (- lat2) lon2
     = calculate_distance lat1 lon1 lat2 lon2.
Proof.
  unfold calculate_distance, radians. pose proof PI_RGT_0 as Hpi.
  split; [|split].
  - replace ((lon2 + t) * (PI / 180) - (lon1 + t) * (PI / 180))%R
      with (lon2 * (PI / 180) - lon1 * (PI / 180))%R by lra.
    reflexivity.
  - replace (((lon2 + 360) * (PI / 180) - lon1 * (PI / 180)) / 2)%R
      with ((lon2 * (PI / 180) - lon1 * (PI / 180)) / 2 + PI)%R by lra.
    rewrite neg_sin.
    replace ((- sin ((lon2 * (PI / 180) - lon1 * (PI / 180)) / 2)) ^ 2)%R
      with (sin ((lon2 * (PI / 180) - lon1 * (PI / 180)) / 2) ^ 2)%R
      by (simpl; lra).
    reflexivity.
  - replace ((- lat2 * (PI / 180) - - lat1 * (PI / 180)) / 2)%R
      with (- ((lat2 * (PI / 180) - lat1 * (PI / 180)) / 2))%R by lra.
    rewrite sin_neg.
    replace (- lat1 * (PI / 180))%R with (- (lat1 * (PI / 180)))%R by lra.
    replace (- lat2 * (PI / 180))%R with (- (lat2 * (PI / 180)))%R by lra.
    rewrite !cos_neg.
    replace ((- sin ((lat2 * (PI / 180) - lat1 * (PI / 180)) / 2)) ^ 2)%R
      with (sin ((lat2 * (PI / 180) - lat1 * (PI / 180)) / 2) ^ 2)%R
      by (simpl; lra).
    reflexivity.
Qed.

(** The central angle is recovered from its haversine. *)
Lemma central_angle_of_haversine (theta : R) :
  (0 <= theta <= PI / 2)%R ->
  (2 * atan2 (sqrt (sin theta ^ 2)) (sqrt (1 - sin theta ^ 2)) = 2 * theta)%R.
Proof.
  intros [Hlo Hhi]. pose proof PI_RGT_0 as Hpi.
  assert (Hsin : (0 <= sin theta)%R) by (apply sin_ge_0; lra).
  assert (Hcos : (0 <= cos theta)%R) by (apply cos_ge_0; lra).
  replace (1 - sin theta ^ 2)%R with (cos theta ^ 2)%R
    by (pose proof (sin2_cos2 theta) as H; unfold Rsqr in H; simpl; lra).
  rewrite !sqrt_pow2 by assumption.
  f_equal. unfold atan2.
  destruct (decide (0 < cos theta)%R) as [Hpos|Hnpos].
  - assert (Hlt : (theta < PI / 2)%R).
    { destruct (Rle_lt_or_eq_dec _ _ Hhi) as [H|H]; [exact H|].
      rewrite H, cos_PI2 in Hpos. lra. }
    change (sin theta / cos theta)%R with (tan theta).
    apply atan_tan. lra.
  - assert (Hz : cos theta = 0%R) by lra.
    destruct (decide (cos theta < 0)%R) as [Hneg|_]; [lra|].
    assert (Hone : sin theta = 1%R).
    { pose proof (sin2_cos2 theta) as H. unfold Rsqr in H.
      rewrite Hz in H. nra. }
    rewrite Hone.
    destruct (decide (0 < 1)%R) as [_|H]; [|lra].
    assert (Hge : (PI / 2 <= theta)%R).
    { destruct (Rlt_le_dec theta (PI / 2)) as [H|H]; [|exact H].
      exfalso. assert (0 < cos theta)%R by (apply cos_gt_0; lra). lra. }
    lra.
Qed.

(** X3. Along a meridian the distance is the radius times the difference
    of the latitudes in radians: one degree of latitude is
    [6371000 * PI / 180] meters. *)
Theorem X3_distance_along_meridian (lat1 lat2 lon : R) :
  (lat1 <= lat2 <= lat1 + 180)%R ->
  calculate_distance lat1 lon lat2 lon
  = (6371000 * radians (lat2 - lat1))%R.
Proof.
  intros [Hle Hub]. unfold calculate_distance, radians.
  pose proof PI_RGT_0 as Hpi.
  replace ((lon * (PI / 180) - lon * (PI / 180)) / 2)%R with 0%R by lra.
  rewrite sin_0.
  set (theta := ((lat2 * (PI / 180) - lat1 * (PI / 180)) / 2)%R).
  replace (sin theta ^ 2
           + cos (lat1 * (PI / 180)) * cos (lat2 * (PI / 180)) * 0 ^ 2)%R
    with (sin theta ^ 2)%R by (simpl; lra).
  rewrite central_angle_of_haversine; [unfold theta; lra|].
  unfold theta. split; nra.
Qed.

(** ** More about the proximity matcher *)

Section StableSortStability.
Context {A K : Type} `{EqDecision K} (key : A -> K) (ltb : A -> A -> bool).

Hypothesis ltb_key : forall x y, ltb x y = true -> key x <> key y.

Lemma insert_sorted_same_key (k : K) (x : A) (l : list A) :
  List.filter (fun y => bool_decide (key y = k)) (insert_sorted ltb x l)
  = List.filter (fun y => bool_decide (key y = k)) (x :: l).
Proof.
  induction l as [|y l IH]; [reflexivity|].
  cbn [insert_sorted]. destruct (ltb y x) eqn:Hyx; [|reflexivity].
  apply ltb_key in Hyx.
  cbn [List.filter] in IH |- *. rewrite IH.
  destruct (bool_decide (key x = k)) eqn:Hx;
    destruct (bool_decide (key y = k)) eqn:Hy; try reflexivity.
  apply bool_decide_eq_true_1 in Hx. apply bool_decide_eq_true_1 in Hy.
  congruence.
Qed.

(** The elements with one key keep their order. *)
Lemma stable_sort_same_key (k : K) (l : list A) :
  List.filter (fun y => bool_decide (key y = k)) (stable_sort ltb l)
  = List.filter (fun y => bool_decide (key y = k)) l.
Proof.
  induction l as [|x l IH]; [reflexivity|].
  cbn [stable_sort]. rewrite insert_sorted_same_key.
  cbn [List.filter]. rewrite IH. reflexivity.
Qed.
End StableSortStability.

Lemma gig_step_extends (stop_lat stop_lon : R) (acc l : list nearby_gig)
    (g : gig) :
  gig_step stop_lat stop_lon acc g = Ok l ->
  exists l', l = acc ++ l' /\ sublist (map ng_gig l') [g].
Proof.
  intros H. apply gig_step_spec in H
    as [->|(la & lo & lat & lon & _ & _ & _ & _ & _ & ->)].
  - exists []. rewrite app_nil_r. split; [reflexivity|].
    apply sublist_nil_l.
  - eexists. split; [reflexivity|]. reflexivity.
Qed.

Lemma foldM_gig_step_extends (stop_lat stop_lon : R) (gigs : list gig)
    (acc l : list nearby_gig) :
  foldM_outcome (gig_step stop_lat stop_lon) gigs acc = Ok l ->
  exists l', l = acc ++ l' /\ sublist (map ng_gig l') gigs.
Proof.
  revert acc. induction gigs as [|g gigs IH]; simpl; intros acc H.
  - inversion H; subst. exists []. rewrite app_nil_r.
    split; [reflexivity | constructor].
  - apply bind_Ok in H as (acc' & Hstep & H).
    apply gig_step_extends in Hstep as (l1 & -> & Hs1).
    apply IH in H as (l2 & -> & Hs2).
    exists (l1 ++ l2). rewrite app_assoc. split; [reflexivity|].
    rewrite map_app. change (g :: gigs) with ([g] ++ gigs).
    apply sublist_app; assumption.
Qed.

Lemma foldM_gig_step_complete (stop_lat stop_lon : R) (gigs : list gig)
    (acc l : list nearby_gig) (g : gig) (latitude longitude : value)
    (lat lon : R) :
  foldM_outcome (gig_step stop_lat stop_lon) gigs acc = Ok l ->
  g ∈ gigs ->
  gig_venue g !! "latitude" = Some latitude ->
  gig_venue g !! "longitude" = Some longitude ->
  py_float latitude = Ok lat ->
  py_float longitude = Ok lon ->
  (calculate_distance stop_lat stop_lon lat lon <= 500)%R ->
  {| ng_gig := g;
     distance_meters := calculate_distance stop_lat stop_lon lat lon |} ∈ l.
Proof.
  intros H Hin Hla Hlo Hlat Hlon Hd. revert acc H.
  induction Hin as [g gigs|g g' gigs Hin IH]; simpl; intros acc H.
  - apply bind_Ok in H as (acc' & Hstep & H).
    unfold gig_step in Hstep. cbv zeta in Hstep.
    rewrite Hla, Hlo, Hlat in Hstep. simpl in Hstep.
    rewrite Hlon in Hstep. simpl in Hstep.
    rewrite bool_decide_eq_true_2 in Hstep by exact Hd.
    inversion Hstep; subst acc'.
    apply foldM_gig_step_extends in H as (l' & -> & _).
    apply elem_of_app. left. apply elem_of_app. right. left.
  - apply bind_Ok in H as (acc' & _ & H). eapply IH; eassumption.
Qed.

(** X4. The matcher misses nothing: an event whose venue has both
    coordinates and lies within 500 meters of a stop is attached to that
    stop in the output, with the computed distance, and the boolean is
    true. *)
Theorem X4_every_event_in_range_is_attached
    (stops : list dict) (gigs : list gig) (out : list stop_with_gigs)
    (any : bool) (stop : dict) (g : gig) (latitude longitude : value)
    (stop_lat stop_lon lat lon : R) :
  find_nearby_gigs_for_stops stops gigs = Ok (out, any) ->
  stop ∈ stops -> g ∈ gigs ->
  getitem stop "stop_latitude" ≫= py_float = Ok stop_lat ->
  getitem stop "stop_longitude" ≫= py_float = Ok stop_lon ->
  gig_venue g !! "latitude" = Some latitude ->
  gig_venue g !! "longitude" = Some longitude ->
  py_float latitude = Ok lat ->
  py_float longitude = Ok lon ->
  (calculate_distance stop_lat stop_lon lat lon <= 500)%R ->
  any = true
  /\ exists swg,
       swg ∈ out /\ swg_stop swg = stop
       /\ {| ng_gig := g;
             distance_meters :=
               calculate_distance stop_lat stop_lon lat lon |}
          ∈ nearby_gigs swg.
Proof.
  intros H Hstop Hg Hslat Hslon Hla Hlo Hlat Hlon Hd.
  unfold find_nearby_gigs_for_stops in H.
  apply find_nearby_loop_spec in H as [Hall H]. inversion H; subst. clear H.
  rewrite Forall_forall in Hall. destruct (Hall stop Hstop) as [l Hl].
  assert (Hin : {| ng_gig := g;
                   distance_meters :=
                     calculate_distance stop_lat stop_lon lat lon |} ∈ l).
  { unfold nearby_gigs_of in Hl. rewrite Hslat, Hslon in Hl. simpl in Hl.
    eapply foldM_gig_step_complete; eassumption. }
  assert (Hret : retained stop gigs = l).
  { unfold retained. rewrite Hl. reflexivity. }
  assert (Hnear : has_nearby gigs stop = true).
  { apply has_nearby_retained. rewrite Hret. intros ->.
    apply elem_of_nil in Hin. exact Hin. }
  simpl. split.
  - apply existsb_exists. exists stop.
    split; [apply list_elem_of_In, Hstop | exact Hnear].
  - exists (with_nearby gigs stop). split; [|split; [reflexivity|]].
    + apply list_elem_of_fmap. exists stop. split; [reflexivity|].
      apply list_elem_of_In, filter_In.
      split; [apply list_elem_of_In, Hstop | exact Hnear].
    + simpl. rewrite sort_by_distance_perm, Hret. exact Hin.
Qed.

(** X5. The nearby events of an output stop are the events retained for
    it, each once: a rearrangement of a selection of the given events in
    which the events that share a distance keep the order they were given
    in. *)
Theorem X5_nearby_events_stably_rearranged
    (stops : list dict) (gigs : list gig) (out : list stop_with_gigs)
    (any : bool) (swg : stop_with_gigs) :
  find_nearby_gigs_for_stops stops gigs = Ok (out, any) ->
  swg ∈ out ->
  exists selected,
    nearby_gigs_of (swg_stop swg) gigs = Ok selected
    /\ sublist (map ng_gig selected) gigs
    /\ nearby_gigs swg ≡ₚ selected
    /\ forall d : R,
         List.filter (fun n => bool_decide (distance_meters n = d))
           (nearby_gigs swg)
         = List.filter (fun n => bool_decide (distance_meters n = d))
             selected.
Proof.
  intros H Hswg. unfold find_nearby_gigs_for_stops in H.
  apply find_nearby_loop_spec in H as [Hall H]. inversion H; subst. clear H.
  simpl in Hswg. apply list_elem_of_fmap in Hswg as (stop & -> & Hstop).
  apply list_elem_of_In, filter_In in Hstop as [Hstop _].
  apply list_elem_of_In in Hstop.
  rewrite Forall_forall in Hall. destruct (Hall stop Hstop) as [l Hl].
  exists l. simpl. split; [exact Hl|].
  assert (Hret : retained stop gigs = l).
  { unfold retained. rewrite Hl. reflexivity. }
  rewrite Hret. split; [|split].
  - unfold nearby_gigs_of in Hl.
    apply bind_Ok in Hl as (slat & _ & Hl).
    apply bind_Ok in Hl as (slon & _ & Hl).
    apply foldM_gig_step_extends in Hl as (l' & -> & Hsub). exact Hsub.
  - apply sort_by_distance_perm.
  - intros d. unfold sort_by_distance.
    apply (stable_sort_same_key distance_meters).
    intros x y Hlt. apply bool_decide_eq_true_1 in Hlt. lra.
Qed.

(** ** More about the dicts keyed by scalars *)

Lemma py_eqb_refl (a : value) : py_eqb a a = true.
Proof. destruct a; simpl; try reflexivity; apply bool_decide_eq_true_2; reflexivity. Qed.

Lemma py_eqb_sym (a b : value) : py_eqb a b = py_eqb b a.
Proof.
  destruct a, b; simpl; try reflexivity; apply bool_decide_ext;
    split; intros H; symmetry; exact H.
Qed.

Lemma py_eqb_trans (a b c : value) :
  py_eqb a b = true -> py_eqb b c = true -> py_eqb a c = true.
Proof.
  destruct a, b, c; simpl; try discriminate; try reflexivity;
    intros H1 H2; apply bool_decide_eq_true_1 in H1;
    apply bool_decide_eq_true_1 in H2; apply bool_decide_eq_true_2;
    subst; try reflexivity; try (apply eq_IZR; congruence); congruence.
Qed.

Lemma pymap_lookup_set_eq {V : Type} (m : pymap V) (k k' : value) (v : V) :
  py_eqb k k' = true -> pymap_lookup (pymap_set m k v) k' = Some v.
Proof.
  intros Hk. induction m as [|[k0 v0] m IH]; simpl.
  - rewrite Hk. reflexivity.
  - destruct (py_eqb k0 k) eqn:H0; simpl.
    + rewrite (py_eqb_trans _ _ _ H0 Hk). reflexivity.
    + destruct (py_eqb k0 k') eqn:H0'; [|exact IH].
      rewrite (py_eqb_sym k k') in Hk.
      rewrite (py_eqb_trans _ _ _ H0' Hk) in H0. discriminate.
Qed.

Lemma pymap_lookup_set_ne {V : Type} (m : pymap V) (k k' : value) (v : V) :
  py_eqb k k' = false ->
  pymap_lookup (pymap_set m k v) k' = pymap_lookup m k'.
Proof.
  intros Hk. induction m as [|[k0 v0] m IH]; simpl.
  - rewrite Hk. reflexivity.
  - destruct (py_eqb k0 k) eqn:H0; simpl.
    + destruct (py_eqb k0 k') eqn:H0'; [|reflexivity].
      rewrite (py_eqb_sym k0 k) in H0.
      rewrite (py_eqb_trans _ _ _ H0 H0') in Hk. discriminate.
    + destruct (py_eqb k0 k'); [reflexivity | exact IH].
Qed.

Lemma pymap_lookup_set_is_Some {V : Type} (m : pymap V) (k k' : value)
    (v : V) :
  is_Some (pymap_lookup m k') -> is_Some (pymap_lookup (pymap_set m k v) k').
Proof.
  intros H. destruct (py_eqb k k') eqn:Hk.
  - rewrite pymap_lookup_set_eq by exact Hk. eauto.
  - rewrite pymap_lookup_set_ne by exact Hk. exact H.
Qed.

Lemma elem_of_pymap_set_key {V : Type} (m : pymap V) (k : value) (v : V)
    (k' : value) (v' : V) :
  (k', v') ∈ pymap_set m k v ->
  (k', v') ∈ m \/ k' = k \/ exists v0, (k', v0) ∈ m.
Proof.
  induction m as [|[k0 v0] m IH]; simpl; intros H.
  - apply list_elem_of_singleton in H. inversion H; subst. auto.
  - destruct (py_eqb k0 k).
    + apply elem_of_cons in H as [H|H].
      * inversion H; subst. right. right. exists v0. left.
      * left. right. exact H.
    + apply elem_of_cons in H as [H|H].
      * inversion H; subst. left. left.
      * destruct (IH H) as [H'|[H'|[v1 H']]].
        -- left. right. exact H'.
        -- auto.
        -- right. right. exists v1. right. exact H'.
Qed.

(** X6. In the pattern sequence map the last departure of a stop wins: a
    departure with a stop_id and a stop_sequence sets the sequence of that
    stop and of no other, and a departure that lacks either one changes
    nothing. *)
Theorem X6_last_departure_wins (departures : list dict) (d : dict) :
  let stop_id := dict_get d "stop_id" in
  let sequence := dict_get d "stop_sequence" in
  let before := sequence_map_of departures in
  let after := sequence_map_of (departures ++ [d]) in
  (stop_id <> VNone -> sequence <> VNone ->
   pymap_get after stop_id = sequence
   /\ forall k, py_eqb stop_id k = false ->
                pymap_get after k = pymap_get before k)
  /\ (stop_id = VNone \/ sequence = VNone -> after = before).
Proof.
  intros stop_id sequence before after.
  assert (Hafter : after
                   = if negb (is_none stop_id) && negb (is_none sequence)
                     then pymap_set before stop_id sequence else before).
  { unfold after, before, sequence_map_of. rewrite fold_left_app.
    reflexivity. }
  rewrite Hafter. split.
  - intros Hid Hseq.
    assert (Hc : negb (is_none stop_id) && negb (is_none sequence) = true).
    { destruct stop_id, sequence; simpl; congruence. }
    rewrite Hc. unfold pymap_get. split.
    + rewrite pymap_lookup_set_eq by apply py_eqb_refl. reflexivity.
    + intros k Hk. rewrite pymap_lookup_set_ne by exact Hk. reflexivity.
  - intros [-> | ->]; simpl; [reflexivity|].
    rewrite andb_false_r. reflexivity.
Qed.

(** ** More about the stop aggregator *)

Lemma mapM_M_Forall2 {A B : Type} (f : A -> M B) (Q : A -> B -> Prop)
    (l : list A) :
  (forall a c b c', f a c = (Ok b, c') -> Q a b) ->
  forall c l' c', mapM_M f l c = (Ok l', c') -> Forall2 Q l l'.
Proof.
  intros HQ. induction l as [|a l IH]; simpl; intros c l' c' H.
  - apply mret_inv in H as [H _]. inversion H. constructor.
  - apply M_bind_Ok in H as (b & c1 & Hb & H).
    apply M_bind_Ok in H as (bs & c2 & Hbs & H).
    apply mret_inv in H as [H _]. inversion H; subst.
    constructor; [eapply HQ, Hb | eapply IH, Hbs].
Qed.

Lemma process_stop_inv (w : world) (route_type : Z) (direction : dict)
    (direction_id : value) (sequence_map : pymap value) (stop stop' : dict)
    (c c' : cache) :
  process_stop w route_type direction direction_id sequence_map stop c
  = (Ok stop', c') ->
  exists direction_name stop_id details,
    direction !! "direction_name" = Some direction_name
    /\ stop !! "stop_id" = Some stop_id
    /\ get_stop_details w stop_id route_type c = (Ok details, c')
    /\ assign_sequence sequence_map
         (enrich (<["direction_name" := direction_name]>
                    (<["direction_id" := direction_id]> stop)) details)
       = Ok stop'
    /\ is_Some (stop' !! "stop_name").
Proof.
  unfold process_stop. intros H.
  apply M_bind_Ok in H as (direction_name & c1 & Hn & H).
  apply lift_inv in Hn as [Hn ->]. symmetry in Hn. apply getitem_Ok in Hn.
  apply M_bind_Ok in H as (sid & c2 & Hsid & H).
  apply lift_inv in Hsid as [Hsid ->]. symmetry in Hsid.
  apply getitem_Ok in Hsid.
  rewrite !lookup_insert_ne in Hsid by discriminate.
  apply M_bind_Ok in H as (details & c3 & Hdet & H).
  apply M_bind_Ok in H as (assigned & c4 & Hassign & H).
  apply lift_inv in Hassign as [Hassign ->]. symmetry in Hassign.
  apply M_bind_Ok in H as (name & c5 & Hname & H).
  apply lift_inv in Hname as [Hname ->]. symmetry in Hname.
  apply getitem_Ok in Hname.
  apply mret_inv in H as [H ->]. inversion H; subst stop'.
  exists direction_name, sid, details. repeat split; eauto.
Qed.

Lemma process_stop_complete (w : world) (route_type : Z) (direction : dict)
    (direction_id : value) (sequence_map : pymap value) (stop stop' : dict)
    (c c' : cache) :
  process_stop w route_type direction direction_id sequence_map stop c
  = (Ok stop', c') ->
  complete_stop stop'.
Proof.
  intros H. apply process_stop_inv in H
    as (name & sid & details & _ & _ & _ & Hassign & Hname).
  apply assign_sequence_spec in Hassign
    as (stop_id & absolute & Hid & -> & _).
  assert (Hkeep : forall k,
             is_Some ((<["direction_name" := name]>
                         (<["direction_id" := direction_id]> stop)) !! k) ->
             is_Some (enrich (<["direction_name" := name]>
                                (<["direction_id" := direction_id]> stop))
                        details !! k)).
  { intros k Hk. unfold enrich, dict_update.
    destruct details as [r|]; [|exact Hk].
    destruct (sd_stop r) as [d|]; [|exact Hk].
    apply lookup_union_is_Some. right. exact Hk. }
  unfold complete_stop.
  rewrite !lookup_insert_ne by discriminate. rewrite lookup_insert_eq.
  split; [rewrite Hid; eauto|].
  split; [rewrite lookup_insert_ne in Hname by discriminate; exact Hname|].
  split; [|split; [|eauto]].
  - apply Hkeep. rewrite lookup_insert_ne by discriminate.
    rewrite lookup_insert_eq. eauto.
  - apply Hkeep. rewrite lookup_insert_eq. eauto.
Qed.

Lemma filterM_outcome_filter {A : Type} (f : A -> outcome bool)
    (g : A -> bool) (l r : list A) :
  Forall (fun a => f a = Ok (g a)) l ->
  filterM_outcome f l = Ok r -> r = List.filter g l.
Proof.
  intros Hfg. revert r. induction Hfg as [|a l Ha _ IH]; simpl; intros r H.
  - inversion H. reflexivity.
  - rewrite Ha in H. simpl in H.
    apply bind_Ok in H as (r' & Hr' & H). inversion H; subst.
    rewrite (IH r' Hr'). reflexivity.
Qed.

(** What [sort_and_filter] keeps: the stops whose absolute sequence is not
    the sentinel, each once. *)
Lemma sort_and_filter_exact (stops valid : list dict) :
  sort_and_filter stops = Ok valid ->
  valid ≡ₚ List.filter has_real_sequence stops.
Proof.
  unfold sort_and_filter. intros H.
  apply bind_Ok in H as (keyed & Hkeyed & H).
  apply bind_Ok in H as (sorted & Hsorted & H).
  apply bind_Ok in H as (names & _ & H).
  apply sort_by_key_sorted in Hsorted as [Hperm _].
  apply mapM_outcome_Forall2 in Hkeyed.
  assert (Hsnd : map snd keyed = stops
                 /\ Forall (fun s : dict =>
                              is_Some (s !! "absolute_sequence")) stops).
  { clear -Hkeyed. induction Hkeyed as [|s p l l' Hp _ [IH1 IH2]];
      [split; [reflexivity | constructor]|].
    apply bind_Ok in Hp as (k & Hk & Hp). inversion Hp; subst p. simpl.
    apply getitem_Ok in Hk. rewrite IH1.
    split; [reflexivity | constructor; eauto]. }
  destruct Hsnd as [Hsnd Habs].
  assert (Hp : map snd sorted ≡ₚ stops).
  { rewrite <- Hsnd. apply Permutation_map, Hperm. }
  assert (Hval : Forall (fun a => is_valid a = Ok (has_real_sequence a))
                   (map snd sorted)).
  { rewrite Hp. eapply Forall_impl; [exact Habs|].
    intros s [a Ha]. unfold is_valid, getitem, has_real_sequence, dict_get.
    rewrite Ha. reflexivity. }
  rewrite (filterM_outcome_filter is_valid has_real_sequence _ _ Hval H).
  clear -Hp. induction Hp as [|x l l' _ IH|x y l|l l' l'' _ IH1 _ IH2];
    simpl.
  - reflexivity.
  - destruct (has_real_sequence x); [constructor|]; exact IH.
  - destruct (has_real_sequence x), (has_real_sequence y);
      try reflexivity. apply Permutation_swap.
  - etransitivity; eassumption.
Qed.

Lemma process_direction_inv (w : world) (route_id route_type : Z)
    (stops_by_dir stops_by_dir' : pymap (list dict)) (direction : dict)
    (c c' : cache) :
  process_direction w route_id route_type stops_by_dir direction c
  = (Ok (Some stops_by_dir'), c') ->
  exists direction_id resp,
    direction !! "direction_id" = Some direction_id
    /\ http_stops w route_id route_type direction_id = Some resp
    /\ ((sr_stops resp = None /\ stops_by_dir' = stops_by_dir)
        \/ exists stops processed valid,
             sr_stops resp = Some stops
             /\ mapM_M (process_stop w route_type direction direction_id
                          (get_sequence_map w route_id route_type
                             direction_id)) stops c
                = (Ok processed, c')
             /\ sort_and_filter processed = Ok valid
             /\ stops_by_dir' = pymap_set stops_by_dir direction_id valid).
Proof.
  unfold process_direction. intros H.
  apply M_bind_Ok in H as (direction_id & c1 & Hid & H).
  apply lift_inv in Hid as [Hid ->]. symmetry in Hid. apply getitem_Ok in Hid.
  apply M_bind_Ok in H as (name & c2 & Hn & H).
  apply lift_inv in Hn as [_ ->].
  exists direction_id.
  destruct (http_stops w route_id route_type direction_id) as [resp|].
  2: { apply mret_inv in H as [H _]. discriminate. }
  exists resp. split; [exact Hid|]. split; [reflexivity|].
  destruct (sr_stops resp) as [stops|].
  2: { apply mret_inv in H as [H _]. inversion H; subst. left. auto. }
  apply M_bind_Ok in H as (processed & c3 & Hmap & H).
  apply M_bind_Ok in H as (valid & c4 & Hvalid & H).
  apply lift_inv in Hvalid as [Hvalid ->]. symmetry in Hvalid.
  apply mret_inv in H as [H ->]. inversion H; subst.
  right. exists stops, processed, valid. auto.
Qed.

(** A property of the processed stops that holds for the stops kept of
    each direction holds for every stop list of the result. *)
Lemma directions_loop_all (P : dict -> Prop) (w : world)
    (route_id route_type : Z) (dirs : list dict)
    (stops_by_dir stops_by_dir' : pymap (list dict)) (c c' : cache) :
  (forall direction direction_id stop stop' c c',
      direction ∈ dirs ->
      direction !! "direction_id" = Some direction_id ->
      process_stop w route_type direction direction_id
        (get_sequence_map w route_id route_type direction_id) stop c
      = (Ok stop', c') ->
      has_real_sequence stop' = true -> P stop') ->
  all_lists (Forall P) stops_by_dir ->
  directions_loop w route_id route_type dirs stops_by_dir c
  = (Ok (Some stops_by_dir'), c') ->
  all_lists (Forall P) stops_by_dir'.
Proof.
  revert stops_by_dir c. induction dirs as [|direction dirs IH];
    intros stops_by_dir c HP Hall H; simpl in H.
  - apply mret_inv in H as [H _]. inversion H; subst. exact Hall.
  - apply M_bind_Ok in H as ([next|] & c1 & Hdir & H).
    2: { apply mret_inv in H as [H _]. discriminate. }
    eapply IH; [| |exact H].
    { intros d did s s' c2 c3 Hd. apply HP. right. exact Hd. }
    apply process_direction_inv in Hdir
      as (did & resp & Hid & _ & [[_ ->]|(stops & processed & valid & _
                                          & Hmap & Hvalid & ->)]);
      [exact Hall|].
    intros k l Hkl. apply elem_of_pymap_set in Hkl as [Hkl| ->];
      [eapply Hall, Hkl|].
    apply sort_and_filter_exact in Hvalid.
    apply Forall_forall. intros s Hs. rewrite Hvalid in Hs.
    apply list_elem_of_In, filter_In in Hs as [Hs Hreal].
    apply list_elem_of_In in Hs.
    eapply (mapM_M_Forall2 _ (fun _ s' => has_real_sequence s' = true
                                          -> P s')) in Hmap.
    + apply list_elem_of_lookup in Hs as [i Hi].
      destruct (Forall2_lookup_r _ _ _ _ _ Hmap Hi) as (s0 & _ & HPs).
      apply HPs, Hreal.
    + intros s0 c2 s1 c3 Hs1. eapply HP; [left | exact Hid | exact Hs1].
Qed.

(** X7. Every stop of a freshly computed result has the members stop_id,
    stop_name, direction_id, direction_name and absolute_sequence. *)
Theorem X7_result_stops_are_complete (w : world) (route_id route_type : Z)
    (c c' : cache) (d : stops_data) :
  stops_route_cache c !! stops_route_key route_id route_type = None ->
  get_route_stops w route_id route_type c = (Ok (Some d), c') ->
  all_lists (Forall complete_stop) (stops_by_direction d).
Proof.
  intros Hmiss H.
  apply (get_route_stops_fresh _ _ _ _ _ _ Hmiss) in H
    as [[_ Hno]|(rn & dd & dirs & sbd & c0 & c1 & c2 & _ & _ & _ & _
                 & Hloop & Hr & _)].
  { destruct (Hno d). reflexivity. }
  inversion Hr; subst d. simpl.
  eapply directions_loop_all; [| |exact Hloop].
  - intros direction did s s' c3 c4 _ _ Hs _.
    eapply process_stop_complete, Hs.
  - intros k l Hkl. apply elem_of_nil in Hkl. destruct Hkl.
Qed.

Lemma assign_sequence_no_pattern (stop stop' : dict) :
  assign_sequence [] stop = Ok stop' ->
  has_real_sequence stop' = true ->
  ordered_by_raw_sequence stop'.
Proof.
  unfold assign_sequence. intros H Hreal.
  apply bind_Ok in H as (stop_id & _ & H).
  change (pymap_get [] stop_id) with VNone in H. cbn [is_none negb] in H.
  apply bind_Ok in H as (positive & Hpos & H).
  unfold has_real_sequence, dict_get in Hreal.
  destruct positive; inversion H; subst stop'; clear H;
    rewrite lookup_insert_eq in Hreal; cbn [default] in Hreal.
  2: { rewrite py_eqb_refl in Hreal. discriminate. }
  unfold dict_get in *.
  destruct (stop !! "stop_sequence") as [v|] eqn:Hv; simpl in *;
    [|discriminate].
  exists v. rewrite lookup_insert_eq, lookup_insert_ne by discriminate.
  split; [reflexivity|]. split; [exact Hv|].
  destruct (is_none v); simpl in Hpos; [discriminate | exact Hpos].
Qed.

(** X8. When every pattern request of the route fails, each stop of a
    freshly computed result is ordered by its raw sequence number, which
    is greater than 0. *)
Theorem X8_without_patterns_raw_order (w : world) (route_id route_type : Z)
    (c c' : cache) (d : stops_data) :
  (forall direction_id,
      http_pattern w route_id route_type direction_id = None) ->
  stops_route_cache c !! stops_route_key route_id route_type = None ->
  get_route_stops w route_id route_type c = (Ok (Some d), c') ->
  all_lists (Forall ordered_by_raw_sequence) (stops_by_direction d).
Proof.
  intros Hpat Hmiss H.
  apply (get_route_stops_fresh _ _ _ _ _ _ Hmiss) in H
    as [[_ Hno]|(rn & dd & dirs & sbd & c0 & c1 & c2 & _ & _ & _ & _
                 & Hloop & Hr & _)].
  { destruct (Hno d). reflexivity. }
  inversion Hr; subst d. simpl.
  eapply directions_loop_all; [| |exact Hloop].
  - intros direction did s s' c3 c4 _ _ Hs Hreal.
    rewrite (get_sequence_map_failed _ _ _ _ (Hpat did)) in Hs.
    apply process_stop_inv in Hs
      as (name & sid & details & _ & _ & _ & Hassign & _).
    eapply assign_sequence_no_pattern; eassumption.
  - intros k l Hkl. apply elem_of_nil in Hkl. destruct Hkl.
Qed.



Lemma directions_loop_keys (w : world) (route_id route_type : Z)
    (dirs : list dict) (stops_by_dir stops_by_dir' : pymap (list dict))
    (c c' : cache) :
  directions_loop w route_id route_type dirs stops_by_dir c
  = (Ok (Some stops_by_dir'), c') ->
  forall k l, (k, l) ∈ stops_by_dir' ->
    (exists l0, (k, l0) ∈ stops_by_dir)
    \/ exists direction,
         direction ∈ dirs /\ direction !! "direction_id" = Some k.
Proof.
  revert stops_by_dir c. induction dirs as [|direction dirs IH];
    intros stops_by_dir c H k l Hkl; simpl in H.
  - apply mret_inv in H as [H _]. inversion H; subst. left. eauto.
  - apply M_bind_Ok in H as ([next|] & c1 & Hdir & H).
    2: { apply mret_inv in H as [H _]. discriminate. }
    destruct (IH _ _ H k l Hkl) as [[l0 Hl0]|(d & Hd & Hid)].
    2: { right. exists d. split; [right; exact Hd | exact Hid]. }
    apply process_direction_inv in Hdir
      as (did & resp & Hid & _ & [[_ ->]|(stops & processed & valid & _
                                          & _ & _ & ->)]);
      [left; eauto|].
    apply elem_of_pymap_set_key in Hl0 as [Hl0|[->|[v0 Hl0]]].
    + left. eauto.
    + right. exists direction. split; [left | exact Hid].
    + left. eauto.
Qed.

Lemma directions_loop_entries (w : world) (route_id route_type : Z)
    (dirs : list dict) (stops_by_dir stops_by_dir' : pymap (list dict))
    (c c' : cache) :
  directions_loop w route_id route_type dirs stops_by_dir c
  = (Ok (Some stops_by_dir'), c') ->
  (forall k, is_Some (pymap_lookup stops_by_dir k) ->
             is_Some (pymap_lookup stops_by_dir' k))
  /\ forall direction direction_id resp stops,
       direction ∈ dirs ->
       direction !! "direction_id" = Some direction_id ->
       http_stops w route_id route_type direction_id = Some resp ->
       sr_stops resp = Some stops ->
       is_Some (pymap_lookup stops_by_dir' direction_id).
Proof.
  revert stops_by_dir c. induction dirs as [|direction dirs IH];
    intros stops_by_dir c H; simpl in H.
  - apply mret_inv in H as [H _]. inversion H; subst.
    split; [auto|]. intros d did resp stops Hd. apply elem_of_nil in Hd.
    destruct Hd.
  - apply M_bind_Ok in H as ([next|] & c1 & Hdir & H).
    2: { apply mret_inv in H as [H _]. discriminate. }
    destruct (IH _ _ H) as [Hkeep Hnew].
    apply process_direction_inv in Hdir
      as (did & resp & Hid & Hresp & Hcase).
    assert (Hstep : forall k, is_Some (pymap_lookup stops_by_dir k) ->
                              is_Some (pymap_lookup next k)).
    { destruct Hcase as [[_ ->]|(stops & processed & valid & _ & _ & _
                                 & ->)]; [auto|].
      intros k. apply pymap_lookup_set_is_Some. }
    split; [intros k Hk; apply Hkeep, Hstep, Hk|].
    intros d did' resp' stops' Hd Hid' Hresp' Hstops'.
    apply elem_of_cons in Hd as [->|Hd]; [|eapply Hnew; eassumption].
    rewrite Hid in Hid'. inversion Hid'; subst did'.
    rewrite Hresp in Hresp'. inversion Hresp'; subst resp'.
    apply Hkeep.
    destruct Hcase as [[Hnone _]|(stops & processed & valid & _ & _ & _
                                  & ->)]; [congruence|].
    rewrite pymap_lookup_set_eq by apply py_eqb_refl. eauto.
Qed.

(** X11. In a freshly computed result every key of the mapping of stops
    is the identifier of one of the directions, and every direction whose
    stop-list response has a list of stops has an entry. *)
Theorem X11_entries_follow_the_directions (w : world)
    (route_id route_type : Z) (c c' : cache) (d : stops_data) :
  stops_route_cache c !! stops_route_key route_id route_type = None ->
  get_route_stops w route_id route_type c = (Ok (Some d), c') ->
  (forall k l, (k, l) ∈ stops_by_direction d ->
      exists direction,
        direction ∈ directions d /\ direction !! "direction_id" = Some k)
  /\ (forall direction direction_id resp stops,
         direction ∈ directions d ->
         direction !! "direction_id" = Some direction_id ->
         http_stops w route_id route_type direction_id = Some resp ->
         sr_stops resp = Some stops ->
         is_Some (pymap_lookup (stops_by_direction d) direction_id)).
Proof.
  intros Hmiss H.
  apply (get_route_stops_fresh _ _ _ _ _ _ Hmiss) in H
    as [[_ Hno]|(rn & dd & dirs & sbd & c0 & c1 & c2 & _ & _ & _ & _
                 & Hloop & Hr & _)].
  { destruct (Hno d). reflexivity. }
  inversion Hr; subst d. simpl. split.
  - intros k l Hkl.
    destruct (directions_loop_keys _ _ _ _ _ _ _ _ Hloop k l Hkl)
      as [[l0 Hl0]|Hd]; [|exact Hd].
    apply elem_of_nil in Hl0. destruct Hl0.
  - apply (directions_loop_entries _ _ _ _ _ _ _ _ Hloop).
Qed.

(** X12. For a direction with a list of stops every upstream stop is
    processed, once and in order, and the entry stored for the direction
    holds exactly the processed stops whose absolute sequence is not the
    sentinel, none lost and none repeated. *)
Theorem X12_only_unordered_stops_are_dropped (w : world)
    (route_id route_type : Z) (stops_by_dir stops_by_dir' : pymap (list dict))
    (direction : dict) (direction_id : value) (resp : stops_response)
    (stops : list dict) (c c' : cache) :
  process_direction w route_id route_type stops_by_dir direction c
  = (Ok (Some stops_by_dir'), c') ->
  direction !! "direction_id" = Some direction_id ->
  http_stops w route_id route_type direction_id = Some resp ->
  sr_stops resp = Some stops ->
  exists processed valid,
    Forall2
      (fun stop stop' =>
         exists c1 c2,
           process_stop w route_type direction direction_id
             (get_sequence_map w route_id route_type direction_id) stop c1
           = (Ok stop', c2)) stops processed
    /\ pymap_lookup stops_by_dir' direction_id = Some valid
    /\ valid ≡ₚ List.filter has_real_sequence processed.
Proof.
  intros H Hid Hresp Hstops.
  apply process_direction_inv in H
    as (did & resp' & Hid' & Hresp' & Hcase).
  rewrite Hid in Hid'. inversion Hid'; subst did.
  rewrite Hresp in Hresp'. inversion Hresp'; subst resp'.
  destruct Hcase as [[Hnone _]|(stops' & processed & valid & Hs & Hmap
                                & Hvalid & ->)]; [congruence|].
  rewrite Hstops in Hs. inversion Hs; subst stops'.
  exists processed, valid. split; [|split].
  - eapply mapM_M_Forall2; [|exact Hmap]. intros s c1 s' c2 Hs'. eauto.
  - apply pymap_lookup_set_eq, py_eqb_refl.
  - apply sort_and_filter_exact, Hvalid.
Qed.

(** ** More about the stops ahead *)

Lemma nearby_gigs_of_total (stop : dict) (gigs : list gig) :
  has_coordinates stop -> Forall numeric_venue gigs ->
  exists l, nearby_gigs_of stop gigs = Ok l.
Proof.
  intros Hstop Hgigs.
  destruct (find_nearby_gigs_for_stops_total [stop] gigs)
    as (out & any & H); [constructor; [exact Hstop | constructor]
                        | exact Hgigs |].
  unfold find_nearby_gigs_for_stops in H.
  apply find_nearby_loop_spec in H as [Hall _].
  apply Forall_cons in Hall as [Hl _]. exact Hl.
Qed.

Lemma find_nearby_loop_total (stops : list dict) (gigs : list gig)
    (acc : list stop_with_gigs * bool) :
  Forall has_coordinates stops -> Forall numeric_venue gigs ->
  exists r, find_nearby_loop stops gigs acc = Ok r.
Proof.
  intros Hstops Hgigs. revert acc.
  induction Hstops as [|stop stops Hstop _ IH]; intros acc; simpl; [eauto|].
  destruct (nearby_gigs_of_total stop gigs Hstop Hgigs) as [l ->].
  cbn [mbind outcome_bind]. apply IH.
Qed.

Lemma existsb_matches (gigs : list gig) (stops : list dict) :
  existsb (has_nearby gigs) stops = negb (is_empty (matches_of gigs stops)).
Proof.
  unfold matches_of. induction stops as [|s stops IH]; [reflexivity|].
  cbn [existsb List.filter]. destruct (has_nearby gigs s); [reflexivity|].
  exact IH.
Qed.

Lemma py_gt_num (a b : value) :
  is_num a = true -> is_num b = true -> exists r, py_gt a b = Ok r.
Proof.
  destruct a, b; simpl; try discriminate; intros _ _; unfold py_gt; simpl;
    eauto.
Qed.

(** X13. On a direction whose stops have an identifier, numeric
    coordinates and a numeric raw sequence number or none, and with events
    whose venue coordinates are numbers, [gigs_ahead] raises no exception:
    it shows the not-found error, or the target stop, the candidate stops
    that have an event nearby, and a flag that tells whether there is
    one. *)
Theorem X13_gigs_ahead_returns_a_view (stops : list dict) (gigs : list gig)
    (stop_id : Z) :
  Forall (fun s => is_Some (s !! "stop_id")) stops ->
  Forall has_coordinates stops ->
  Forall numeric_venue gigs ->
  Forall (fun s => is_num (raw_sequence_or_0 s) = true) stops ->
  exists v,
    gigs_ahead stops gigs stop_id = Ok v
    /\ match v with
       | ErrorView e => e = CouldNotFindStop stop_id
       | GigsAheadView current_stop out any =>
           current_stop ∈ stops
           /\ out = matches_of gigs (candidate_stops current_stop stops)
           /\ any = negb (is_empty out)
       end.
Proof.
  intros Hid Hcoord Hgigs Hraw.
  assert (Hfind : exists current, find_current_stop stops stop_id = Ok current
                    /\ forall s, current = Some s -> s ∈ stops).
  { clear Hcoord Hraw.
    induction Hid as [|s stops [sid Hsid] _ (current & IH & Hin)]; simpl.
    - exists None. split; [reflexivity | discriminate].
    - unfold getitem. rewrite Hsid. cbn [mbind outcome_bind].
      destruct (py_eqb sid (VInt stop_id)).
      + exists (Some s). split; [reflexivity|].
        intros s0 Hs0. inversion Hs0; subst. left.
      + exists current. split; [exact IH|].
        intros s0 Hs0. right. apply Hin, Hs0. }
  destruct Hfind as (current & Hfind & Hin).
  unfold gigs_ahead. rewrite Hfind. cbn [mbind outcome_bind].
  destruct current as [current_stop|]; [|eexists; split; reflexivity].
  pose proof (Hin _ eq_refl) as Hcur.
  destruct (is_none (dict_get current_stop "stop_sequence")) eqn:Hnone;
    [eexists; split; reflexivity|].
  rewrite Forall_forall in Hcoord.
  destruct (nearby_gigs_of_total current_stop gigs
              (Hcoord _ Hcur) Hgigs) as [nearby Hnearby].
  rewrite <- Forall_forall in Hcoord.
  assert (Htarget : is_num (dict_get current_stop "stop_sequence") = true).
  { rewrite Forall_forall in Hraw. specialize (Hraw _ Hcur).
    unfold raw_sequence_or_0 in Hraw. unfold dict_get in *.
    destruct (current_stop !! "stop_sequence"); [exact Hraw|].
    discriminate. }
  assert (Hcmp : Forall (fun s => exists b,
                           py_gt (raw_sequence_or_0 s)
                             (dict_get current_stop "stop_sequence") = Ok b)
                   stops).
  { eapply Forall_impl; [exact Hraw|]. intros s Hs.
    apply py_gt_num; assumption. }
  assert (Hrun : find_nearby_loop (candidate_stops current_stop stops) gigs
                   ([], false)
                 = (r ← nearby_gigs_of current_stop gigs;
                    ahead_loop (dict_get current_stop "stop_sequence") stops
                      gigs (attach current_stop r ([], false)))).
  { unfold candidate_stops. cbn [find_nearby_loop]. rewrite Hnearby.
    cbn [mbind outcome_bind]. symmetry. apply ahead_loop_spec, Hcmp. }
  rewrite Hnearby in Hrun |- *. cbn [mbind outcome_bind] in Hrun |- *.
  rewrite <- Hrun.
  destruct (find_nearby_loop_total (candidate_stops current_stop stops) gigs
              ([], false)) as [r Hr]; [|exact Hgigs|].
  { unfold candidate_stops, stops_ahead. constructor.
    - rewrite Forall_forall in Hcoord. apply Hcoord, Hcur.
    - apply Forall_forall. intros s Hs.
      apply list_elem_of_In, filter_In in Hs as [Hs _].
      rewrite Forall_forall in Hcoord. apply Hcoord, list_elem_of_In, Hs. }
  rewrite Hr. cbn [mbind outcome_bind]. eexists. split; [reflexivity|].
  apply find_nearby_loop_spec in Hr as [_ ->]. cbn [fst snd].
  split; [exact Hcur|]. split; [reflexivity|].
  rewrite app_nil_l. apply existsb_matches.
Qed.

Lemma ahead_loop_raises (target : value) (stops : list dict)
    (gigs : list gig) (acc : list stop_with_gigs * bool) (s : dict)
    (e : exn) :
  s ∈ stops -> py_gt (raw_sequence_or_0 s) target = Raise e ->
  exists e', ahead_loop target stops gigs acc = Raise e'.
Proof.
  intros Hs Hraise. revert acc.
  induction stops as [|s0 stops IH]; intros acc;
    [apply elem_of_nil in Hs; destruct Hs|].
  cbn [ahead_loop].
  change (dict_get_default s0 "stop_sequence" (VInt 0))
    with (raw_sequence_or_0 s0).
  apply elem_of_cons in Hs as [<-|Hs].
  - rewrite Hraise. eauto.
  - destruct (py_gt (raw_sequence_or_0 s0) target) as [[|]|e0];
      cbn [mbind outcome_bind]; [|apply IH, Hs|eauto].
    destruct (nearby_gigs_of s0 gigs); cbn [mbind outcome_bind];
      [apply IH, Hs | eauto].
Qed.

(** X14. A stop of the direction whose raw sequence number is null makes
    [gigs_ahead] end with an exception as soon as the target stop has a
    raw sequence number: the comparison of line 564 does not accept
    null. *)
Theorem X14_null_raw_sequence_raises (stops : list dict) (gigs : list gig)
    (stop_id : Z) (current_stop s : dict) :
  find_current_stop stops stop_id = Ok (Some current_stop) ->
  dict_get current_stop "stop_sequence" <> VNone ->
  s ∈ stops ->
  s !! "stop_sequence" = Some VNone ->
  exists e, gigs_ahead stops gigs stop_id = Raise e.
Proof.
  intros Hfind Htarget Hs Hnull.
  unfold gigs_ahead. rewrite Hfind. cbn [mbind outcome_bind].
  assert (Hnone : is_none (dict_get current_stop "stop_sequence") = false).
  { destruct (dict_get current_stop "stop_sequence");
      [congruence | reflexivity | reflexivity | reflexivity]. }
  rewrite Hnone.
  destruct (nearby_gigs_of current_stop gigs) as [nearby|e];
    cbn [mbind outcome_bind]; [|eauto].
  destruct (ahead_loop_raises (dict_get current_stop "stop_sequence") stops
              gigs (attach current_stop nearby ([], false)) s TypeError Hs)
    as [e He].
  { unfold raw_sequence_or_0. rewrite Hnull. unfold py_gt.
    destruct (dict_get current_stop "stop_sequence"); reflexivity. }
  rewrite He. eauto.
Qed.

(** ** The stops page and the route-wide matcher *)

Lemma process_direction_failed (w : world) (route_id route_type : Z)
    (stops_by_dir : pymap (list dict)) (direction : dict) (c c' : cache) :
  process_direction w route_id route_type stops_by_dir direction c
  = (Ok None, c') ->
  ~ stops_fetched w route_id route_type direction.
Proof.
  unfold process_direction. intros H (did & Hdid & Hsome).
  apply M_bind_Ok in H as (direction_id & c1 & Hid & H).
  apply lift_inv in Hid as [Hid _]. symmetry in Hid. apply getitem_Ok in Hid.
  rewrite Hdid in Hid. inversion Hid; subst direction_id.
  apply M_bind_Ok in H as (name & c2 & _ & H).
  destruct (http_stops w route_id route_type did) as [resp|];
    [|destruct Hsome; discriminate].
  destruct (sr_stops resp) as [stops|].
  - apply M_bind_Ok in H as (processed & c3 & _ & H).
    apply M_bind_Ok in H as (valid & c4 & _ & H).
    apply mret_inv in H as [H _]. discriminate.
  - apply mret_inv in H as [H _]. discriminate.
Qed.

Lemma directions_loop_failed (w : world) (route_id route_type : Z)
    (dirs : list dict) (stops_by_dir : pymap (list dict)) (c c' : cache) :
  directions_loop w route_id route_type dirs stops_by_dir c = (Ok None, c') ->
  exists direction,
    direction ∈ dirs /\ ~ stops_fetched w route_id route_type direction.
Proof.
  revert stops_by_dir c. induction dirs as [|direction dirs IH];
    intros stops_by_dir c H; simpl in H.
  - apply mret_inv in H as [H _]. discriminate.
  - apply M_bind_Ok in H as ([next|] & c1 & Hdir & H).
    + destruct (IH _ _ H) as (d & Hd & Hno).
      exists d. split; [right; exact Hd | exact Hno].
    + exists direction. split; [left|].
      eapply process_direction_failed, Hdir.
Qed.

(** X15. On upstream data that follow the schema the stops page raises no
    exception, and a call that computes the route stops shows the error
    exactly when the directions of the route are unavailable or the
    stop-list request of one of them fails; otherwise it shows the
    computed result. *)
Theorem X15_stops_page_error_exactly_on_failure (w : world)
    (route_id route_type : Z) (c : cache) :
  well_formed_world w -> well_formed_cache c ->
  stops_route_cache c !! stops_route_key route_id route_type = None ->
  exists v c',
    show_stops w route_id route_type c = (Ok v, c')
    /\ (v = StopsErrorView route_id route_type
        <-> match route_directions w route_id c with
            | None => True
            | Some dirs =>
                exists direction,
                  direction ∈ dirs
                  /\ ~ stops_fetched w route_id route_type direction
            end)
    /\ (forall stops_by_dir dirs name,
           v = StopsView stops_by_dir dirs name ->
           get_route_stops w route_id route_type c
           = (Ok (Some {| stops_by_direction := stops_by_dir;
                          directions := dirs; route_name := name |}), c')
           /\ route_directions w route_id c = Some dirs).
Proof.
  intros Hw Hc Hmiss.
  destruct (get_route_stops_total w route_id route_type c Hw Hc)
    as (r & c' & Hr).
  pose proof Hr as Hfresh.
  apply (get_route_stops_fresh _ _ _ _ _ _ Hmiss) in Hfresh.
  unfold show_stops, mbind, M_bind. rewrite Hr.
  destruct r as [d|].
  - exists (StopsView (stops_by_direction d) (directions d) (route_name d)),
      c'.
    split; [reflexivity|].
    destruct Hfresh
      as [[_ Hno]|(rn & dd & dirs & sbd & c0 & c1 & c2 & _ & Hdd & Hdirs & _
                   & Hloop & Hd & _)]; [destruct (Hno d); reflexivity|].
    inversion Hd; subst d. cbn [stops_by_direction directions route_name].
    assert (Hrd : route_directions w route_id c = Some dirs).
    { unfold route_directions. rewrite Hdd. exact Hdirs. }
    split; [split; [discriminate|]|].
    + rewrite Hrd. intros (direction & Hin & Hno).
      apply directions_loop_fetched in Hloop.
      rewrite Forall_forall in Hloop. destruct (Hno (Hloop _ Hin)).
    + intros sbd' dirs' name' Hv. inversion Hv; subst. auto.
  - exists (StopsErrorView route_id route_type), c'.
    split; [reflexivity|]. split; [|discriminate].
    split; [intros _|reflexivity].
    unfold route_directions.
    destruct Hfresh as [[_ _]|(rn & dd & dirs & sbd & c0 & c1 & c2 & _ & _
                               & _ & _ & _ & Hd & _)]; [|discriminate].
    unfold get_route_stops in Hr. rewrite Hmiss in Hr.
    apply M_bind_Ok in Hr as (rn & c1 & Hrn & Hr).
    apply lift_inv in Hrn as [_ ->].
    apply M_bind_Ok in Hr as (dd & c2 & Hdd & Hr).
    rewrite Hdd. cbn [fst].
    destruct dd as [dd|]; [|exact I]. cbn [mbind option_bind] in Hr.
    destruct (dr_directions dd) as [dirs|]; [|exact I].
    apply M_bind_Ok in Hr as (checked & c3 & _ & Hr).
    apply M_bind_Ok in Hr as ([sbd|] & c4 & Hloop & Hr).
    + apply M_bind_Ok in Hr as (u & c5 & _ & Hr).
      apply mret_inv in Hr as [Hr _]. discriminate.
    + eapply directions_loop_failed, Hloop.
Qed.

Lemma all_stops_of_concat (stops_by_dir : pymap (list dict)) :
  all_stops_of stops_by_dir = concat (map snd stops_by_dir).
Proof.
  unfold all_stops_of.
  assert (H : forall (ls : list (list dict)) acc,
             fold_left (fun all_stops direction_stops =>
                          all_stops ++ direction_stops) ls acc
             = acc ++ concat ls).
  { induction ls as [|l ls IH]; intros acc; simpl.
    - rewrite app_nil_r. reflexivity.
    - rewrite IH, <- app_assoc. reflexivity. }
  apply H.
Qed.

Lemma matches_of_app (gigs : list gig) (l1 l2 : list dict) :
  matches_of gigs (l1 ++ l2) = matches_of gigs l1 ++ matches_of gigs l2.
Proof. unfold matches_of. rewrite List.filter_app, map_app. reflexivity. Qed.

Lemma matches_of_concat (gigs : list gig) (ls : list (list dict)) :
  matches_of gigs (concat ls) = concat (map (matches_of gigs) ls).
Proof.
  induction ls as [|l ls IH]; [reflexivity|].
  simpl. rewrite matches_of_app, IH. reflexivity.
Qed.

Lemma elem_of_concat {A : Type} (x : A) (ls : list (list A)) :
  x ∈ concat ls -> exists l, x ∈ l /\ l ∈ ls.
Proof.
  induction ls as [|l ls IH]; simpl; intros H.
  - apply elem_of_nil in H. destruct H.
  - apply elem_of_app in H as [H|H].
    + exists l. split; [exact H | left].
    + destruct (IH H) as (l0 & Hx & Hl0). exists l0.
      split; [exact Hx | right; exact Hl0].
Qed.

(** X16. Once the route stops and the events are there, the route-wide
    page shows no error; what it shows are the matches of the directions
    one after the other, in the order of the result (a stop that two
    directions list is matched once for each), and the flag tells whether
    there is a match. *)
Theorem X16_route_matches_direction_by_direction (w : world)
    (route_id route_type : Z) (c c' c'' : cache) (d : stops_data)
    (gigs : list gig) (r : outcome nearby_view) :
  get_route_stops w route_id route_type c = (Ok (Some d), c') ->
  http_gigs w = Some gigs ->
  show_nearby_gigs w route_id route_type c = (r, c'') ->
  c'' = c'
  /\ (forall e, r <> Ok (NearbyErrorView e))
  /\ (forall out any,
         r = Ok (NearbyGigsView out any) ->
         out = concat (map (fun p => matches_of gigs (snd p))
                         (stops_by_direction d))
         /\ any = negb (is_empty out)
         /\ forall swg, swg ∈ out ->
              nearby_gigs swg <> []
              /\ exists direction_id stops,
                   (direction_id, stops) ∈ stops_by_direction d
                   /\ swg_stop swg ∈ stops).
Proof.
  intros Hstops Hgigs H.
  unfold show_nearby_gigs, mbind, M_bind in H. rewrite Hstops, Hgigs in H.
  unfold lift, mret, M_ret in H.
  destruct (find_nearby_gigs_for_stops
              (all_stops_of (stops_by_direction d)) gigs) as [res|e] eqn:Hres;
    inversion H; subst r c''; clear H.
  2: { split; [reflexivity|]. split; intros; discriminate. }
  split; [reflexivity|]. split; [discriminate|].
  intros out any Hv. inversion Hv; subst out any. clear Hv.
  unfold find_nearby_gigs_for_stops in Hres.
  apply find_nearby_loop_spec in Hres as [_ ->]. cbn [fst snd].
  rewrite app_nil_l, orb_false_l.
  fold (matches_of gigs (all_stops_of (stops_by_direction d))).
  rewrite existsb_matches, all_stops_of_concat, matches_of_concat, map_map.
  split; [reflexivity|]. split; [reflexivity|].
  intros swg Hswg.
  apply elem_of_concat in Hswg as (l & Hswg & Hl).
  apply list_elem_of_fmap in Hl as ([k stops] & -> & Hk).
  unfold matches_of in Hswg. cbn [snd] in Hswg.
  apply list_elem_of_fmap in Hswg as (stop & -> & Hstop).
  apply list_elem_of_In, filter_In in Hstop as [Hstop Hnear].
  split.
  - cbn [nearby_gigs with_nearby]. intros Hnil.
    apply has_nearby_retained in Hnear. apply Hnear.
    apply Permutation_nil_r. rewrite <- Hnil. symmetry.
    apply sort_by_distance_perm.
  - exists k, stops. split; [exact Hk|]. apply list_elem_of_In, Hstop.
Qed.

(** ** The log buffer *)

Lemma deque_append_last {A : Type} (maxlen : nat) (d : list A) (x : A) :
  (length d <= maxlen)%nat ->
  deque_append maxlen d x
  = drop (length (d ++ [x]) - maxlen) (d ++ [x])
  /\ (length (deque_append maxlen d x) <= maxlen)%nat.
Proof.
  intros Hlen. unfold deque_append. rewrite length_app. cbn [length].
  destruct (bool_decide (maxlen < length d + 1)%nat) eqn:Hfull.
  - apply bool_decide_eq_true_1 in Hfull.
    replace (length d + 1 - maxlen)%nat with 1%nat by lia.
    split; [reflexivity|]. rewrite length_drop, length_app. cbn [length]. lia.
  - apply bool_decide_eq_false_1 in Hfull.
    replace (length d + 1 - maxlen)%nat with 0%nat by lia.
    split; [reflexivity|]. rewrite length_app. cbn [length]. lia.
Qed.

Lemma fold_deque_append {A : Type} (maxlen : nat) (xs d : list A) :
  (length d <= maxlen)%nat ->
  fold_left (deque_append maxlen) xs d
  = drop (length (d ++ xs) - maxlen) (d ++ xs)
  /\ (length (fold_left (deque_append maxlen) xs d) <= maxlen)%nat.
Proof.
  revert d. induction xs as [|x xs IH]; intros d Hlen; cbn [fold_left].
  - rewrite app_nil_r.
    replace (length d - maxlen)%nat with 0%nat by lia.
    split; [reflexivity | exact Hlen].
  - destruct (deque_append_last maxlen d x Hlen) as [Hd Hlen'].
    destruct (IH _ Hlen') as [Hfold Hbound]. split; [|exact Hbound].
    rewrite Hfold, Hd.
    replace (d ++ x :: xs) with ((d ++ [x]) ++ xs)
      by (rewrite <- app_assoc; reflexivity).
    set (D := d ++ [x]) in *.
    assert (HD : length D = S (length d))
      by (unfold D; rewrite length_app; cbn [length]; lia).
    rewrite <- (drop_app_le D xs (length D - maxlen)) by lia.
    rewrite drop_drop. f_equal.
    rewrite length_drop, !length_app. lia.
Qed.

Lemma run_log_calls_fold (calls : list log_call)
    (log_buffer : list log_entry) :
  run_log_calls calls log_buffer
  = fold_left (deque_append LOG_MAXLEN) (map entry_of calls) log_buffer.
Proof.
  unfold run_log_calls. revert log_buffer.
  induction calls as [|[[method now] msg] calls IH]; intros log_buffer;
    [reflexivity|].
  cbn [map fold_left]. rewrite IH. f_equal. destruct method; reflexivity.
Qed.

(** X17. The log buffer never holds more than 1000 entries, and what
    [get_logs] returns after any number of calls of the logger are the
    most recent 1000 of the entries stored so far (all of them when there
    are fewer), oldest first, errors and warnings with their prefix. *)
Theorem X17_log_buffer_keeps_the_most_recent (calls : list log_call)
    (log_buffer : list log_entry) :
  (length log_buffer <= LOG_MAXLEN)%nat ->
  let stored := log_buffer ++ map entry_of calls in
  get_logs (run_log_calls calls log_buffer)
  = drop (length stored - LOG_MAXLEN) stored
  /\ (length (get_logs (run_log_calls calls log_buffer)) <= LOG_MAXLEN)%nat.
Proof.
  intros Hlen stored. unfold get_logs. rewrite run_log_calls_fold.
  apply fold_deque_append, Hlen.
Qed.

(** ** Request signing *)

Lemma string_app_assoc (a b c : string) : (a +:+ b) +:+ c = a +:+ b +:+ c.
Proof.
  induction a as [|x a IH]; [reflexivity|].
  change (String x ((a +:+ b) +:+ c) = String x (a +:+ b +:+ c)).
  rewrite IH. reflexivity.
Qed.

Lemma str_contains_app (a b : string) :
  str_contains "?" (a +:+ b) = str_contains "?" a || str_contains "?" b.
Proof.
  induction a as [|x a IH].
  - change ("" +:+ b) with b. reflexivity.
  - change (String x a +:+ b) with (String x (a +:+ b)).
    cbn [str_contains String.prefix].
    destruct (Ascii.ascii_dec _ x).
    + destruct (a +:+ b), a; reflexivity.
    + exact IH.
Qed.

Lemma pretty_N_go_no_question (x : N) (s : string) :
  str_contains "?" (pretty_N_go x s) = str_contains "?" s.
Proof.
  revert s. induction (N.lt_wf_0 x) as [x _ IH]; intros s.
  assert (x = 0 \/ 0 < x)%N as [->|Hpos] by lia.
  - rewrite pretty_N_go_0. reflexivity.
  - rewrite pretty_N_go_step by exact Hpos.
    rewrite IH by (apply N.div_lt; lia).
    unfold pretty_N_char. repeat case_match; reflexivity.
Qed.

Lemma pretty_Z_no_question (z : Z) : str_contains "?" (pretty z) = false.
Proof.
  assert (HN : forall n : N, str_contains "?" (pretty n) = false).
  { intros n. unfold pretty, pretty_N.
    destruct (decide (n = 0%N)); [reflexivity|].
    apply pretty_N_go_no_question. }
  destruct z as [|p|p]; [reflexivity | apply HN |].
  unfold pretty, pretty_Z. rewrite str_contains_app.
  change (pretty p) with (pretty (N.pos p)). rewrite HN. reflexivity.
Qed.

(** X18. Every request carries the signature of its own path and query:
    the URLs built for the route types, the routes of a type, the
    directions and the name of a route, and the pattern and the stops of a
    direction are the signed ones, and so is the URL for the details of a
    stop whose identifier is written without a question mark.  The URL for
    the routes of no type is not: it is signed as [/v3/routes?devid=...]
    and requested as [/v3/routes&devid=...]. *)
Theorem X18_requests_carry_their_signature (e : signer) :
  route_types_url e
  = signed_request e ("/v3/route_types?devid=" +:+ DEV_ID e)
  /\ (forall route_type,
         route_type <> VNone ->
         routes_by_type_url e route_type
         = signed_request e
             ("/v3/routes?route_types=" +:+ py_str route_type
              +:+ "&devid=" +:+ DEV_ID e))
  /\ (forall route_id,
         route_directions_url e route_id
         = signed_request e
             ("/v3/directions/route/" +:+ pretty route_id
              +:+ "?devid=" +:+ DEV_ID e))
  /\ (forall stop_id route_type,
         str_contains "?" (py_str stop_id) = false ->
         stop_details_url e stop_id route_type
         = signed_request e
             ("/v3/stops/" +:+ py_str stop_id +:+ "/route_type/"
              +:+ pretty route_type +:+ "?devid=" +:+ DEV_ID e))
  /\ (forall route_id,
         route_url e route_id
         = signed_request e
             ("/v3/routes/" +:+ pretty route_id +:+ "?devid=" +:+ DEV_ID e))
  /\ (forall route_id route_type direction_id,
         pattern_url e route_id route_type direction_id
         = signed_request e
             ("/v3/pattern/run/" +:+ pretty route_id +:+ "/route_type/"
              +:+ pretty route_type +:+ "?direction_id="
              +:+ py_str direction_id +:+ "&devid=" +:+ DEV_ID e))
  /\ (forall route_id route_type direction_id,
         stops_url e route_id route_type direction_id
         = signed_request e
             ("/v3/stops/route/" +:+ pretty route_id +:+ "/route_type/"
              +:+ pretty route_type +:+ "?direction_id="
              +:+ py_str direction_id +:+ "&devid=" +:+ DEV_ID e))
  /\ routes_by_type_url e VNone
     = base_url +:+ "/v3/routes&devid=" +:+ DEV_ID e +:+ "&signature="
       +:+ upper e (hmac_sha1_hexdigest e (API_KEY e)
                      ("/v3/routes?devid=" +:+ DEV_ID e)).
Proof.
  repeat apply conj.
  - reflexivity.
  - intros route_type Hsome.
    unfold routes_by_type_url, generate_signature, signed_request.
    replace (negb (is_none route_type)) with true
      by (destruct route_type; [congruence | reflexivity..]).
    cbv zeta. rewrite str_contains_app.
    change (str_contains "?" "/v3/routes") with false.
    rewrite str_contains_app.
    change (str_contains "?" "?route_types=") with true.
    cbn [orb]. rewrite ?string_app_assoc. reflexivity.
  - intros route_id.
    unfold route_directions_url, generate_signature, signed_request.
    cbv zeta. rewrite str_contains_app, pretty_Z_no_question.
    change (str_contains "?" "/v3/directions/route/") with false.
    cbn [orb]. rewrite ?string_app_assoc. reflexivity.
  - intros stop_id route_type Hid.
    unfold stop_details_url, generate_signature, signed_request.
    cbv zeta. rewrite !str_contains_app, Hid, pretty_Z_no_question.
    change (str_contains "?" "/v3/stops/") with false.
    change (str_contains "?" "/route_type/") with false.
    cbn [orb]. rewrite ?string_app_assoc. reflexivity.
  - intros route_id.
    unfold route_url, generate_signature, signed_request.
    cbv zeta. rewrite str_contains_app, pretty_Z_no_question.
    change (str_contains "?" "/v3/routes/") with false.
    cbn [orb]. rewrite ?string_app_assoc. reflexivity.
  - intros route_id route_type direction_id.
    unfold pattern_url, generate_signature, signed_request.
    cbv zeta. rewrite !str_contains_app.
    change (str_contains "?" "?direction_id=") with true.
    rewrite !orb_true_r, ?orb_true_l. rewrite ?string_app_assoc.
    reflexivity.
  - intros route_id route_type direction_id.
    unfold stops_url, generate_signature, signed_request.
    cbv zeta. rewrite !str_contains_app.
    change (str_contains "?" "?direction_id=") with true.
    rewrite !orb_true_r, ?orb_true_l. rewrite ?string_app_assoc.
    reflexivity.
  - reflexivity.
Qed.

(** ** The cache directory *)

Lemma string_length_app (a b : string) :
  String.length (a +:+ b) = (String.length a + String.length b)%nat.
Proof.
  induction a as [|x a IH]; [reflexivity|].
  change (String x a +:+ b) with (String x (a +:+ b)).
  cbn [String.length]. rewrite IH. reflexivity.
Qed.

Lemma string_app_inj_r (a b c : string) : a +:+ c = b +:+ c -> a = b.
Proof.
  revert b. induction a as [|x a IH]; intros [|y b] H.
  - reflexivity.
  - apply (f_equal String.length) in H.
    rewrite string_length_app in H.
    change (String y b +:+ c) with (String y (b +:+ c)) in H.
    cbn [String.length] in H. rewrite string_length_app in H.
    cbn [String.length] in H. lia.
  - apply (f_equal String.length) in H.
    change (String x a +:+ c) with (String x (a +:+ c)) in H.
    cbn [String.length] in H. rewrite !string_length_app in H.
    cbn [String.length] in H. lia.
  - change (String x (a +:+ c) = String y (b +:+ c)) in H.
    inversion H; subst. f_equal. apply IH. assumption.
Qed.

Lemma get_cache_path_inj (key key' : string) :
  get_cache_path key = get_cache_path key' -> key = key'.
Proof. apply string_app_inj_r. Qed.

(** X19. What [save_to_cache] has written under a key, [get_cached_data]
    returns for that key as long as less than the expiry time has passed
    on the clock, and no longer; a writing under one key leaves what is
    read under every other key as it was, however it ends; a file that
    could not be opened reads as before, and a file whose writing failed
    reads as nothing. *)
Theorem X19_cache_entries_expire {D : Type} (key : string) (data : D)
    (now now' expiry_hours : Z) (dir : cache_dir D) :
  (get_cached_data key expiry_hours now'
     (save_to_cache key data now Written dir) = Some data
   <-> (now' - now < timedelta_hours expiry_hours)%Z)
  /\ (get_cached_data key expiry_hours now'
        (save_to_cache key data now Written dir) = None
      <-> (timedelta_hours expiry_hours <= now' - now)%Z)
  /\ (forall key' io,
         key' <> key ->
         get_cached_data key' expiry_hours now'
           (save_to_cache key data now io dir)
         = get_cached_data key' expiry_hours now' dir)
  /\ get_cached_data key expiry_hours now'
       (save_to_cache key data now NotOpened dir)
     = get_cached_data key expiry_hours now' dir
  /\ get_cached_data key expiry_hours now'
       (save_to_cache key data now Truncated dir) = None.
Proof.
  unfold get_cached_data, save_to_cache. cbv zeta. repeat apply conj.
  - rewrite lookup_insert_eq. intros H.
    destruct (bool_decide _) eqn:Hb; [|discriminate].
    apply bool_decide_eq_true_1 in Hb. exact Hb.
  - rewrite lookup_insert_eq. intros H.
    rewrite bool_decide_eq_true_2 by exact H. reflexivity.
  - rewrite lookup_insert_eq. intros H.
    destruct (bool_decide _) eqn:Hb; [discriminate|].
    apply bool_decide_eq_false_1 in Hb. lia.
  - rewrite lookup_insert_eq. intros H.
    rewrite bool_decide_eq_false_2 by lia. reflexivity.
  - intros key' io Hne.
    assert (Hpath : get_cache_path key <> get_cache_path key').
    { intros Heq. apply Hne. symmetry. apply get_cache_path_inj, Heq. }
    destruct io; [|reflexivity|]; rewrite lookup_insert_ne by exact Hpath;
      reflexivity.
  - reflexivity.
  - rewrite lookup_insert_eq. reflexivity.
Qed.

(** ** The home page *)

(** X20. After a call of [get_route_types] that asked the timetable
    service and wrote the answer, the next call returns that answer
    without asking as long as less than 24 hours have passed on the clock
    and the answer is not an empty object; otherwise it returns what the
    timetable service answers then, and nothing when that request fails:
    an expired answer is not served. *)
Theorem X20_route_types_served_while_fresh (env env' : surroundings)
    (s : shelf) (data : route_types_response) :
  get_cached_data "route_types" 24 (clock env (accesses s))
    (route_types_dir s) = None ->
  requests_get_route_types env (route_types_url (credentials env))
  = Some data ->
  writing env (S (accesses s)) = Written ->
  let s1 := snd (get_route_types env s) in
  let age := (clock env' (accesses s1) - clock env (S (accesses s)))%Z in
  fst (get_route_types env s) = Some data
  /\ fst (get_route_types env' s1)
     = if bool_decide (age < timedelta_hours 24)%Z && route_types_truthy data
       then Some data
       else requests_get_route_types env'
              (route_types_url (credentials env')).
Proof.
  intros Hmiss Hup Hio s1 age.
  assert (Hfirst : get_route_types env s
                   = (Some data,
                      {| route_types_dir :=
                           <[get_cache_path "route_types" :=
                               Pickled (clock env (S (accesses s))) data]>
                             (route_types_dir s);
                         routes_dir := routes_dir s;
                         accesses := S (S (accesses s)) |})).
  { unfold get_route_types. rewrite Hmiss. cbn [accesses route_types_dir].
    rewrite Hup, Hio. reflexivity. }
  subst s1 age. rewrite Hfirst. cbn [fst snd accesses].
  split; [reflexivity|].
  unfold get_route_types. cbn [accesses route_types_dir routes_dir].
  unfold get_cached_data at 1. cbv zeta. rewrite lookup_insert_eq.
  destruct (bool_decide _); cbn [andb].
  - destruct (route_types_truthy data); [reflexivity|].
    destruct (requests_get_route_types env' _); reflexivity.
  - destruct (requests_get_route_types env' _); reflexivity.
Qed.

Lemma mirrors_accesses (env : surroundings) (s : shelf) (n : nat) :
  mirrors env s ->
  mirrors env {| route_types_dir := route_types_dir s;
                 routes_dir := routes_dir s; accesses := n |}.
Proof. intros H. exact H. Qed.

Lemma get_cached_data_Some {D : Type} (key : string) (expiry_hours now : Z)
    (dir : cache_dir D) (data : D) :
  get_cached_data key expiry_hours now dir = Some data ->
  exists timestamp, dir !! get_cache_path key = Some (Pickled timestamp data).
Proof.
  unfold get_cached_data.
  destruct (dir !! get_cache_path key) as [[t d|]|]; try discriminate.
  destruct (bool_decide _); [|discriminate].
  intros H. inversion H; subst. eauto.
Qed.

Lemma routes_by_type_url_py_str (e : signer) (a b : value) :
  a <> VNone -> b <> VNone -> py_str a = py_str b ->
  routes_by_type_url e a = routes_by_type_url e b.
Proof.
  intros Ha Hb Heq. unfold routes_by_type_url.
  replace (negb (is_none a)) with true
    by (destruct a; [congruence | reflexivity..]).
  replace (negb (is_none b)) with true
    by (destruct b; [congruence | reflexivity..]).
  rewrite Heq. reflexivity.
Qed.

Lemma routes_type_key_inj (a b : value) :
  get_cache_path (routes_type_key a) = get_cache_path (routes_type_key b) ->
  py_str a = py_str b.
Proof.
  intros H. apply get_cache_path_inj in H. unfold routes_type_key in H.
  eapply String.app_inj, H.
Qed.

Lemma get_route_types_mirrors (env : surroundings) (s : shelf) :
  mirrors env s ->
  fst (get_route_types env s)
  = requests_get_route_types env (route_types_url (credentials env))
  /\ mirrors env (snd (get_route_types env s)).
Proof.
  intros Hs. pose proof Hs as [Htypes Hroutes]. unfold get_route_types.
  cbn [accesses route_types_dir routes_dir].
  assert (Hfetch :
    forall n,
      let fetch :=
        match requests_get_route_types env
                (route_types_url (credentials env)) with
        | Some data =>
            (Some data,
             {| route_types_dir :=
                  save_to_cache "route_types" data (clock env n)
                    (writing env n) (route_types_dir s);
                routes_dir := routes_dir s; accesses := S n |})
        | None =>
            (None, {| route_types_dir := route_types_dir s;
                      routes_dir := routes_dir s; accesses := n |})
        end in
      fst fetch
      = requests_get_route_types env (route_types_url (credentials env))
      /\ mirrors env (snd fetch)).
  { intros n.
    destruct (requests_get_route_types env _) as [data|] eqn:Hup;
      cbn [fst snd]; (split; [reflexivity|]); [|exact Hs].
    split; [|exact Hroutes]. cbn [route_types_dir].
    intros t d. unfold save_to_cache.
    destruct (writing env n).
    - rewrite lookup_insert_eq. intros H. inversion H; subst. exact Hup.
    - intros H. rewrite Hup. eapply Htypes, H.
    - rewrite lookup_insert_eq. discriminate. }
  destruct (get_cached_data "route_types" 24 _ _) as [cached|] eqn:Hc;
    [|apply Hfetch].
  destruct (route_types_truthy cached); [|apply Hfetch].
  cbn [fst snd]. split; [|exact Hs].
  apply get_cached_data_Some in Hc as [t Ht]. symmetry. eapply Htypes, Ht.
Qed.

Lemma get_routes_by_type_mirrors (env : surroundings) (route_type : value)
    (s : shelf) :
  route_type <> VNone -> mirrors env s ->
  routes_of (fst (get_routes_by_type env route_type s))
  = upstream_routes env route_type
  /\ mirrors env (snd (get_routes_by_type env route_type s)).
Proof.
  intros Hsome Hs. pose proof Hs as [Htypes Hroutes].
  unfold get_routes_by_type, upstream_routes.
  cbn [accesses route_types_dir routes_dir].
  assert (Hfetch :
    forall n,
      let fetch :=
        match requests_get_routes env
                (routes_by_type_url (credentials env) route_type) with
        | Some data =>
            (Some data,
             {| route_types_dir := route_types_dir s;
                routes_dir :=
                  save_to_cache (routes_type_key route_type) data
                    (clock env n) (writing env n) (routes_dir s);
                accesses := S n |})
        | None =>
            (None, {| route_types_dir := route_types_dir s;
                      routes_dir := routes_dir s; accesses := n |})
        end in
      routes_of (fst fetch)
      = routes_of (requests_get_routes env
                     (routes_by_type_url (credentials env) route_type))
      /\ mirrors env (snd fetch)).
  { intros n.
    destruct (requests_get_routes env _) as [data|] eqn:Hup;
      cbn [fst snd]; (split; [reflexivity|]); [|exact Hs].
    split; [exact Htypes|]. cbn [routes_dir].
    intros rt t d Hrt. unfold save_to_cache.
    destruct (decide (get_cache_path (routes_type_key rt)
                      = get_cache_path (routes_type_key route_type)))
      as [Heq|Hne].
    - rewrite Heq.
      rewrite (routes_by_type_url_py_str _ rt route_type Hrt Hsome
                 (routes_type_key_inj _ _ Heq)).
      destruct (writing env n).
      + rewrite lookup_insert_eq. intros H. inversion H; subst. exact Hup.
      + intros H. eapply Hroutes; eassumption.
      + rewrite lookup_insert_eq. discriminate.
    - destruct (writing env n);
        rewrite ?lookup_insert_ne by (intros H; apply Hne; symmetry; exact H);
        intros H; eapply Hroutes; eassumption. }
  destruct (get_cached_data (routes_type_key route_type) 24 _ _)
    as [cached|] eqn:Hc; [|apply Hfetch].
  destruct (routes_truthy cached) eqn:Htruthy; [|apply Hfetch].
  cbn [fst snd]. split; [|exact Hs].
  apply get_cached_data_Some in Hc as [t Ht].
  rewrite (Hroutes _ _ _ Hsome Ht). reflexivity.
Qed.

Lemma home_loop_mirrors (env : surroundings) (route_types : list dict)
    (s : shelf) :
  Forall typed route_types -> mirrors env s ->
  exists s',
    home_loop env route_types s
    = (Ok (map (fun route_type =>
                  (route_type,
                   upstream_routes env (dict_get route_type "route_type")))
             route_types), s')
    /\ mirrors env s'.
Proof.
  intros Htyped. revert s.
  induction Htyped as [|route_type route_types (type_id & Hid & Hsome) _ IH];
    intros s Hs; cbn [home_loop map].
  - eauto.
  - unfold getitem, dict_get. rewrite Hid. cbn [default].
    destruct (get_routes_by_type_mirrors env type_id s Hsome Hs)
      as [Hroutes Hs1].
    destruct (get_routes_by_type env type_id s) as [routes_data s1].
    cbn [fst snd] in Hroutes, Hs1.
    destruct (IH s1 Hs1) as (s' & -> & Hs'). rewrite Hroutes. eauto.
Qed.

(** X21. When the files of the cache directory hold only what the
    timetable service answers, and the route types of the service have an
    identifier that is not null, the home page raises no exception and
    shows the route types of the service in their order, each with the
    routes that the service returns for it, or with none when that request
    fails; this whatever the clock shows and however the writing of the
    cache files ends; and the files hold only what the service answers
    afterwards too. *)
Theorem X21_home_shows_the_routes_of_each_type (env : surroundings)
    (s : shelf) :
  mirrors env s ->
  Forall typed (upstream_route_types env) ->
  exists s',
    home env s
    = (Ok (map (fun route_type =>
                  (route_type,
                   upstream_routes env (dict_get route_type "route_type")))
             (upstream_route_types env)), s')
    /\ mirrors env s'.
Proof.
  intros Hs Htyped. unfold home.
  destruct (get_route_types_mirrors env s Hs) as [Hr Hs1].
  destruct (get_route_types env s) as [route_types_data s1].
  cbn [fst snd] in Hr, Hs1. unfold upstream_route_types in *.
  rewrite <- Hr in *. clear Hr.
  destruct route_types_data as [data|]; [|cbn [map]; eauto].
  unfold route_types_truthy.
  destruct (rt_route_types data) as [route_types|]; cbn [default] in *.
  - apply home_loop_mirrors; assumption.
  - destruct (rt_other_members data); cbn [map]; eauto.
Qed.

End Runtime.

(** ** The sample route, run *)

Example sample_route_stops :
  summary (fst (get_route_stops sample_str_of_float (sample_world true) 7 1
                  empty_cache))
  = [ (VInt 1, [ (Some (VInt 102), Some (VInt 10));
                 (Some (VInt 104), Some (VInt 15));
                 (Some (VInt 101), Some (VInt 20)) ]);
      (VInt 2, [ (Some (VInt 202), Some (VInt 1));
                 (Some (VInt 201), Some (VInt 2)) ]) ].
Proof. vm_compute. reflexivity. Qed.

Example sample_route_stops_failed :
  fst (get_route_stops sample_str_of_float (sample_world false) 7 1
         empty_cache) = Ok None.
Proof. vm_compute. reflexivity. Qed.

Lemma C1_absolute_sequence_policy_witness :
  process_stop sample_str_of_float (sample_world true) 1
    (sample_direction 1 "Up") (VInt 1) sample_sequence_map
    (sample_stop 101 "A" 1) empty_cache
  = (Ok sample_processed_stop, sample_cache_after_stop)
  /\ sample_processed_stop !! "absolute_sequence" = Some (VInt 20).
Proof.
  assert (H : process_stop sample_str_of_float (sample_world true) 1
                (sample_direction 1 "Up") (VInt 1) sample_sequence_map
                (sample_stop 101 "A" 1) empty_cache
              = (Ok sample_processed_stop, sample_cache_after_stop))
    by (vm_compute; reflexivity).
  split; [exact H|].
  destruct (C1_absolute_sequence_policy _ _ _ _ _ _ _ _ _ _ H)
    as (stop_id & Hid & Hpat & _).
  vm_compute in Hid. inversion Hid; subst stop_id.
  rewrite Hpat; [reflexivity|]. vm_compute. discriminate.
Defined.

Lemma C2_result_sorted_without_sentinel_witness :
  exists d c',
    get_route_stops sample_str_of_float (sample_world true) 7 1 empty_cache
    = (Ok (Some d), c')
    /\ ordered_result d.
Proof.
  eexists _, _. split; [vm_compute; reflexivity|].
  refine (proj1 (C2_result_sorted_without_sentinel sample_str_of_float
                   (sample_world true) 7 1 empty_cache _ _ _ _)).
  - intros key d0 H. vm_compute in H. discriminate.
  - vm_compute. reflexivity.
Defined.

Lemma sample_world_well_formed (down_ok : bool) :
  well_formed_world (sample_world down_ok).
Proof.
  assert (Hseq : forall (i : Z) (n : string) (k : Z),
             well_formed_stop (sample_stop i n k)).
  { intros i n k. split; [|split].
    - exists (VInt i). reflexivity.
    - exists (VStr n). split; [reflexivity | discriminate].
    - right. exists k. reflexivity. }
  split; [|split; [|split; [|split]]].
  - intros route_id r route Hr Hroute. simpl in Hr. inversion Hr; subst.
    simpl in Hroute. inversion Hroute; subst. eexists. reflexivity.
  - intros route_id r Hr dirs Hdirs. simpl in Hr. inversion Hr; subst.
    simpl in Hdirs. inversion Hdirs; subst.
    repeat (apply Forall_cons_2; [split; eexists; reflexivity|]).
    apply Forall_nil_2.
  - intros route_id route_type direction_id r departures Hr Hd.
    simpl in Hr. destruct direction_id as [|n| |]; try discriminate.
    destruct (decide (n = 1%Z)) as [->|Hne].
    + inversion Hr; subst. simpl in Hd. inversion Hd; subst.
      repeat (apply Forall_cons_2; [right; eexists; reflexivity|]).
      apply Forall_nil_2.
    + exfalso. destruct n as [|p|p]; try discriminate.
      repeat (destruct p as [p|p|]; try discriminate). apply Hne. reflexivity.
  - intros route_id route_type direction_id r stops Hr Hs.
    simpl in Hr. destruct direction_id as [|n| |]; try discriminate.
    destruct (decide (n = 1%Z)) as [->|Hne1].
    { inversion Hr; subst. simpl in Hs. inversion Hs; subst.
      repeat (apply Forall_cons_2; [apply Hseq|]). apply Forall_nil_2. }
    destruct (decide (n = 2%Z)) as [->|Hne2].
    { destruct down_ok; [|discriminate]. inversion Hr; subst.
      simpl in Hs. inversion Hs; subst.
      repeat (apply Forall_cons_2; [apply Hseq|]). apply Forall_nil_2. }
    exfalso. destruct n as [|p|p]; try discriminate.
    repeat (destruct p as [p|p|]; try discriminate);
      [apply Hne2 | apply Hne1]; reflexivity.
  - intros stop_id route_type r Hr. simpl in Hr.
    destruct stop_id as [|n| |]; try discriminate.
    destruct (decide (n = 101%Z)) as [->|Hne].
    + inversion Hr; subst. intros d Hd. simpl in Hd. inversion Hd; subst.
      split; intros x Hx; vm_compute in Hx; discriminate.
    + exfalso. destruct n as [|p|p]; try discriminate.
      repeat (destruct p as [p|p|]; try discriminate). apply Hne. reflexivity.
Qed.

Lemma empty_cache_well_formed : well_formed_cache empty_cache.
Proof.
  split; intros key r H; simpl in H; rewrite lookup_empty in H; discriminate.
Qed.

Lemma C5_failed_stop_list_aborts_witness :
  fst (get_route_stops sample_str_of_float (sample_world false) 7 1
         empty_cache) = Ok None.
Proof.
  refine (proj2 (C5_failed_stop_list_aborts sample_str_of_float
                   (sample_world false) 7 1 empty_cache
                   (snd (get_route_directions (sample_world false) 7
                           empty_cache))
                   (snd (get_route_stops sample_str_of_float
                           (sample_world false) 7 1 empty_cache))
                   {| dr_directions :=
                        Some [sample_direction 1 "Up";
                              sample_direction 2 "Down"] |}
                   [sample_direction 1 "Up"; sample_direction 2 "Down"]
                   (sample_direction 2 "Down") (VInt 2) _ _ _ _ _ _ _ _)
            (sample_world_well_formed false) empty_cache_well_formed).
  - vm_compute. reflexivity.
  - vm_compute. reflexivity.
  - reflexivity.
  - right. left.
  - vm_compute. reflexivity.
  - reflexivity.
  - apply surjective_pairing.
Defined.

Lemma C10_cache_written_on_success_only_witness :
  stops_route_cache
    (snd (get_route_stops sample_str_of_float (sample_world false) 7 1
            empty_cache))
  = stops_route_cache empty_cache.
Proof.
  refine (proj1 (C10_cache_written_on_success_only sample_str_of_float
                   (sample_world false) 7 1 empty_cache _ _
                   (surjective_pairing _)) _).
  vm_compute. reflexivity.
Defined.

Lemma C8_pattern_and_details_failures_not_fatal_witness :
  get_sequence_map (sample_world true) 7 1 (VInt 2) = []
  /\ process_stop sample_str_of_float (sample_world true) 1
       (sample_direction 2 "Down") (VInt 2) [] (sample_stop 202 "F" 1)
       empty_cache
     = (Ok (<["absolute_sequence" := VInt 1]>
              (<["direction_name" := VStr "Down"]>
                 (<["direction_id" := VInt 2]> (sample_stop 202 "F" 1)))),
        empty_cache).
Proof.
  destruct (C8_pattern_and_details_failures_not_fatal sample_str_of_float
              (sample_world true)) as (Hpattern & _ & Hdetails).
  split.
  - apply Hpattern. reflexivity.
  - rewrite (Hdetails 1%Z (sample_direction 2 "Down") (VInt 2) []
               (sample_stop 202 "F" 1) (VStr "Down") (VInt 202) empty_cache);
      [vm_compute; reflexivity | vm_compute; reflexivity
      | vm_compute; reflexivity | vm_compute; reflexivity | reflexivity].
Defined.

Lemma C9_enrich_keeps_matching_identifier_witness :
  enrich (sample_stop 101 "A" 1)
    (http_stop_details (sample_world true) (VInt 101) 1) !! "stop_id"
  = sample_stop 101 "A" 1 !! "stop_id".
Proof.
  apply C9_enrich_keeps_matching_identifier.
  intros v H. vm_compute in H. vm_compute. exact H.
Defined.

Lemma C9_counterexample :
  enrich (sample_stop 1 "A" 3) (Some foreign_details) !! "stop_id"
  = Some (VInt 2)
  /\ sample_stop 1 "A" 3 !! "stop_id" = Some (VInt 1)
  /\ enrich (sample_stop 1 "A" 3) (Some foreign_details) !! "stop_id"
     <> sample_stop 1 "A" 3 !! "stop_id".
Proof.
  split; [vm_compute; reflexivity|]. split; [vm_compute; reflexivity|].
  vm_compute. discriminate.
Qed.

(** ** The sample events, matched *)

Lemma gig_step_nowhere (acc : list nearby_gig) :
  gig_step sample_float_of_string 0 0 acc gig_nowhere = Ok acc.
Proof.
  unfold gig_step. cbv zeta.
  assert (Hnowhere : gig_venue gig_nowhere !! "latitude" = None)
    by (vm_compute; reflexivity).
  rewrite Hnowhere. reflexivity.
Qed.

Lemma gig_step_here (acc : list nearby_gig) :
  gig_step sample_float_of_string 0 0 acc gig_here = Ok (acc ++ [nearby_here]).
Proof.
  unfold gig_step. cbv zeta.
  assert (Hlat : gig_venue gig_here !! "latitude" = Some (VInt 0))
    by (vm_compute; reflexivity).
  assert (Hlon : gig_venue gig_here !! "longitude" = Some (VInt 0))
    by (vm_compute; reflexivity).
  rewrite Hlat, Hlon. cbn [mbind outcome_bind py_float].
  rewrite calculate_distance_same.
  rewrite bool_decide_eq_true_2 by lra.
  reflexivity.
Qed.

Lemma nearby_gigs_of_located (id sequence : Z) :
  nearby_gigs_of sample_float_of_string (located_stop id sequence) sample_gigs
  = Ok [nearby_here].
Proof.
  unfold nearby_gigs_of, getitem.
  assert (Hlat : located_stop id sequence !! "stop_latitude"
                 = Some (VInt 0)) by (vm_compute; reflexivity).
  assert (Hlon : located_stop id sequence !! "stop_longitude"
                 = Some (VInt 0)) by (vm_compute; reflexivity).
  rewrite Hlat, Hlon.
  cbn [mbind outcome_bind py_float sample_gigs foldM_outcome].
  rewrite gig_step_nowhere. cbn [mbind outcome_bind].
  rewrite gig_step_here. reflexivity.
Qed.

Lemma sample_match :
  find_nearby_gigs_for_stops sample_float_of_string [located_stop 1 5]
    sample_gigs
  = Ok ([{| swg_stop := located_stop 1 5; nearby_gigs := [nearby_here] |}],
        true).
Proof.
  unfold find_nearby_gigs_for_stops. cbn [find_nearby_loop].
  rewrite nearby_gigs_of_located. reflexivity.
Qed.

Lemma C3_attached_events_have_coordinates_within_500_witness :
  gig_here ∈ sample_gigs
  /\ attached_within sample_float_of_string (located_stop 1 5) nearby_here.
Proof.
  apply (proj1 (C3_attached_events_have_coordinates_within_500
                  sample_float_of_string [located_stop 1 5] sample_gigs _ _
                  sample_match)
           {| swg_stop := located_stop 1 5; nearby_gigs := [nearby_here] |}
           nearby_here).
  - left.
  - left.
Defined.

Lemma C4_matches_sorted_and_flagged_witness :
  StronglySorted by_distance [nearby_here]
  /\ (true = true <->
      exists s, s ∈ [located_stop 1 5]
                /\ retained sample_float_of_string s sample_gigs <> []).
Proof.
  destruct (C4_matches_sorted_and_flagged sample_float_of_string
              [located_stop 1 5] sample_gigs _ _ sample_match)
    as (Hsorted & _ & _ & Hany & _).
  split; [|exact Hany].
  apply Forall_inv in Hsorted. exact Hsorted.
Defined.

Lemma C6_gigs_ahead_candidates_witness :
  gigs_ahead sample_float_of_string sample_located_stops sample_gigs 1
  = (r ← find_nearby_gigs_for_stops sample_float_of_string
           [located_stop 1 5; located_stop 2 7] sample_gigs;
     Ok (GigsAheadView (located_stop 1 5) (fst r) (snd r))).
Proof.
  assert (Hfind : find_current_stop sample_located_stops 1
                  = Ok (Some (located_stop 1 5)))
    by (vm_compute; reflexivity).
  destruct (C6_gigs_ahead_candidates sample_float_of_string
              sample_located_stops sample_gigs 1 _ Hfind)
    as (_ & _ & Hahead).
  destruct Hahead as [Hrun _].
  - vm_compute. discriminate.
  - repeat constructor; eexists; vm_compute; reflexivity.
  - rewrite Hrun. reflexivity.
Defined.

Example sample_gigs_ahead :
  gigs_ahead sample_float_of_string sample_located_stops sample_gigs 1
  = Ok (GigsAheadView (located_stop 1 5)
          [ {| swg_stop := located_stop 1 5; nearby_gigs := [nearby_here] |};
            {| swg_stop := located_stop 2 7; nearby_gigs := [nearby_here] |} ]
          true).
Proof.
  assert (Hfind : find_current_stop sample_located_stops 1
                  = Ok (Some (located_stop 1 5)))
    by (vm_compute; reflexivity).
  assert (Htarget : dict_get (located_stop 1 5) "stop_sequence" = VInt 5)
    by (vm_compute; reflexivity).
  assert (Hahead : stops_ahead (VInt 5) sample_located_stops
                   = [located_stop 2 7])
    by (vm_compute; reflexivity).
  unfold gigs_ahead. rewrite Hfind. cbn [mbind outcome_bind].
  rewrite Htarget. cbn [is_none].
  rewrite nearby_gigs_of_located. cbn [mbind outcome_bind].
  rewrite ahead_loop_spec, Hahead.
  - cbn [find_nearby_loop]. rewrite nearby_gigs_of_located. reflexivity.
  - repeat constructor; eexists; vm_compute; reflexivity.
Qed.

(** ** The further properties on the samples *)

Lemma X3_distance_along_meridian_witness :
  calculate_distance 0 0 1 0 = (6371000 * radians (1 - 0))%R.
Proof. apply X3_distance_along_meridian. lra. Defined.

Lemma X4_every_event_in_range_is_attached_witness :
  exists swg,
    swg ∈ [{| swg_stop := located_stop 1 5; nearby_gigs := [nearby_here] |}]
    /\ swg_stop swg = located_stop 1 5
    /\ {| ng_gig := gig_here;
          distance_meters := calculate_distance 0 0 0 0 |} ∈ nearby_gigs swg.
Proof.
  refine (proj2 (X4_every_event_in_range_is_attached sample_float_of_string
                   [located_stop 1 5] sample_gigs _ _ (located_stop 1 5)
                   gig_here (VInt 0) (VInt 0) 0 0 0 0 sample_match
                   _ _ _ _ _ _ _ _ _)).
  - left.
  - right. left.
  - vm_compute. reflexivity.
  - vm_compute. reflexivity.
  - vm_compute. reflexivity.
  - vm_compute. reflexivity.
  - reflexivity.
  - reflexivity.
  - rewrite calculate_distance_same. lra.
Defined.

Lemma X5_nearby_events_stably_rearranged_witness :
  exists selected,
    nearby_gigs_of sample_float_of_string (located_stop 1 5) sample_gigs
    = Ok selected
    /\ sublist (map ng_gig selected) sample_gigs
    /\ [nearby_here] ≡ₚ selected
    /\ forall d : R,
         List.filter (fun n => bool_decide (distance_meters n = d))
           [nearby_here]
         = List.filter (fun n => bool_decide (distance_meters n = d))
             selected.
Proof.
  apply (X5_nearby_events_stably_rearranged sample_float_of_string
           [located_stop 1 5] sample_gigs _ _
           {| swg_stop := located_stop 1 5; nearby_gigs := [nearby_here] |}
           sample_match).
  left.
Defined.

Lemma X6_last_departure_wins_witness :
  pymap_get (sequence_map_of ([sample_departure 20] ++ [sample_departure 30]))
    (VInt 101)
  = VInt 30.
Proof.
  pose proof (X6_last_departure_wins [sample_departure 20]
                (sample_departure 30)) as H.
  cbv zeta in H. destruct H as [H _].
  destruct H as [H _];
    [vm_compute; discriminate | vm_compute; discriminate |].
  vm_compute in H |- *. exact H.
Defined.

Lemma single_stop_run :
  get_route_stops sample_str_of_float single_stop_world 7 1 empty_cache
  = (Ok (Some single_stop_result),
     snd (get_route_stops sample_str_of_float single_stop_world 7 1
            empty_cache)).
Proof. vm_compute. reflexivity. Qed.

Lemma single_stop_miss :
  stops_route_cache empty_cache !! stops_route_key 7 1 = None.
Proof. vm_compute. reflexivity. Qed.

Lemma X7_result_stops_are_complete_witness :
  Forall complete_stop [single_stop_processed].
Proof.
  exact (X7_result_stops_are_complete sample_str_of_float single_stop_world
           7 1 empty_cache _ single_stop_result single_stop_miss
           single_stop_run (VInt 1) [single_stop_processed]
           (list_elem_of_here _ _)).
Defined.

Lemma X8_without_patterns_raw_order_witness :
  Forall ordered_by_raw_sequence [single_stop_processed].
Proof.
  refine (X8_without_patterns_raw_order sample_str_of_float
            single_stop_world 7 1 empty_cache _ single_stop_result _
            single_stop_miss single_stop_run (VInt 1) [single_stop_processed]
            (list_elem_of_here _ _)).
  intros direction_id. reflexivity.
Defined.


Lemma X11_entries_follow_the_directions_witness :
  exists direction,
    direction ∈ directions single_stop_result
    /\ direction !! "direction_id" = Some (VInt 1).
Proof.
  exact (proj1 (X11_entries_follow_the_directions sample_str_of_float
                  single_stop_world 7 1 empty_cache _ single_stop_result
                  single_stop_miss single_stop_run)
           (VInt 1) [single_stop_processed] (list_elem_of_here _ _)).
Defined.

Lemma single_stop_direction_run :
  process_direction sample_str_of_float single_stop_world 7 1 []
    (sample_direction 1 "Up") empty_cache
  = (Ok (Some (stops_by_direction single_stop_result)),
     snd (process_direction sample_str_of_float single_stop_world 7 1 []
            (sample_direction 1 "Up") empty_cache)).
Proof. vm_compute. reflexivity. Qed.

Lemma X12_only_unordered_stops_are_dropped_witness :
  exists processed valid,
    pymap_lookup (stops_by_direction single_stop_result) (VInt 1)
    = Some valid
    /\ valid ≡ₚ List.filter has_real_sequence processed.
Proof.
  destruct (X12_only_unordered_stops_are_dropped sample_str_of_float
              single_stop_world 7 1 [] _ (sample_direction 1 "Up") (VInt 1)
              {| sr_stops := Some [single_stop] |} [single_stop]
              empty_cache _ single_stop_direction_run)
    as (processed & valid & _ & Hlookup & Hperm).
  - vm_compute. reflexivity.
  - reflexivity.
  - reflexivity.
  - exists processed, valid. split; assumption.
Defined.

Lemma X13_gigs_ahead_returns_a_view_witness :
  exists v,
    gigs_ahead sample_float_of_string sample_located_stops sample_gigs 1
    = Ok v.
Proof.
  destruct (X13_gigs_ahead_returns_a_view sample_float_of_string
              sample_located_stops sample_gigs 1) as (v & Hv & _).
  - repeat (apply Forall_cons_2; [eexists; vm_compute; reflexivity|]).
    apply Forall_nil_2.
  - repeat (apply Forall_cons_2;
            [exists (VInt 0), (VInt 0);
             split; [vm_compute; reflexivity|];
             split; [vm_compute; reflexivity|];
             split; reflexivity|]).
    apply Forall_nil_2.
  - apply Forall_cons_2.
    { intros latitude longitude H. vm_compute in H. discriminate. }
    apply Forall_cons_2; [|apply Forall_nil_2].
    intros latitude longitude Hla Hlo. vm_compute in Hla, Hlo.
    inversion Hla; inversion Hlo; subst. split; reflexivity.
  - repeat (apply Forall_cons_2; [vm_compute; reflexivity|]).
    apply Forall_nil_2.
  - exists v. exact Hv.
Defined.

Lemma X14_null_raw_sequence_raises_witness :
  exists e,
    gigs_ahead sample_float_of_string sample_stops_with_null sample_gigs 1
    = Raise e.
Proof.
  apply (X14_null_raw_sequence_raises sample_float_of_string
           sample_stops_with_null sample_gigs 1 (located_stop 1 5)
           {[ "stop_id" := VInt 9; "stop_sequence" := VNone;
              "stop_latitude" := VInt 0; "stop_longitude" := VInt 0 ]}).
  - vm_compute. reflexivity.
  - vm_compute. discriminate.
  - right. left.
  - vm_compute. reflexivity.
Defined.

Lemma X15_stops_page_error_exactly_on_failure_witness :
  exists v c',
    show_stops sample_str_of_float (sample_world false) 7 1 empty_cache
    = (Ok v, c').
Proof.
  destruct (X15_stops_page_error_exactly_on_failure sample_str_of_float
              (sample_world false) 7 1 empty_cache
              (sample_world_well_formed false) empty_cache_well_formed)
    as (v & c' & Hv & _).
  - vm_compute. reflexivity.
  - exists v, c'. exact Hv.
Defined.

Lemma X16_route_matches_direction_by_direction_witness :
  snd (show_nearby_gigs sample_float_of_string sample_str_of_float
         single_stop_world 7 1 empty_cache)
  = snd (get_route_stops sample_str_of_float single_stop_world 7 1
           empty_cache).
Proof.
  exact (proj1 (X16_route_matches_direction_by_direction
                  sample_float_of_string sample_str_of_float
                  single_stop_world 7 1 empty_cache _ _ single_stop_result
                  sample_gigs _ single_stop_run eq_refl
                  (surjective_pairing _))).
Defined.

Lemma X17_log_buffer_keeps_the_most_recent_witness :
  get_logs (run_log_calls sample_log_calls [])
  = [ {| le_timestamp := "2024-01-01T10:00:00";
         le_message := "Route name: Seven" |};
      {| le_timestamp := "2024-01-01T10:00:01";
         le_message := "ERROR: Request failed" |};
      {| le_timestamp := "2024-01-01T10:00:02";
         le_message := "WARNING: No stops found in response!" |} ].
Proof.
  rewrite (proj1 (X17_log_buffer_keeps_the_most_recent sample_log_calls []
                    (Nat.le_0_l LOG_MAXLEN))).
  vm_compute. reflexivity.
Defined.

Lemma X18_requests_carry_their_signature_witness :
  routes_by_type_url sample_str_of_float sample_signer (VInt 1)
  = signed_request sample_signer
      ("/v3/routes?route_types=" +:+ py_str sample_str_of_float (VInt 1)
       +:+ "&devid=" +:+ DEV_ID sample_signer).
Proof.
  apply (proj1 (proj2 (X18_requests_carry_their_signature sample_str_of_float
                         sample_signer))).
  discriminate.
Defined.

Lemma X19_cache_entries_expire_witness :
  get_cached_data "route_types" 24 86399999999
    (save_to_cache "route_types" (VInt 1) 0 Written ∅)
  = Some (VInt 1).
Proof.
  apply (proj1 (X19_cache_entries_expire "route_types" (VInt 1) 0 86399999999
                  24 ∅)).
  vm_compute. reflexivity.
Defined.

Lemma X20_route_types_served_while_fresh_witness :
  fst (get_route_types sample_surroundings empty_shelf)
  = Some sample_route_types.
Proof.
  refine (proj1 (X20_route_types_served_while_fresh sample_surroundings
                   sample_surroundings empty_shelf sample_route_types
                   _ _ _)).
  - vm_compute. reflexivity.
  - reflexivity.
  - reflexivity.
Defined.

Lemma empty_shelf_mirrors (env : surroundings) :
  mirrors sample_str_of_float env empty_shelf.
Proof.
  split.
  - intros timestamp data H. cbn [route_types_dir empty_shelf] in H.
    rewrite lookup_empty in H. discriminate.
  - intros route_type timestamp data _ H. cbn [routes_dir empty_shelf] in H.
    rewrite lookup_empty in H. discriminate.
Qed.

Lemma X21_home_shows_the_routes_of_each_type_witness :
  exists shown s',
    home sample_str_of_float sample_surroundings empty_shelf = (Ok shown, s').
Proof.
  destruct (X21_home_shows_the_routes_of_each_type sample_str_of_float
              sample_surroundings empty_shelf
              (empty_shelf_mirrors sample_surroundings))
    as (s' & Hhome & _).
  - apply Forall_cons_2; [|apply Forall_nil_2].
    exists (VInt 0). split; [vm_compute; reflexivity | discriminate].
  - eexists _, _. exact Hhome.
Defined.

Example sample_home :
  fst (home sample_str_of_float sample_surroundings empty_shelf)
  = Ok [(sample_route_type, [ {[ "route_id" := VInt 7 ]} ])].
Proof. vm_compute. reflexivity. Qed.
